(** * JSONLab: path-addressable JSON document model

    A shallow embedding of the core of the JSONLab workbench
    (src/utils/jsonUtils.ts, src/utils/graphUtils.ts, the QueryTool and
    DocumentViewer components, the handlers of the array editor and the
    version history kept by App.tsx), together with the properties its
    design document states about it.

    JS strings are modelled as [string], a sequence of code units below 256.
    JSON numbers are modelled by their integer values ([Z]). A JS object is
    the list of its own data properties in enumeration order; where the
    code assigns to an object it has made, the assignment to [__proto__]
    is modelled as the host carries it out. *)

From Stdlib Require Import String Ascii List ZArith Lia Bool Arith.
From Stdlib Require Import Permutation DecimalString Decimal Sorted.
From Stdlib Require DecimalNat DecimalFacts.
Import ListNotations.

Set Warnings "-register-all".

Open Scope list_scope.
Open Scope string_scope.

(* ===================================================================== *)
(** ** Built-in string operations of the host language *)
(* ===================================================================== *)

Module JsString.

Definition dquote : string := String (ascii_of_nat 34) "".
Definition squote : ascii := ascii_of_nat 39.
Definition newline : ascii := ascii_of_nat 10.

(** WhiteSpace and LineTerminator code units below 256:
    TAB, LF, VT, FF, CR, SP and NBSP. *)
Definition isWhiteSpace (c : ascii) : bool :=
  let n := nat_of_ascii c in
  (((9 <=? n) && (n <=? 13)) || (n =? 32) || (n =? 160))%nat.

Definition isDigit (c : ascii) : bool :=
  let n := nat_of_ascii c in ((48 <=? n) && (n <=? 57))%nat.

Definition isEmpty (s : string) : bool :=
  match s with EmptyString => true | _ => false end.

Fixpoint allChars (p : ascii -> bool) (s : string) : bool :=
  match s with
  | EmptyString => true
  | String c r => p c && allChars p r
  end.

(** Longest prefix whose characters satisfy [p], and what follows it. *)
Fixpoint span (p : ascii -> bool) (s : string) : string * string :=
  match s with
  | EmptyString => (EmptyString, EmptyString)
  | String c r =>
      if p c then let '(a, b) := span p r in (String c a, b)
      else (EmptyString, s)
  end.

Fixpoint trimStart (s : string) : string :=
  match s with
  | EmptyString => EmptyString
  | String c r => if isWhiteSpace c then trimStart r else s
  end.

Fixpoint trimEnd (s : string) : string :=
  match s with
  | EmptyString => EmptyString
  | String c r =>
      let r' := trimEnd r in
      if isWhiteSpace c && isEmpty r' then EmptyString else String c r'
  end.

Definition trim (s : string) : string := trimEnd (trimStart s).

(** [s] without its first character. *)
Definition dropFirst (s : string) : string :=
  match s with
  | EmptyString => EmptyString
  | String _ r => r
  end.

(** [s.startsWith(t)] *)
Fixpoint startsWith (s t : string) {struct t} : bool :=
  match t, s with
  | EmptyString, _ => true
  | String _ _, EmptyString => false
  | String b t', String a s' => Ascii.eqb a b && startsWith s' t'
  end.

(** [s.endsWith(t)] *)
Fixpoint endsWith (s t : string) : bool :=
  String.eqb s t ||
  match s with
  | EmptyString => false
  | String _ r => endsWith r t
  end.

(** [s.includes(t)] *)
Fixpoint includes (s t : string) : bool :=
  startsWith s t ||
  match s with
  | EmptyString => false
  | String _ r => includes r t
  end.

(** [s.split('\n')] *)
Fixpoint splitLines (s : string) : list string :=
  match s with
  | EmptyString => [EmptyString]
  | String c r =>
      if Ascii.eqb c newline then EmptyString :: splitLines r
      else match splitLines r with
           | h :: t => String c h :: t
           | [] => [String c EmptyString]
           end
  end.

(** [parts.join(sep)] *)
Fixpoint join (sep : string) (parts : list string) : string :=
  match parts with
  | [] => EmptyString
  | [p] => p
  | p :: rest => p ++ sep ++ join sep rest
  end.

(** Value of a run of decimal digits, as [parseInt] reads it. *)
Definition digitsValue (s : string) : Z :=
  let fix go (acc : Z) (s : string) : Z :=
    match s with
    | EmptyString => acc
    | String c r => go (10 * acc + (Z.of_nat (nat_of_ascii c) - 48))%Z r
    end in
  go 0%Z s.

(** Decimal rendering of a natural number, as [String(n)] gives it. *)
Definition ofNat (n : nat) : string :=
  NilEmpty.string_of_uint (Nat.to_uint n).

End JsString.

(* ===================================================================== *)
(** ** [Number(s)] on strings: which strings are not NaN *)
(* ===================================================================== *)

Module JsNumber.
Import JsString.

Definition isSign (c : ascii) : bool :=
  Ascii.eqb c "+"%char || Ascii.eqb c "-"%char.

Definition isBinaryDigit (c : ascii) : bool :=
  Ascii.eqb c "0"%char || Ascii.eqb c "1"%char.

Definition isOctalDigit (c : ascii) : bool :=
  let n := nat_of_ascii c in ((48 <=? n) && (n <=? 55))%nat.

Definition isHexDigit (c : ascii) : bool :=
  let n := nat_of_ascii c in
  isDigit c || ((65 <=? n) && (n <=? 70))%nat || ((97 <=? n) && (n <=? 102))%nat.

(** DecimalDigits: one or more decimal digits. *)
Definition isDecimalDigits (s : string) : bool :=
  negb (isEmpty s) && allChars isDigit s.

(** ExponentPart, or nothing. *)
Definition isExponentPartOpt (s : string) : bool :=
  match s with
  | EmptyString => true
  | String e r =>
      (Ascii.eqb e "e"%char || Ascii.eqb e "E"%char) &&
      match r with
      | String c r' => if isSign c then isDecimalDigits r' else isDecimalDigits r
      | EmptyString => false
      end
  end.

(** StrUnsignedDecimalLiteral *)
Definition isStrUnsignedDecimalLiteral (s : string) : bool :=
  if String.eqb s "Infinity" then true
  else
    let '(int, r) := span isDigit s in
    match r with
    | String "."%char r' =>
        let '(frac, r'') := span isDigit r' in
        (negb (isEmpty int) || negb (isEmpty frac)) && isExponentPartOpt r''
    | _ => negb (isEmpty int) && isExponentPartOpt r
    end.

(** NonDecimalIntegerLiteral: 0b, 0o and 0x forms, without a sign. *)
Definition isNonDecimalIntegerLiteral (s : string) : bool :=
  match s with
  | String "0"%char (String k r) =>
      negb (isEmpty r) &&
      (if Ascii.eqb k "b"%char || Ascii.eqb k "B"%char then allChars isBinaryDigit r
       else if Ascii.eqb k "o"%char || Ascii.eqb k "O"%char then allChars isOctalDigit r
       else if Ascii.eqb k "x"%char || Ascii.eqb k "X"%char then allChars isHexDigit r
       else false)
  | _ => false
  end.

(** StrNumericLiteral *)
Definition isStrNumericLiteral (s : string) : bool :=
  isNonDecimalIntegerLiteral s ||
  match s with
  | String c r =>
      if isSign c then isStrUnsignedDecimalLiteral r
      else isStrUnsignedDecimalLiteral s
  | EmptyString => false
  end.

(** [isNaN(Number(s))]: the conversion yields NaN exactly when the trimmed
    text is neither empty nor a StrNumericLiteral. *)
Definition isNaN_Number (s : string) : bool :=
  let t := trim s in
  negb (isEmpty t || isStrNumericLiteral t).

End JsNumber.

(* ===================================================================== *)
(** ** types.ts *)
(* ===================================================================== *)

Inductive JsonValue : Type :=
| JNull
| JBool (b : bool)
| JNumber (n : Z)
| JString (s : string)
| JArray (items : list JsonValue)
| JObject (members : list (string * JsonValue)).

Definition JsonObject : Type := list (string * JsonValue).
Definition JsonArray : Type := list JsonValue.

Inductive PropertyType : Type :=
| TString | TNumber | TBoolean | TNull | TArray | TObject.

Inductive PropertySchema : Type :=
  mkPropertySchema {
    ps_name : string;
    ps_type : PropertyType;
    ps_required : bool;
    ps_arrayItemType : option PropertyType;
    ps_objectSchema : option (list PropertySchema)
  }.

Record ObjectSchema : Type := mkObjectSchema { properties : list PropertySchema }.

Record DocumentState : Type := mkDocumentState {
  raw : string;
  parsed : option JsonValue;
  isValid : bool;
  doc_error : option string
}.

Record VersionHistoryItem : Type := mkVersion {
  content : string;
  timestamp : Z;
  label : string
}.

(** Own properties of an object, in the order in which the host enumerates
    them: keys that are array indices first, by value, then the other keys
    in the order of their creation. *)
Module JsObject.
Import JsString.

Fixpoint get (k : string) (o : JsonObject) : option JsonValue :=
  match o with
  | [] => None
  | (k', v) :: r => if String.eqb k' k then Some v else get k r
  end.

Definition has (k : string) (o : JsonObject) : bool :=
  match get k o with Some _ => true | None => false end.

(** A canonical numeric string below 2^32 - 1. *)
Definition isArrayIndex (k : string) : bool :=
  match k with
  | EmptyString => false
  | String "0"%char r => isEmpty r
  | _ => allChars isDigit k && (digitsValue k <? 2 ^ 32 - 1)%Z
  end.

Fixpoint replace (k : string) (v : JsonValue) (o : JsonObject) : JsonObject :=
  match o with
  | [] => []
  | (k', v') :: r =>
      if String.eqb k' k then (k', v) :: r else (k', v') :: replace k v r
  end.

Fixpoint insertIndex (k : string) (v : JsonValue) (o : JsonObject) : JsonObject :=
  match o with
  | [] => [(k, v)]
  | (k', v') :: r =>
      if isArrayIndex k' && (digitsValue k' <? digitsValue k)%Z
      then (k', v') :: insertIndex k v r
      else (k, v) :: o
  end.

(** The own property [k] is given the value [v]: an existing property
    keeps its place and takes the new value; a new one is created. *)
Definition set (k : string) (v : JsonValue) (o : JsonObject) : JsonObject :=
  if has k o then replace k v o
  else if isArrayIndex k then insertIndex k v o
  else (o ++ [(k, v)])%list.

(** An object that started as [{}] and is assigned to: its own
    properties, and whether [Object.prototype], and with it the accessor
    [__proto__], is still on its prototype chain. *)
Record Assigned : Type := mkAssigned {
  own : JsonObject;
  inheritsProto : bool
}.

(** [{}] *)
Definition emptyObject : Assigned := {| own := []; inheritsProto := true |}.

(** [o[k] = v]. An own property takes the new value and a new property
    is created, except for the key [__proto__] on an object that has no
    such own property and inherits the accessor of [Object.prototype]:
    the setter of the accessor creates nothing, it makes [v] the
    prototype of [o] when [v] is an object or [null] and ignores every
    other [v]. [reaches] says, for a [v] that is an object, whether the
    prototype chain of [v] leads to [Object.prototype]. *)
Definition assign (k : string) (v : JsonValue) (reaches : bool) (o : Assigned)
  : Assigned :=
  if has k (own o) || negb (String.eqb k "__proto__" && inheritsProto o)
  then {| own := set k v (own o); inheritsProto := inheritsProto o |}
  else match v with
       | JNull => {| own := own o; inheritsProto := false |}
       | JArray _ | JObject _ => {| own := own o; inheritsProto := reaches |}
       | _ => o
       end.

(** [Object.entries(o)] *)
Definition entries (o : JsonObject) : list (string * JsonValue) := o.

Definition keys (o : JsonObject) : list string := map fst o.

(** [k] is enumerated before [k']: the keys differ and, when [k'] is an
    array index, [k] is a smaller one. *)
Definition precedes (k k' : string) : bool :=
  negb (String.eqb k k')
  && (negb (isArrayIndex k')
      || (isArrayIndex k && (digitsValue k <? digitsValue k')%Z)).

(** Keys in the order in which an object enumerates them. *)
Fixpoint enumerated (keys : list string) : bool :=
  match keys with
  | [] => true
  | k :: rest => forallb (precedes k) rest && enumerated rest
  end.

End JsObject.

(** What a call into the host language's library can do: return a value or
    throw. A thrown value is either an [Error] object, which carries a
    message, or something else. *)
Inductive Thrown : Type :=
| ThrownError (message : string)
| ThrownOther.

Inductive Outcome (A : Type) : Type :=
| Returned (a : A)
| Threw (e : Thrown).
Arguments Returned {A} a.
Arguments Threw {A} e.

(* ===================================================================== *)
(** ** The serializer: [JSON.stringify(value, null, 2)] *)
(* ===================================================================== *)

Module JsJSON.
Import JsString.

(** The decimal digits of an integer, as the host prints an integer
    below 10^21 in absolute value. *)
Definition ofZ (n : Z) : string := NilEmpty.string_of_int (Z.to_int n).

Definition hexDigit (n : nat) : ascii :=
  if (n <? 10)%nat then ascii_of_nat (48 + n) else ascii_of_nat (87 + n).

Definition backslash : ascii := ascii_of_nat 92.

(** The escape of one character inside a string literal. *)
Definition escapeChar (c : ascii) : string :=
  let n := nat_of_ascii c in
  if (n =? 34)%nat then String backslash dquote
  else if (n =? 92)%nat then String backslash (String backslash "")
  else if (n =? 8)%nat then String backslash "b"
  else if (n =? 9)%nat then String backslash "t"
  else if (n =? 10)%nat then String backslash "n"
  else if (n =? 12)%nat then String backslash "f"
  else if (n =? 13)%nat then String backslash "r"
  else if (n <? 32)%nat then
    String backslash ("u00" ++ String (hexDigit (n / 16)) (String (hexDigit (n mod 16)) ""))
  else String c "".

Fixpoint escape (s : string) : string :=
  match s with
  | EmptyString => EmptyString
  | String c r => escapeChar c ++ escape r
  end.

Definition quote (s : string) : string := dquote ++ escape s ++ dquote.

Definition lineBreak : string := String newline "".

(** The text of [v] when its first line starts at indentation [indent]. *)
Fixpoint stringifyAt (indent : string) (v : JsonValue) : string :=
  match v with
  | JNull => "null"
  | JBool true => "true"
  | JBool false => "false"
  | JNumber n => ofZ n
  | JString s => quote s
  | JArray [] => "[]"
  | JArray items =>
      let inner := indent ++ "  " in
      "[" ++ lineBreak
          ++ join ("," ++ lineBreak) (map (fun x => inner ++ stringifyAt inner x) items)
          ++ lineBreak ++ indent ++ "]"
  | JObject [] => "{}"
  | JObject members =>
      let inner := indent ++ "  " in
      "{" ++ lineBreak
          ++ join ("," ++ lineBreak)
               (map (fun kv : string * JsonValue =>
                       let '(key, value) := kv in
                       inner ++ quote key ++ ": " ++ stringifyAt inner value)
                    members)
          ++ lineBreak ++ indent ++ "}"
  end.

Definition stringify (v : JsonValue) : string := stringifyAt "" v.

(** A deserializer for examples: it reads the scalar documents [null],
    [true], [false] and the unsigned integers, and throws on any other
    text. *)
Definition parseScalar (text : string) : Outcome JsonValue :=
  let t := trim text in
  if String.eqb t "null" then Returned JNull
  else if String.eqb t "true" then Returned (JBool true)
  else if String.eqb t "false" then Returned (JBool false)
  else if negb (isEmpty t) && allChars isDigit t
          && (String.eqb t "0" || negb (startsWith t "0"))
  then Returned (JNumber (digitsValue t))
  else Threw (ThrownError "Unexpected token").

End JsJSON.

(* ===================================================================== *)
(** ** utils/jsonUtils.ts *)
(* ===================================================================== *)

Module JsonUtils.

Definition inferType (value : JsonValue) : PropertyType :=
  match value with
  | JNull => TNull
  | JArray _ => TArray
  | JObject _ => TObject
  | JString _ => TString
  | JNumber _ => TNumber
  | JBool _ => TBoolean
  end.

(** [inferObjectSchema(value).properties] for an object [value]; the
    recursion descends into nested objects and into the first element of
    an array. *)
Fixpoint inferProperties (obj : JsonValue) : list PropertySchema :=
  match obj with
  | JObject members =>
      map (fun kv : string * JsonValue =>
             let '(key, value) := kv in
             let type := inferType value in
             {| ps_name := key;
                ps_type := type;
                ps_required := true;
                ps_arrayItemType :=
                  match value with
                  | JArray (first :: _) => Some (inferType first)
                  | _ => None
                  end;
                ps_objectSchema :=
                  match value with
                  | JArray (first :: _) =>
                      match first with
                      | JObject _ => Some (inferProperties first)
                      | _ => None
                      end
                  | JObject _ => Some (inferProperties value)
                  | _ => None
                  end |})
          members
  | _ => []
  end.

Definition inferObjectSchema (obj : JsonObject) : ObjectSchema :=
  {| properties := inferProperties (JObject obj) |}.

Definition validateType (value : JsonValue) (expectedType : PropertyType) : bool :=
  match inferType value, expectedType with
  | TString, TString | TNumber, TNumber | TBoolean, TBoolean
  | TNull, TNull | TArray, TArray | TObject, TObject => true
  | _, _ => false
  end.

Definition getDefaultValue (type : PropertyType) : JsonValue :=
  match type with
  | TString => JString ""
  | TNumber => JNumber 0
  | TBoolean => JBool false
  | TNull => JNull
  | TArray => JArray []
  | TObject => JObject []
  end.

(** Creates a default object based on a schema. The values assigned are
    primitives, [null] or the fresh literals [[]] and [{}]. *)
Definition createDefaultObject (schema : ObjectSchema) : JsonObject :=
  JsObject.own
    (fold_left
       (fun (obj : JsObject.Assigned) (prop : PropertySchema) =>
          JsObject.assign (ps_name prop) (getDefaultValue (ps_type prop)) true obj)
       (properties schema) JsObject.emptyObject).

(** Pretty prints JSON with indentation *)
Definition formatJson (value : JsonValue) : string := JsJSON.stringify value.

(** The name and type tag of every property of a schema. *)
Definition typeTags (schema : ObjectSchema) : list (string * PropertyType) :=
  map (fun p => (ps_name p, ps_type p)) (properties schema).

(** A schema with one property of each type. *)
Definition exampleSchema : ObjectSchema :=
  {| properties :=
       [ mkPropertySchema "title" TString true None None;
         mkPropertySchema "7" TNumber true None None;
         mkPropertySchema "tags" TArray true (Some TString) None;
         mkPropertySchema "owner" TObject true None (Some []);
         mkPropertySchema "done" TBoolean true None None;
         mkPropertySchema "note" TNull true None None ] |}.

(** The value assigned for [prop] in a skeleton with nesting: an
    object-typed property with a nested schema gets the skeleton of that
    schema, an array-typed one the empty array, every other one its
    default. With the value comes whether its prototype chain leads to
    [Object.prototype], which a nested skeleton can have lost. *)
Fixpoint nestedDefaultValue (prop : PropertySchema) : JsonValue * bool :=
  match prop with
  | mkPropertySchema _ TObject _ _ (Some objectSchema) =>
      let obj :=
        fold_left
          (fun (obj : JsObject.Assigned) (p : PropertySchema) =>
             JsObject.assign (ps_name p) (fst (nestedDefaultValue p))
                             (snd (nestedDefaultValue p)) obj)
          objectSchema JsObject.emptyObject in
      (JObject (JsObject.own obj), JsObject.inheritsProto obj)
  | mkPropertySchema _ TArray _ _ _ => (JArray [], true)
  | mkPropertySchema _ type _ _ _ => (getDefaultValue type, true)
  end.

(** Creates a default object with proper nested structure from schema *)
Definition createDefaultObjectWithNesting (schema : ObjectSchema) : JsonObject :=
  JsObject.own
    (fold_left
       (fun (obj : JsObject.Assigned) (prop : PropertySchema) =>
          JsObject.assign (ps_name prop) (fst (nestedDefaultValue prop))
                          (snd (nestedDefaultValue prop)) obj)
       (properties schema) JsObject.emptyObject).

(** [String(value)] for a value whose [typeof] is string or number. A
    number stands for an integer that the host prints digit by digit,
    which it does below 10^21 in absolute value; from there on the host
    prints an exponent and this text is not the host's. *)
Definition primitiveText (value : JsonValue) : option string :=
  match value with
  | JString s => Some s
  | JNumber n => Some (JsJSON.ofZ n)
  | _ => None
  end.

(** Common identifier property names in priority order *)
Definition identifierKeys : list string :=
  [ "id"; "ID"; "Id";
    "name"; "Name"; "NAME";
    "SKU"; "sku";
    "title"; "Title";
    "label"; "Label";
    "code"; "Code";
    "key"; "Key";
    "sku"; "SKU";
    "productId"; "ProductId"; "product_id";
    "userId"; "UserId"; "user_id";
    "itemId"; "ItemId"; "item_id";
    "identifier"; "Identifier" ].

(** The list of [getIdentifierKeyName]. *)
Definition identifierKeyNames : list string :=
  [ "id"; "ID"; "Id";
    "name"; "Name"; "NAME";
    "SKU"; "sku";
    "title"; "Title";
    "label"; "Label";
    "code"; "Code";
    "key"; "Key";
    "productId"; "ProductId"; "product_id";
    "userId"; "UserId"; "user_id";
    "itemId"; "ItemId"; "item_id";
    "identifier"; "Identifier" ].

(** The first of [keys] that [obj] has with a string or a number under it,
    and the text of that value. *)
Fixpoint firstIdentifier (keys : list string) (obj : JsonObject)
  : option (string * string) :=
  match keys with
  | [] => None
  | key :: rest =>
      match JsObject.get key obj with
      | Some value =>
          match primitiveText value with
          | Some text => Some (key, text)
          | None => firstIdentifier rest obj
          end
      | None => firstIdentifier rest obj
      end
  end.

(** The first property of [obj] with a string or a number under it. *)
Fixpoint firstPrimitive (entries : list (string * JsonValue)) : option (string * string) :=
  match entries with
  | [] => None
  | (key, value) :: rest =>
      match primitiveText value with
      | Some text => Some (key, text)
      | None => firstPrimitive rest
      end
  end.

(** Extracts an identifying label from an object by looking for common
    identifier properties *)
Definition getObjectIdentifier (obj : JsonObject) : option string :=
  match firstIdentifier identifierKeys obj with
  | Some (_, text) => Some text
  | None => option_map snd (firstPrimitive (JsObject.entries obj))
  end.

(** Gets the property name that was used as identifier *)
Definition getIdentifierKeyName (obj : JsonObject) : option string :=
  match firstIdentifier identifierKeyNames obj with
  | Some (key, _) => Some key
  | None => option_map fst (firstPrimitive (JsObject.entries obj))
  end.

(** A string that counts as true in a condition: present and not empty. *)
Definition truthy (s : option string) : bool :=
  match s with
  | Some EmptyString | None => false
  | Some _ => true
  end.

Definition textOf (s : option string) : string :=
  match s with Some t => t | None => EmptyString end.

(** Creates a descriptive label for copying an object, with fallback to
    parent context *)
Definition getObjectCopyLabel (obj : JsonObject) (index : nat) (isArrayItem : bool)
           (parentObject : option JsonObject) : string :=
  let baseLabel :=
    (if isArrayItem then "Item " else "Object ") ++ JsString.ofNat (index + 1) in
  let identifier := getObjectIdentifier obj in
  if truthy identifier then
    "Copy from " ++ baseLabel ++ " (" ++ textOf identifier ++ ")"
  else
    match parentObject with
    | Some parent =>
        let parentIdentifier := getObjectIdentifier parent in
        let parentKeyName := getIdentifierKeyName parent in
        if truthy parentIdentifier && truthy parentKeyName then
          "Copy from " ++ baseLabel ++ " (in " ++ textOf parentKeyName ++ ": "
                       ++ textOf parentIdentifier ++ ")"
        else "Copy from " ++ baseLabel
    | None => "Copy from " ++ baseLabel
    end.




(** A value all of whose objects list their keys in enumeration order, as
    the values that the parser builds do. *)
Fixpoint wellEnumerated (v : JsonValue) : bool :=
  match v with
  | JArray items => forallb wellEnumerated items
  | JObject members =>
      JsObject.enumerated (map fst members)
      && forallb (fun kv => wellEnumerated (snd kv)) members
  | _ => true
  end.

(** A value none of whose objects has a property named [__proto__], as
    far as a skeleton with nesting goes: into objects, not into arrays. *)
Fixpoint protoFree (v : JsonValue) : bool :=
  match v with
  | JObject members =>
      forallb (fun kv => negb (String.eqb (fst kv) "__proto__") && protoFree (snd kv))
              members
  | _ => true
  end.

(** The skeleton of a value: objects keep their keys, arrays are emptied
    and every other value is replaced by the default of its type. *)
Fixpoint skeletonOf (v : JsonValue) : JsonValue :=
  match v with
  | JObject members => JObject (map (fun kv => (fst kv, skeletonOf (snd kv))) members)
  | JArray _ => JArray []
  | other => getDefaultValue (inferType other)
  end.

(** A product record with a nested object and an array of objects. *)
Definition exampleProduct : JsonObject :=
  [ ("0", JNumber 7);
    ("10", JBool true);
    ("sku", JString "A-1");
    ("price", JNumber 150);
    ("maker", JObject [("name", JString "ACME"); ("address", JObject [("city", JString "Oslo")])]);
    ("tags", JArray [JString "new"]);
    ("parts", JArray [JObject [("id", JNumber 1)]]);
    ("note", JNull) ].

(** A schema that names one property twice. *)
Definition exampleRepeated : ObjectSchema :=
  {| properties :=
       [ mkPropertySchema "a" TString true None None;
         mkPropertySchema "a" TNumber true None None ] |}.

(** What the parser makes of [{"__proto__": 1, "a": "x"}]: an object with
    an own property named [__proto__]. *)
Definition exampleProto : JsonObject :=
  [ ("__proto__", JNumber 1); ("a", JString "x") ].

(** A record whose identifier is found by the fallback: none of the common
    names is present. *)
Definition exampleUnnamed : JsonObject :=
  [ ("active", JBool true); ("colour", JString "red"); ("weight", JNumber 3) ].

Record ParseResult : Type := mkParseResult {
  success : bool;
  data : option JsonValue;
  error : option string
}.

Section ParseJson.
(** [JSON.parse], the deserializer the surrounding system provides. *)
Variable JSON_parse : string -> Outcome JsonValue.

Definition parseJson (jsonString : string) : ParseResult :=
  match JSON_parse jsonString with
  | Returned d => {| success := true; data := Some d; error := None |}
  | Threw (ThrownError message) =>
      {| success := false; data := None; error := Some message |}
  | Threw ThrownOther =>
      {| success := false; data := None; error := Some "Invalid JSON" |}
  end.
End ParseJson.

End JsonUtils.

(* ===================================================================== *)
(** ** App.tsx: the version history *)
(* ===================================================================== *)

Module App.
Import JsonUtils.

(** Maximum number of versions to keep in history *)
Definition MAX_HISTORY_LENGTH : nat := 50.

Record AppState : Type := mkAppState {
  document : DocumentState;
  versionHistory : list VersionHistoryItem;
  currentVersionIndex : Z
}.

(** The state the component starts in. *)
Definition initialState : AppState :=
  {| document := {| raw := ""; parsed := None; isValid := false; doc_error := None |};
     versionHistory := [];
     currentVersionIndex := -1 |}.

(** [a[i]]: [None] stands for [undefined]. *)
Definition at_index {A : Type} (a : list A) (i : Z) : option A :=
  if (i <? 0)%Z then None else nth_error a (Z.to_nat i).

Definition orElse (o : option string) (d : string) : string :=
  match o with
  | Some EmptyString | None => d
  | Some s => s
  end.

Section Handlers.
Variable JSON_parse : string -> Outcome JsonValue.
Variable JSON_stringify : JsonValue -> string.

(** [now] is the reading of the clock at the call. *)
Definition handleFileLoad (content : string) (now : Z) (st : AppState) : AppState :=
  let result := parseJson JSON_parse content in
  match success result, data result with
  | true, Some d =>
      {| document := {| raw := content; parsed := Some d; isValid := true; doc_error := None |};
         versionHistory := [ {| content := content; timestamp := now; label := "File loaded" |} ];
         currentVersionIndex := 0 |}
  | _, _ =>
      {| document := {| raw := content; parsed := None; isValid := false;
                        doc_error := Some (orElse (error result) "Failed to parse JSON") |};
         versionHistory := versionHistory st;
         currentVersionIndex := currentVersionIndex st |}
  end.

Definition handleDocumentUpdate (newData : JsonValue) (now : Z) (st : AppState) : AppState :=
  let newContent := JSON_stringify newData in
  let newVersion := {| content := newContent; timestamp := now; label := "Edit" |} in
  (* If we're not at the latest version, remove future history *)
  let newHistory :=
    if (0 <=? currentVersionIndex st)%Z
    then firstn (Z.to_nat (currentVersionIndex st + 1)) (versionHistory st)
    else [] in
  let updatedHistory := (newHistory ++ [newVersion])%list in
  (* Keep only the most recent MAX_HISTORY_LENGTH versions *)
  let trimmedHistory :=
    if (MAX_HISTORY_LENGTH <? length updatedHistory)%nat
    then skipn (length updatedHistory - MAX_HISTORY_LENGTH) updatedHistory
    else updatedHistory in
  {| document := {| raw := newContent; parsed := Some newData; isValid := true; doc_error := None |};
     versionHistory := trimmedHistory;
     currentVersionIndex := (Z.of_nat (length trimmedHistory) - 1)%Z |}.

(** Moving the cursor to [newIndex]: the snapshot there is parsed and,
    when that succeeds, becomes the document. Reading [content] of an
    absent entry throws. *)
Definition moveTo (newIndex : Z) (st : AppState) : Outcome AppState :=
  match at_index (versionHistory st) newIndex with
  | None => Threw (ThrownError "Cannot read properties of undefined")
  | Some version =>
      let result := parseJson JSON_parse (content version) in
      match success result, data result with
      | true, Some d =>
          Returned
            {| document := {| raw := content version; parsed := Some d;
                              isValid := true; doc_error := None |};
               versionHistory := versionHistory st;
               currentVersionIndex := newIndex |}
      | _, _ => Returned st
      end
  end.

Definition handleUndo (st : AppState) : Outcome AppState :=
  if (0 <? currentVersionIndex st)%Z
  then moveTo (currentVersionIndex st - 1)%Z st
  else Returned st.

Definition handleRedo (st : AppState) : Outcome AppState :=
  if (currentVersionIndex st <? Z.of_nat (length (versionHistory st)) - 1)%Z
  then moveTo (currentVersionIndex st + 1)%Z st
  else Returned st.

(** A history as the handlers leave it: the cursor is on an entry and
    every snapshot is the text of a document. *)
Definition history_ok (st : AppState) : Prop :=
  (0 <= currentVersionIndex st < Z.of_nat (length (versionHistory st)))%Z /\
  Forall (fun v => exists d, JSON_parse (content v) = Returned d) (versionHistory st).

(** The document put on display when [version], whose text parses to
    [d], becomes the current one. *)
Definition displayed (version : VersionHistoryItem) (d : JsonValue) : DocumentState :=
  {| raw := content version; parsed := Some d; isValid := true; doc_error := None |}.
End Handlers.

(** The state after the cursor moved to [version] at [newIndex]. *)
Definition movedTo (st : AppState) (newIndex : Z)
           (version : VersionHistoryItem) (d : JsonValue) : AppState :=
  {| document := displayed version d;
     versionHistory := versionHistory st;
     currentVersionIndex := newIndex |}.

(** The [n] most recent entries of a history. *)
Definition mostRecent {A : Type} (n : nat) (l : list A) : list A :=
  skipn (length l - n) l.

(** The cursor is on the last entry (on none when there is no entry). *)
Definition cursorAtEnd (st : AppState) : Prop :=
  currentVersionIndex st = (Z.of_nat (length (versionHistory st)) - 1)%Z.

(** Appending a sequence of edits, oldest first. *)
Definition appendAll (JSON_stringify : JsonValue -> string)
           (edits : list (JsonValue * Z)) (st : AppState) : AppState :=
  fold_left (fun s e => handleDocumentUpdate JSON_stringify (fst e) (snd e) s) edits st.

Definition snapshotOf (JSON_stringify : JsonValue -> string)
           (e : JsonValue * Z) : VersionHistoryItem :=
  {| content := JSON_stringify (fst e); timestamp := snd e; label := "Edit" |}.

(** A session as it is read back from the browser's storage: the history
    and the cursor may be missing. *)
Record SavedSession : Type := mkSavedSession {
  saved_document : DocumentState;
  saved_versionHistory : option (list VersionHistoryItem);
  saved_currentVersionIndex : option Z
}.

Definition handleRestoreSession (savedSession : option SavedSession) (st : AppState)
  : AppState :=
  match savedSession with
  | None => st
  | Some saved =>
      (* Restore history but enforce limit *)
      let history := match saved_versionHistory saved with
                     | Some h => h
                     | None => []
                     end in
      let trimmedHistory :=
        if (MAX_HISTORY_LENGTH <? length history)%nat
        then skipn (length history - MAX_HISTORY_LENGTH) history
        else history in
      (* Adjust index if history was trimmed *)
      let originalIndex := match saved_currentVersionIndex saved with
                           | Some i => i
                           | None => (-1)%Z
                           end in
      let adjustedIndex :=
        if (MAX_HISTORY_LENGTH <? length history)%nat
        then Z.max 0 (originalIndex
                      - (Z.of_nat (length history) - Z.of_nat MAX_HISTORY_LENGTH))
        else originalIndex in
      {| document := saved_document saved;
         versionHistory := trimmedHistory;
         currentVersionIndex := adjustedIndex |}
  end.

Definition handleReset (st : AppState) : AppState :=
  {| document := {| raw := ""; parsed := None; isValid := false; doc_error := None |};
     versionHistory := versionHistory st;
     currentVersionIndex := currentVersionIndex st |}.

(** The counters of [getDocumentStats]. *)
Fixpoint countNodes (obj : JsonValue) : nat :=
  match obj with
  | JArray items => 1 + list_sum (map countNodes items)
  | JObject members => 1 + list_sum (map (fun kv => countNodes (snd kv)) members)
  | _ => 1
  end.

Fixpoint countProperties (obj : JsonValue) : nat :=
  match obj with
  | JArray items => list_sum (map countProperties items)
  | JObject members =>
      length members + list_sum (map (fun kv => countProperties (snd kv)) members)
  | _ => 0
  end.

Fixpoint countArrays (obj : JsonValue) : nat :=
  match obj with
  | JArray items => 1 + list_sum (map countArrays items)
  | JObject members => list_sum (map (fun kv => countArrays (snd kv)) members)
  | _ => 0
  end.

Fixpoint countObjects (obj : JsonValue) : nat :=
  match obj with
  | JArray items => list_sum (map countObjects items)
  | JObject members => 1 + list_sum (map (fun kv => countObjects (snd kv)) members)
  | _ => 0
  end.

(** Sixty edits: the documents 0, 1, ..., 59, made at the times 1000,
    1001, ... *)
Definition exampleEdits : list (JsonValue * Z) :=
  map (fun k => (JNumber (Z.of_nat k), (1000 + Z.of_nat k)%Z)) (seq 0 60).

(** A history of three snapshots with the cursor on the middle one. *)
Definition exampleState : AppState :=
  {| document := {| raw := "1"; parsed := Some (JNumber 1); isValid := true;
                    doc_error := None |};
     versionHistory :=
       [ {| content := "0"; timestamp := 1000; label := "File loaded" |};
         {| content := "1"; timestamp := 1001; label := "Edit" |};
         {| content := "2"; timestamp := 1002; label := "Edit" |} ];
     currentVersionIndex := 1 |}.

(** A saved session of sixty snapshots with the cursor on the fifty-fifth. *)
Definition exampleSession : SavedSession :=
  {| saved_document := {| raw := "54"; parsed := Some (JNumber 54); isValid := true;
                          doc_error := None |};
     saved_versionHistory :=
       Some (map (fun k => {| content := JsString.ofNat k;
                              timestamp := (1000 + Z.of_nat k)%Z;
                              label := "Edit" |}) (seq 0 60));
     saved_currentVersionIndex := Some 54%Z |}.

End App.

(* ===================================================================== *)
(** ** DocumentViewer: from a path to a range of lines *)
(* ===================================================================== *)

Module DocumentViewer.
Import JsString.

Inductive SegmentType : Type := index | property.

Record PathSegment : Type := mkSegment {
  seg_type : SegmentType;
  seg_value : string
}.

Definition isOpenBracket (c : ascii) : bool := Ascii.eqb c "["%char.
Definition isBracket (c : ascii) : bool :=
  Ascii.eqb c "["%char || Ascii.eqb c "]"%char.
(** The class [^.\[\]] *)
Definition isNameChar (c : ascii) : bool :=
  negb (Ascii.eqb c "."%char || isBracket c).

(** One attempt of the pattern [\[(\d+)\]|([^.\[\]]+)] at the head of
    [s]: the text it matches and the text after it. *)
Definition matchSegmentAt (s : string) : option (string * string) :=
  match s with
  | EmptyString => None
  | String c r =>
      if isOpenBracket c then
        let '(digits, after) := span isDigit r in
        match after with
        | String "]"%char rest =>
            if isEmpty digits then None
            else Some (String c (digits ++ "]"), rest)
        | _ => None
        end
      else
        let '(name, rest) := span isNameChar s in
        if isEmpty name then None else Some (name, rest)
  end.

(** The two shapes of a match of the pattern. *)
Definition indexMatch (m : string) : Prop :=
  exists digits,
    m = String "["%char (digits ++ "]") /\
    isEmpty digits = false /\ allChars isDigit digits = true.

Definition nameMatch (m : string) : Prop :=
  isEmpty m = false /\ allChars isNameChar m = true.

(** All matches from left to right, as the g flag collects them. Each
    round consumes at least one character, so [length s] rounds are
    enough. *)
Fixpoint matchSegments (rounds : nat) (s : string) : list string :=
  match rounds with
  | O => []
  | S k =>
      match s with
      | EmptyString => []
      | String _ r =>
          match matchSegmentAt s with
          | Some (m, rest) => m :: matchSegments k rest
          | None => matchSegments k r
          end
      end
  end.

Fixpoint removeChars (p : ascii -> bool) (s : string) : string :=
  match s with
  | EmptyString => EmptyString
  | String c r => if p c then removeChars p r else String c (removeChars p r)
  end.

Definition toSegment (m : string) : PathSegment :=
  if startsWith m "["
  then {| seg_type := index; seg_value := removeChars isBracket m |}
  else {| seg_type := property; seg_value := m |}.

(** The segments of [highlightPath]. *)
Definition pathSegmentsOf (highlightPath : string) : list PathSegment :=
  map toSegment (matchSegments (String.length highlightPath) highlightPath).

(** What a segment of either kind looks like: digits for an index, a
    run free of dots and brackets for a property; never empty. *)
Definition segmentShape (seg : PathSegment) : bool :=
  match seg_type seg with
  | index => negb (isEmpty (seg_value seg)) && allChars isDigit (seg_value seg)
  | property => negb (isEmpty (seg_value seg)) && allChars isNameChar (seg_value seg)
  end.

(** [rest] begins with a number and a closing bracket. *)
Definition beginsIndex (rest : string) : bool :=
  let '(digits, after) := span isDigit rest in
  negb (isEmpty digits) && startsWith after "]".

(** The text that may follow a name: nothing, or a dot or a bracket. *)
Definition endsName (rest : string) : Prop :=
  match rest with
  | EmptyString => True
  | String c _ => isNameChar c = false
  end.

(** The variables of the scan. *)
Record Scan : Type := mkScan {
  startLine : Z;
  endLine : Z;
  currentSegmentIndex : nat;
  arrayIndexCounter : Z;
  objectDepth : Z;
  targetDepth : Z;
  trackingArrayDepth : Z;
  inTargetStructure : bool
}.

Definition scanStart : Scan :=
  {| startLine := -1; endLine := -1; currentSegmentIndex := 0;
     arrayIndexCounter := 0; objectDepth := 0; targetDepth := 0;
     trackingArrayDepth := -1; inTargetStructure := false |}.

Definition opens (trimmed : string) : bool :=
  endsWith trimmed "{" || endsWith trimmed "[".

Definition closes (trimmed : string) : bool :=
  startsWith trimmed "}" || startsWith trimmed "]".

Definition isType (t : SegmentType) (seg : option PathSegment) : bool :=
  match seg, t with
  | Some {| seg_type := index |}, index => true
  | Some {| seg_type := property |}, property => true
  | _, _ => false
  end.

Section Line.
Variable pathSegments : list PathSegment.
(** [i] is the 0-based index of [line]. *)
Variable i : nat.
Variable line : string.

Let trimmed : string := trim line.
Let lineNumber : Z := (Z.of_nat i + 1)%Z.
Let current (st : Scan) : option PathSegment :=
  nth_error pathSegments (currentSegmentIndex st).

(** Opening bracket/brace *)
Definition onOpening (st : Scan) : Scan :=
  if opens trimmed then
    let isArray := endsWith trimmed "[" in
    if isType index (current st) && isArray && (trackingArrayDepth st =? -1)%Z then
      {| startLine := startLine st; endLine := endLine st;
         currentSegmentIndex := currentSegmentIndex st;
         arrayIndexCounter := 0;
         objectDepth := (objectDepth st + 1)%Z;
         targetDepth := targetDepth st;
         trackingArrayDepth := objectDepth st;
         inTargetStructure := inTargetStructure st |}
    else if isType index (current st)
            && negb (trackingArrayDepth st =? -1)%Z
            && (objectDepth st =? trackingArrayDepth st + 1)%Z
            && String.eqb trimmed "{" then
      match current st with
      | Some seg =>
          if (arrayIndexCounter st =? digitsValue (seg_value seg))%Z then
            let last := (S (currentSegmentIndex st) =? length pathSegments)%nat in
            {| startLine := if last then lineNumber else startLine st;
               endLine := endLine st;
               currentSegmentIndex := S (currentSegmentIndex st);
               arrayIndexCounter := arrayIndexCounter st;
               objectDepth := (objectDepth st + 1)%Z;
               targetDepth := if last then (objectDepth st + 1)%Z else targetDepth st;
               trackingArrayDepth := -1;
               inTargetStructure := if last then true else inTargetStructure st |}
          else
            {| startLine := startLine st; endLine := endLine st;
               currentSegmentIndex := currentSegmentIndex st;
               arrayIndexCounter := (arrayIndexCounter st + 1)%Z;
               objectDepth := (objectDepth st + 1)%Z;
               targetDepth := targetDepth st;
               trackingArrayDepth := trackingArrayDepth st;
               inTargetStructure := inTargetStructure st |}
      | None => st
      end
    else
      {| startLine := startLine st; endLine := endLine st;
         currentSegmentIndex := currentSegmentIndex st;
         arrayIndexCounter := arrayIndexCounter st;
         objectDepth := (objectDepth st + 1)%Z;
         targetDepth := targetDepth st;
         trackingArrayDepth := trackingArrayDepth st;
         inTargetStructure := inTargetStructure st |}
  else st.

(** Check for property match. The second component tells whether the
    loop is left. *)
Definition onProperty (st : Scan) : Scan * bool :=
  match current st with
  | Some {| seg_type := property; seg_value := name |} =>
      if includes line (dquote ++ name ++ dquote) && includes trimmed ":" then
        if opens trimmed then
          (* Multi-line value - mark start and continue looking for end *)
          ({| startLine := lineNumber; endLine := endLine st;
              currentSegmentIndex := S (currentSegmentIndex st);
              arrayIndexCounter := arrayIndexCounter st;
              objectDepth := (objectDepth st + 1)%Z;
              targetDepth := (objectDepth st + 1)%Z;
              trackingArrayDepth := trackingArrayDepth st;
              inTargetStructure := true |}, false)
        else if includes trimmed ":" then
          (* Simple value - just this line *)
          if (S (currentSegmentIndex st) =? length pathSegments)%nat then
            ({| startLine := lineNumber; endLine := lineNumber;
                currentSegmentIndex := S (currentSegmentIndex st);
                arrayIndexCounter := arrayIndexCounter st;
                objectDepth := objectDepth st;
                targetDepth := targetDepth st;
                trackingArrayDepth := trackingArrayDepth st;
                inTargetStructure := inTargetStructure st |}, true)
          else
            ({| startLine := startLine st; endLine := endLine st;
                currentSegmentIndex := S (currentSegmentIndex st);
                arrayIndexCounter := arrayIndexCounter st;
                objectDepth := objectDepth st;
                targetDepth := targetDepth st;
                trackingArrayDepth := trackingArrayDepth st;
                inTargetStructure := inTargetStructure st |}, false)
        else (st, false)
      else (st, false)
  | _ => (st, false)
  end.

(** Closing bracket/brace *)
Definition onClosing (st : Scan) : Scan * bool :=
  if closes trimmed then
    if inTargetStructure st && (objectDepth st =? targetDepth st)%Z then
      ({| startLine := startLine st; endLine := lineNumber;
          currentSegmentIndex := currentSegmentIndex st;
          arrayIndexCounter := arrayIndexCounter st;
          objectDepth := objectDepth st;
          targetDepth := targetDepth st;
          trackingArrayDepth := trackingArrayDepth st;
          inTargetStructure := inTargetStructure st |}, true)
    else
      let depth := (objectDepth st - 1)%Z in
      ({| startLine := startLine st; endLine := endLine st;
          currentSegmentIndex := currentSegmentIndex st;
          arrayIndexCounter := arrayIndexCounter st;
          objectDepth := depth;
          targetDepth := targetDepth st;
          trackingArrayDepth :=
            if negb (trackingArrayDepth st =? -1)%Z && (depth <=? trackingArrayDepth st)%Z
            then -1 else trackingArrayDepth st;
          inTargetStructure := inTargetStructure st |}, false)
  else (st, false).

(** The body of the loop for one line. *)
Definition scanLine (st : Scan) : Scan * bool :=
  let '(st1, leave) := onProperty (onOpening st) in
  if leave then (st1, true) else onClosing st1.
End Line.

Fixpoint scanLines (pathSegments : list PathSegment) (i : nat)
         (lines : list string) (st : Scan) : Scan :=
  match lines with
  | [] => st
  | line :: rest =>
      let '(st', leave) := scanLine pathSegments i line st in
      if leave then st' else scanLines pathSegments (S i) rest st'
  end.

(** While nothing is decided: a start, if there is one, lies among the
    first [n] lines, there is no end yet, and inside the target a start
    is known. *)
Definition scanning (n : Z) (st : Scan) : Prop :=
  (startLine st = (-1)%Z \/ (1 <= startLine st <= n)%Z) /\
  endLine st = (-1)%Z /\
  (inTargetStructure st = true -> startLine st <> (-1)%Z).

(** When the loop is left: start and end are lines among the first [n],
    in this order. *)
Definition decided (n : Z) (st : Scan) : Prop :=
  (1 <= startLine st <= endLine st)%Z /\ (endLine st <= n)%Z.


(** The lines decorated for [highlightPath] in the text [rawJson], first
    and last, 1-based and inclusive; [None] when nothing is decorated. *)
Definition highlightRange (rawJson : string) (highlightPath : option string)
  : option (Z * Z) :=
  match highlightPath with
  | None | Some EmptyString => None
  | Some path =>
      let st := scanLines (pathSegmentsOf path) 0 (splitLines rawJson) scanStart in
      (* If we found a start but no end, highlight just the start line *)
      let endLine' :=
        if negb (startLine st =? -1)%Z && (endLine st =? -1)%Z
        then startLine st else endLine st in
      if negb (startLine st =? -1)%Z && negb (endLine' =? -1)%Z
      then Some (startLine st, endLine')
      else None
  end.

End DocumentViewer.

(* ===================================================================== *)
(** ** QueryTool: building and running queries *)
(* ===================================================================== *)

Module QueryTool.
Import JsString.

Record Condition : Type := mkCondition {
  id : string;
  property : string;
  operator : string;
  value : string
}.

Inductive LogicOperator : Type := AND | OR.

Definition quoted (value : string) : string := dquote ++ value ++ dquote.

Definition isKeywordLiteral (value : string) : bool :=
  String.eqb value "true" || String.eqb value "false" || String.eqb value "null".

(** The operators of the builder that compare with a literal. *)
Definition comparisonOperators : list string :=
  ["=="; "!="; ">"; ">="; "<"; "<="].

(** [value] is read as a number by the host's conversion. *)
Definition parsesAsNumber (value : string) : bool :=
  negb (JsNumber.isNaN_Number value).

(** The quoting rule in the words of the design document: a literal
    [parses as a number] when it is a numeral, that is an optional sign,
    digits with an optional fraction, and an optional exponent. *)
Definition isNumeral (value : string) : bool :=
  let unsigned :=
    if startsWith value "-" || startsWith value "+" then dropFirst value else value in
  let '(int, r) := span isDigit unsigned in
  negb (isEmpty int) &&
  (if startsWith r "."
   then let '(frac, r') := span isDigit (dropFirst r) in
        negb (isEmpty frac) && JsNumber.isExponentPartOpt r'
   else JsNumber.isExponentPartOpt r).

(** The text of the literal in a condition: quoted or as it stands. *)
Definition formattedValue (operator value : string) : string :=
  if String.eqb operator "=~" || String.eqb operator "contains" then quoted value
  else if parsesAsNumber value then value
  else if isKeywordLiteral value then value
  else quoted value.

Definition filterExpressionOf (c : Condition) : string :=
  if String.eqb (operator c) "contains"
  then "@." ++ property c ++ " =~ /" ++ value c ++ "/i"
  else "@." ++ property c ++ " " ++ operator c ++ " "
            ++ formattedValue (operator c) (value c).

(** Add a new condition; [now] is the text of the clock's reading. *)
Definition addCondition (now : string) (availableProperties : list string)
           (conditions : list Condition) : list Condition :=
  (conditions ++
   [ {| id := now;
        property := match availableProperties with
                    | first :: _ => first
                    | [] => ""
                    end;
        operator := "==";
        value := "" |} ])%list.

(** Generate JSONPath from visual conditions *)
Definition generateJSONPathFromConditions
           (conditions : list Condition) (logicOperator : LogicOperator) : string :=
  match conditions with
  | [] => "$[*]"
  | _ =>
      let joinOperator := match logicOperator with AND => " && " | OR => " || " end in
      "$[?(" ++ join joinOperator (map filterExpressionOf conditions) ++ ")]"
  end.

(** One attempt of the pattern [\['([^']+)'\]] at the head of [s]: the
    captured text and the text after the match. *)
Definition matchQuotedAt (s : string) : option (string * string) :=
  match s with
  | String "["%char (String q r) =>
      if Ascii.eqb q squote then
        let '(prop, after) := span (fun c => negb (Ascii.eqb c squote)) r in
        match after with
        | String _ (String "]"%char rest) =>
            if isEmpty prop then None else Some (prop, rest)
        | _ => None
        end
      else None
  | _ => None
  end.

(** What a match is replaced by. *)
Definition replacement (prop : string) : string :=
  if negb (isEmpty prop) && allChars isDigit prop
  then "[" ++ prop ++ "]"
  else "." ++ prop.

(** The replacement of every match, from left to right. Each round
    consumes at least one character, so [length s] rounds are enough. *)
Fixpoint replaceQuoted (rounds : nat) (s : string) : string :=
  match rounds with
  | O => s
  | S k =>
      match s with
      | EmptyString => EmptyString
      | String c r =>
          match matchQuotedAt s with
          | Some (prop, rest) => replacement prop ++ replaceQuoted k rest
          | None => String c (replaceQuoted k r)
          end
      end
  end.

(** The replacement of all matches in [s]. *)
Definition convertBody (s : string) : string := replaceQuoted (String.length s) s.

(** Convert JSONPath format to app's path format *)
Definition convertJsonPathToAppPath (jsonPath : string) : string :=
  (* Remove the leading $ *)
  let path := if startsWith jsonPath "$" then dropFirst jsonPath else jsonPath in
  let path := convertBody path in
  (* Clean up leading dot if path starts with array index *)
  if startsWith path ".[" then dropFirst path else path.

Record ResultItem : Type := mkItem {
  item_value : JsonValue;
  item_path : string
}.

Record QueryResult : Type := mkQueryResult {
  success : bool;
  data : option (list JsonValue);
  error : option string;
  count : option nat;
  items : option (list ResultItem)
}.

(** What is made of the matches that the evaluator returns. *)
Definition successOf (found : list (JsonValue * string)) : QueryResult :=
  {| success := true;
     data := Some (map fst found);
     error := None;
     count := Some (length found);
     items := Some (map (fun r => {| item_value := fst r;
                                     item_path := convertJsonPathToAppPath (snd r) |})
                        found) |}.

Section Execute.
(** The evaluator, called with [resultType: 'all']: for every match its
    value and its path in the evaluator's own notation. *)
Variable JSONPath : string -> JsonValue -> Outcome (list (JsonValue * string)).

(** [query] is the text in the query box, [data] the document. *)
Variable query : string.
Variable json : JsonValue.

Definition failure (message : string) : QueryResult :=
  {| success := false; data := None; error := Some message;
     count := None; items := None |}.

Definition executeQueryWithPath (queryPath : option string) : QueryResult :=
  let queryToExecute :=
    match queryPath with
    | None | Some EmptyString => query
    | Some q => q
    end in
  if isEmpty (trim queryToExecute) then failure "Please enter a JSONPath query"
  else
    match JSONPath queryToExecute json with
    | Returned queryResult =>
        let items := map (fun r => {| item_value := fst r;
                                      item_path := convertJsonPathToAppPath (snd r) |})
                         queryResult in
        {| success := true;
           data := Some (map item_value items);
           error := None;
           count := Some (length items);
           items := Some items |}
    | Threw (ThrownError EmptyString) | Threw ThrownOther =>
        failure "Invalid query syntax"
    | Threw (ThrownError message) => failure message
    end.

(** Execute visual query *)
Definition executeVisualQuery
           (conditions : list Condition) (logicOperator : LogicOperator) : QueryResult :=
  executeQueryWithPath (Some (generateJSONPathFromConditions conditions logicOperator)).
End Execute.

End QueryTool.

(* ===================================================================== *)
(** ** The filter evaluator *)
(* ===================================================================== *)

(** Modelled from the spec: the evaluator of filter expressions is the
    jsonpath-plus package, which is not part of the sources. This module
    describes what it returns on the fragment that the visual builder
    produces for numeric comparisons: expressions [$[?(c1 && c2 || ...)]]
    whose conditions have the shape [@.name op n] with a decimal integer
    literal [n], run on an array of objects. [evaluate] answers [None]
    outside this fragment. *)
Module FilterFragment.
Import JsString.

Inductive Comparison : Type := Eq | Ne | Gt | Ge | Lt | Le.

Record Test : Type := mkTest {
  test_name : string;
  test_op : Comparison;
  test_literal : Z
}.

Definition comparisonOf (token : string) : option Comparison :=
  if String.eqb token "==" then Some Eq
  else if String.eqb token "!=" then Some Ne
  else if String.eqb token ">" then Some Gt
  else if String.eqb token ">=" then Some Ge
  else if String.eqb token "<" then Some Lt
  else if String.eqb token "<=" then Some Le
  else None.

Definition isIdentifierStart (c : ascii) : bool :=
  let n := nat_of_ascii c in
  (((65 <=? n) && (n <=? 90)) || ((97 <=? n) && (n <=? 122))
   || (n =? 95) || (n =? 36))%nat.

Definition isIdentifier (s : string) : bool :=
  match s with
  | EmptyString => false
  | String c r => isIdentifierStart c && allChars (fun d => isIdentifierStart d || isDigit d) r
  end.

(** A decimal integer literal without a superfluous leading zero. *)
Definition isIntegerLiteral (s : string) : bool :=
  match s with
  | EmptyString => false
  | String "0"%char r => isEmpty r
  | _ => allChars isDigit s
  end.

(** Integers that a number of the host language holds exactly. *)
Definition isSafeInteger (n : Z) : bool :=
  ((- (2 ^ 53 - 1) <=? n) && (n <=? 2 ^ 53 - 1))%Z.

Definition testOf (subject op literal : string) : option Test :=
  match subject with
  | String "@"%char (String "."%char name) =>
      match comparisonOf op with
      | Some cmp =>
          if isIdentifier name && isIntegerLiteral literal
             && isSafeInteger (digitsValue literal)
          then Some {| test_name := name; test_op := cmp;
                       test_literal := digitsValue literal |}
          else None
      | None => None
      end
  | _ => None
  end.

(** [s.split(' ')] *)
Fixpoint words (s : string) : list string :=
  match s with
  | EmptyString => [EmptyString]
  | String c r =>
      if Ascii.eqb c " "%char then EmptyString :: words r
      else match words r with
           | h :: t => String c h :: t
           | [] => [String c EmptyString]
           end
  end.

(** The predicate as a disjunction of conjunctions: [&&] binds tighter
    than [||]. *)
Fixpoint predicateOf (tokens : list string) : option (list (list Test)) :=
  match tokens with
  | subject :: op :: literal :: more =>
      match testOf subject op literal with
      | None => None
      | Some t =>
          match more with
          | [] => Some [[t]]
          | connective :: rest =>
              if String.eqb connective "&&" then
                match predicateOf rest with
                | Some (first :: disj) => Some ((t :: first) :: disj)
                | _ => None
                end
              else if String.eqb connective "||" then
                match predicateOf rest with
                | Some disj => Some ([t] :: disj)
                | None => None
                end
              else None
          end
      end
  | _ => None
  end.

(** The text between [$[?(] and [)]]. *)
Definition filterBody (path : string) : option string :=
  match path with
  | String "$"%char (String "["%char (String "?"%char (String "("%char r))) =>
      if endsWith r ")]"
      then Some (substring 0 (String.length r - 2) r)
      else None
  | _ => None
  end.

Definition compare (cmp : Comparison) (a b : Z) : bool :=
  match cmp with
  | Eq => (a =? b)%Z
  | Ne => negb (a =? b)%Z
  | Gt => (b <? a)%Z
  | Ge => (b <=? a)%Z
  | Lt => (a <? b)%Z
  | Le => (a <=? b)%Z
  end.

(** One condition on one element: a missing property is [undefined],
    which only [!=] tells apart from a number. *)
Definition holds (t : Test) (element : JsonValue) : option bool :=
  match element with
  | JObject members =>
      match JsObject.get (test_name t) members with
      | None => Some match test_op t with Ne => true | _ => false end
      | Some (JNumber n) =>
          if isSafeInteger n then Some (compare (test_op t) n (test_literal t))
          else None
      | Some _ => None
      end
  | _ => None
  end.

Fixpoint all (ts : list Test) (element : JsonValue) : option bool :=
  match ts with
  | [] => Some true
  | t :: rest =>
      match holds t element, all rest element with
      | Some a, Some b => Some (a && b)
      | _, _ => None
      end
  end.

Fixpoint any (disj : list (list Test)) (element : JsonValue) : option bool :=
  match disj with
  | [] => Some false
  | first :: rest =>
      match all first element, any rest element with
      | Some a, Some b => Some (a || b)
      | _, _ => None
      end
  end.

(** The matching elements of an array in document order, each with its
    path [$[i]]. *)
Fixpoint select (disj : list (list Test)) (i : nat) (elements : list JsonValue)
  : option (list (JsonValue * string)) :=
  match elements with
  | [] => Some []
  | e :: rest =>
      match any disj e, select disj (S i) rest with
      | Some true, Some found => Some ((e, "$[" ++ ofNat i ++ "]") :: found)
      | Some false, Some found => Some found
      | _, _ => None
      end
  end.

(** Modelled from the spec: what the evaluator returns for [path] on
    [json], called with [resultType: 'all']. *)
Definition evaluate (path : string) (json : JsonValue)
  : option (list (JsonValue * string)) :=
  match filterBody path, json with
  | Some body, JArray elements =>
      match predicateOf (words body) with
      | Some disj => select disj 0 elements
      | None => None
      end
  | _, _ => None
  end.

(** An evaluator that behaves as described wherever the description
    applies. *)
Definition agrees (JSONPath : string -> JsonValue -> Outcome (list (JsonValue * string)))
  : Prop :=
  forall path json found,
    evaluate path json = Some found -> JSONPath path json = Returned found.

(** The least defined such evaluator: it rejects what lies outside the
    fragment. *)
Definition restricted (path : string) (json : JsonValue)
  : Outcome (list (JsonValue * string)) :=
  match evaluate path json with
  | Some found => Returned found
  | None => Threw (ThrownError "outside the described fragment")
  end.

End FilterFragment.

(* ===================================================================== *)
(** ** Paths in the evaluator's notation *)
(* ===================================================================== *)

(** The evaluator writes a path as [$] followed by one bracket per step:
    the body in single quotes, or bare when it consists of digits. *)
Module ForeignPath.
Import JsString.

Inductive Step : Type :=
| Quoted (body : string)
| Bare (digits : string).

Definition isNumeric (body : string) : bool :=
  negb (isEmpty body) && allChars isDigit body.

Definition notQuote (c : ascii) : bool := negb (Ascii.eqb c squote).

Definition render (st : Step) : string :=
  match st with
  | Quoted body => String "["%char (String squote (body ++ String squote "]"))
  | Bare digits => "[" ++ digits ++ "]"
  end.

Definition text (steps : list Step) : string :=
  "$" ++ fold_right append "" (map render steps).

(** The same step in the application's notation: [[n]] for an index,
    [.name] for a property. *)
Definition canonical (st : Step) : string :=
  match st with
  | Quoted body => if isNumeric body then "[" ++ body ++ "]" else "." ++ body
  | Bare digits => "[" ++ digits ++ "]"
  end.

Definition canonicalText (steps : list Step) : string :=
  fold_right append "" (map canonical steps).

(** Bodies that the pattern of the conversion recognises: not empty and
    without a single quote; a bare body is a run of digits. *)
Definition recognised (st : Step) : bool :=
  match st with
  | Quoted body => negb (isEmpty body) && allChars notQuote body
  | Bare digits => isNumeric digits
  end.

(** Bodies that a path of the application can carry: a quoted body is not
    empty and has neither quote nor dot nor bracket in it. *)
Definition plain (st : Step) : bool :=
  match st with
  | Quoted body =>
      negb (isEmpty body)
      && allChars notQuote body && allChars DocumentViewer.isNameChar body
  | Bare digits => isNumeric digits
  end.

(** The segment that stands for a step. *)
Definition segmentOf (st : Step) : DocumentViewer.PathSegment :=
  match st with
  | Quoted body =>
      if isNumeric body
      then DocumentViewer.mkSegment DocumentViewer.index body
      else DocumentViewer.mkSegment DocumentViewer.property body
  | Bare digits => DocumentViewer.mkSegment DocumentViewer.index digits
  end.

End ForeignPath.

(* ===================================================================== *)
(** ** The textual form of a path, as the design document gives it *)
(* ===================================================================== *)

(** The grammar of the design document: a sequence of [.identifier] and
    [[integer]] tokens, the dot of the first token being optional. It is
    the yardstick for what a malformed path is; the sources have no
    counterpart of it. *)
Module PathGrammar.
Import JsString.

Definition isNameChar (c : ascii) : bool :=
  negb (Ascii.eqb c "."%char || Ascii.eqb c "["%char || Ascii.eqb c "]"%char).

Fixpoint tokens (rounds : nat) (s : string) : bool :=
  match rounds with
  | O => isEmpty s
  | S k =>
      match s with
      | EmptyString => true
      | String c r =>
          if Ascii.eqb c "."%char then
            let '(name, rest) := span isNameChar r in
            negb (isEmpty name) && tokens k rest
          else if Ascii.eqb c "["%char then
            let '(digits, after) := span isDigit r in
            negb (isEmpty digits) && startsWith after "]" && tokens k (dropFirst after)
          else false
      end
  end.

Definition accepts (s : string) : bool :=
  negb (isEmpty s) &&
  (tokens (String.length s) s
   || let '(name, rest) := span isNameChar s in
      negb (isEmpty name) && tokens (String.length rest) rest).

End PathGrammar.

(* ===================================================================== *)
(** ** Example documents *)
(* ===================================================================== *)

Module Examples.
Import JsString.

(** The document [{"a": {"b": 1}}]. *)
Definition nested : JsonValue := JObject [("a", JObject [("b", JNumber 1)])].

(** Its text, line by line. *)
Definition nestedText : string :=
  join (String newline "")
       [ "{";
         "  " ++ dquote ++ "a" ++ dquote ++ ": {";
         "    " ++ dquote ++ "b" ++ dquote ++ ": 1";
         "  }";
         "}" ].

(** The document [[{"price":150},{"price":50}]]. *)
Definition expensive : JsonValue := JObject [("price", JNumber 150)].
Definition cheap : JsonValue := JObject [("price", JNumber 50)].
Definition prices : JsonValue := JArray [expensive; cheap].

(** The condition [price > 100] of the visual builder. *)
Definition priceOver100 : QueryTool.Condition :=
  {| QueryTool.id := "1"; QueryTool.property := "price";
     QueryTool.operator := ">"; QueryTool.value := "100" |}.

(** The property name [it's]. *)
Definition its : string := "it" ++ String squote "s".

End Examples.

(* ===================================================================== *)
(** ** DataEditor, ArrayManager and ObjectEditor: paths and array edits *)
(* ===================================================================== *)

Module Editors.
Import JsString.

(** The path of the item at [index] below [currentPath]. *)
Definition itemPath (currentPath : string) (index : nat) : string :=
  if isEmpty currentPath
  then "[" ++ ofNat index ++ "]"
  else currentPath ++ "[" ++ ofNat index ++ "]".

(** The path of the property [name] below [currentPath]. *)
Definition propPath (currentPath name : string) : string :=
  if isEmpty currentPath then name else currentPath ++ "." ++ name.


Definition isParentOfHighlighted (highlightedPath : option string) (path : string) : bool :=
  match highlightedPath with
  | Some h =>
      negb (isEmpty h) && negb (isEmpty path) && startsWith h path && negb (String.eqb h path)
  | None => false
  end.

(** One step from a value to a value inside it. *)
Inductive Step : Type :=
| Key (name : string)
| Item (index : nat).

(** The path that the editors hand down along [steps], from the root. *)
Definition pathOf (steps : list Step) : string :=
  fold_left (fun path st =>
               match st with
               | Key name => propPath path name
               | Item index => itemPath path index
               end)
            steps "".

(** What a step adds to a path that is not empty. *)
Definition suffixOf (st : Step) : string :=
  match st with
  | Key name => "." ++ name
  | Item index => "[" ++ ofNat index ++ "]"
  end.

Definition tailText (steps : list Step) : string :=
  fold_right append "" (map suffixOf steps).

(** The segment that stands for a step. *)
Definition segmentOf (st : Step) : DocumentViewer.PathSegment :=
  match st with
  | Key name => DocumentViewer.mkSegment DocumentViewer.property name
  | Item index => DocumentViewer.mkSegment DocumentViewer.index (ofNat index)
  end.

(** Keys that a path can carry: not empty, without dot or bracket. *)
Definition plain (st : Step) : bool :=
  match st with
  | Key name => negb (isEmpty name) && allChars DocumentViewer.isNameChar name
  | Item _ => true
  end.

(** What a handler of the array editor does to the array: it leaves it
    alone, or it passes on a new array, or it passes on an array with
    [undefined] entries, which is no array of values any more. *)
Inductive Update : Type :=
| Unchanged
| Changed (newArray : JsonArray)
| Holed.

(** [a.filter((_, i) => keep(i))], counting from [i]. *)
Fixpoint filterIndexed {A : Type} (keep : nat -> bool) (i : nat) (a : list A) : list A :=
  match a with
  | [] => []
  | x :: r => if keep i then x :: filterIndexed keep (S i) r else filterIndexed keep (S i) r
  end.

(** [a[i] = x] on a copy of [a], for [i] inside [a]. *)
Fixpoint setAt {A : Type} (i : nat) (x : A) (a : list A) : list A :=
  match a, i with
  | [], _ => []
  | _ :: r, O => x :: r
  | y :: r, S k => y :: setAt k x r
  end.

(** [[a[i], a[j]] = [a[j], a[i]]] on a copy of [a]. *)
Definition swapped (i j : nat) (a : JsonArray) : Update :=
  match nth_error a i, nth_error a j with
  | Some x, Some y => Changed (setAt j x (setAt i y a))
  | _, _ => Holed
  end.

Definition handleSaveNewItem (newItem : JsonObject) (data : JsonArray) : Update :=
  Changed (data ++ [JObject newItem])%list.

Definition handleDeleteItem (index : nat) (data : JsonArray) : Update :=
  Changed (filterIndexed (fun i => negb (i =? index)%nat) 0 data).

Definition handleUpdateItem (index : nat) (updatedItem : JsonValue) (data : JsonArray)
  : Update :=
  if (index <? length data)%nat then Changed (setAt index updatedItem data)
  else if (index =? length data)%nat then Changed (data ++ [updatedItem])%list
  else Holed.

Definition handleMoveUp (index : nat) (data : JsonArray) : Update :=
  if (0 <? index)%nat then swapped (index - 1) index data else Unchanged.

Definition handleMoveDown (index : nat) (data : JsonArray) : Update :=
  if (Z.of_nat index <? Z.of_nat (length data) - 1)%Z
  then swapped index (index + 1) data
  else Unchanged.

End Editors.


(* ===================================================================== *)
(** ** utils/graphUtils.ts *)
(* ===================================================================== *)

Module GraphUtils.
Import JsString.

Record GraphNode : Type := mkNode {
  node_id : string;
  node_x : Z;
  node_y : Z;
  node_label : string;
  node_value : JsonValue;
  node_type : string;
  node_background : string
}.

Record Edge : Type := mkEdge {
  edge_id : string;
  edge_source : string;
  edge_target : string
}.

(** The counter of the module and the two arrays that [jsonToGraph]
    fills, each in the order of its [push] calls. *)
Record Graph : Type := mkGraph {
  nodeIdCounter : nat;
  nodes : list GraphNode;
  edges : list Edge
}.

Record Layout : Type := mkLayout {
  lastY : Z;
  width : Z
}.

(** The key under which a value is drawn: a property name or a position. *)
Inductive NodeKey : Type :=
| Name (name : string)
| Position (index : nat).

Definition ySpacing : Z := 120.
Definition xSpacing : Z := 280.

Definition nodeName (k : nat) : string := "node-" ++ ofNat k.

Definition getNodeId (g : Graph) : string * Graph :=
  (nodeName (nodeIdCounter g),
   {| nodeIdCounter := S (nodeIdCounter g); nodes := nodes g; edges := edges g |}).

Definition getTypeColor (type : string) : string :=
  if String.eqb type "object" then "#3b82f6"
  else if String.eqb type "array" then "#8b5cf6"
  else if String.eqb type "string" then "#10b981"
  else if String.eqb type "number" then "#f59e0b"
  else if String.eqb type "boolean" then "#ef4444"
  else if String.eqb type "null" then "#6b7280"
  else "#3b82f6".

(** [typeof value] *)
Definition typeOf (value : JsonValue) : string :=
  match value with
  | JNull | JArray _ | JObject _ => "object"
  | JBool _ => "boolean"
  | JNumber _ => "number"
  | JString _ => "string"
  end.

(** [Array.isArray(value) ? 'array' : value === null ? 'null' : typeof value] *)
Definition nodeTypeOf (value : JsonValue) : string :=
  match value with
  | JArray _ => "array"
  | JNull => "null"
  | _ => typeOf value
  end.

(** [formatValue(value, type)], for the [type] that the callers pass:
    the type of [value] itself, [null] at the root going as an object. *)
Definition formatValue (value : JsonValue) : string :=
  match value with
  | JString s =>
      if (50 <? String.length s)%nat
      then dquote ++ String.substring 0 47 s ++ "..." ++ dquote
      else dquote ++ s ++ dquote
  | JArray items => "Array[" ++ ofNat (length items) ++ "]"
  | JObject members => "Object{" ++ ofNat (length members) ++ "}"
  | JNull => "null"
  | JBool true => "true"
  | JBool false => "false"
  | JNumber n => JsJSON.ofZ n
  end.

Definition labelOf (key : NodeKey) (value : JsonValue) : string :=
  match key with
  | Name "" => formatValue value
  | Name name => name ++ ": " ++ formatValue value
  | Position index => ofNat index ++ ": " ++ formatValue value
  end.

Definition pushNode (node : GraphNode) (g : Graph) : Graph :=
  {| nodeIdCounter := nodeIdCounter g; nodes := nodes g ++ [node]; edges := edges g |}.

Definition pushEdge (edge : Edge) (g : Graph) : Graph :=
  {| nodeIdCounter := nodeIdCounter g; nodes := nodes g; edges := edges g ++ [edge] |}.

(** The [forEach] loops of [processValue]: [visit] is the call for one
    child, [childY] and [maxWidth] are the variables that the loop body
    assigns. *)
Fixpoint forEach {A : Type} (visit : A -> nat -> Z -> Graph -> Layout * Graph)
         (entries : list A) (index : nat) (childY maxWidth : Z) (g : Graph)
  : Z * Z * Graph :=
  match entries with
  | [] => (childY, maxWidth, g)
  | entry :: rest =>
      let '(result, g) := visit entry index childY g in
      forEach visit rest (S index) (lastY result + ySpacing)
              (Z.max maxWidth (width result + 1)) g
  end.

Section ProcessValue.
Variable maxDepth : Z.

Fixpoint processValue (value : JsonValue) (key : NodeKey) (parentId : option string)
         (depth xOffset yOffset : Z) (g : Graph) {struct value} : Layout * Graph :=
  if (maxDepth <? depth)%Z then ({| lastY := yOffset; width := 0 |}, g)
  else
    let '(nodeId, g) := getNodeId g in
    let type := nodeTypeOf value in
    let g := pushNode {| node_id := nodeId; node_x := xOffset; node_y := yOffset;
                         node_label := labelOf key value; node_value := value;
                         node_type := type;
                         node_background := getTypeColor type |} g in
    let g := match parentId with
             | Some parent =>
                 pushEdge {| edge_id := parent ++ "-" ++ nodeId;
                             edge_source := parent; edge_target := nodeId |} g
             | None => g
             end in
    match value with
    | JObject members =>
        let '(childY, maxWidth, g) :=
          forEach (fun entry _ childY g =>
                     processValue (snd entry) (Name (fst entry)) (Some nodeId)
                                  (depth + 1) (xOffset + xSpacing) childY g)
                  members 0 (yOffset + ySpacing)%Z 1%Z g in
        ({| lastY := childY - ySpacing; width := maxWidth |}, g)
    | JArray items =>
        let '(childY, maxWidth, g) :=
          forEach (fun item index childY g =>
                     processValue item (Position index) (Some nodeId)
                                  (depth + 1) (xOffset + xSpacing) childY g)
                  items 0 (yOffset + ySpacing)%Z 1%Z g in
        ({| lastY := childY - ySpacing; width := maxWidth |}, g)
    | _ => ({| lastY := yOffset; width := 1 |}, g)
    end.

(** Convert JSON data to ReactFlow nodes and edges *)
Definition jsonToGraph (data : JsonValue) : list GraphNode * list Edge :=
  let g := {| nodeIdCounter := 0; nodes := []; edges := [] |} in
  let rootType := match data with JArray _ => "array" | _ => typeOf data end in
  if String.eqb rootType "object" || String.eqb rootType "array"
  then
    let '(_, g) := processValue data (Name "root") None 0 0 0 g in
    (nodes g, edges g)
  else
    (* Handle primitive root values *)
    let '(nodeId, g) := getNodeId g in
    let g := pushNode {| node_id := nodeId; node_x := 0; node_y := 0;
                         node_label := formatValue data; node_value := data;
                         node_type := rootType;
                         node_background := getTypeColor rootType |} g in
    (nodes g, edges g).

End ProcessValue.

(** The graph once [processValue] has pushed the node of [value] and the
    edge to it, before it turns to what is inside [value]. *)
Definition entered (value : JsonValue) (key : NodeKey) (parentId : option string)
           (xOffset yOffset : Z) (g : Graph) : Graph :=
  let '(nodeId, g) := getNodeId g in
  let type := nodeTypeOf value in
  let g := pushNode {| node_id := nodeId; node_x := xOffset; node_y := yOffset;
                       node_label := labelOf key value; node_value := value;
                       node_type := type;
                       node_background := getTypeColor type |} g in
  match parentId with
  | Some parent =>
      pushEdge {| edge_id := parent ++ "-" ++ nodeId;
                  edge_source := parent; edge_target := nodeId |} g
  | None => g
  end.

(** How deep the values inside [value] lie below it. *)
Fixpoint nesting (value : JsonValue) : nat :=
  match value with
  | JArray items => list_max (map (fun item => S (nesting item)) items)
  | JObject members => list_max (map (fun entry => S (nesting (snd entry))) members)
  | _ => 0
  end.

(** An edge from a node made as number [lo] or later to a node made
    after it, named after both. *)
Definition links (lo : nat) (e : Edge) : Prop :=
  exists i j, (lo <= i < j)%nat /\
              edge_source e = nodeName i /\ edge_target e = nodeName j /\
              edge_id e = nodeName i ++ "-" ++ nodeName j.

(** Rows between [y0] and [y1], each below the one before. *)
Definition rows (y0 y1 : Z) (ns : list GraphNode) : Prop :=
  Forall (fun n => (y0 <= node_y n <= y1)%Z) ns /\
  StronglySorted Z.lt (map node_y ns).

(** What a run from [g] to [g'] has added: nodes numbered from the
    counter of [g] on, one edge to each of them from a node numbered [lo]
    or later, rows between [y0] and [y1]. *)
Definition grown (lo : nat) (y0 y1 : Z) (g g' : Graph) : Prop :=
  exists ns es,
    nodes g' = (nodes g ++ ns)%list /\
    edges g' = (edges g ++ es)%list /\
    nodeIdCounter g' = (nodeIdCounter g + length ns)%nat /\
    map node_id ns = map nodeName (seq (nodeIdCounter g) (length ns)) /\
    map edge_target es = map nodeName (seq (nodeIdCounter g) (length ns)) /\
    Forall (links lo) es /\
    rows y0 y1 ns.

Definition exampleGraphData : JsonValue :=
  JObject [("a", JArray [JNumber 1; JString "x"]); ("b", JNull)].

End GraphUtils.


(* ===================================================================== *)
(** * Properties *)
(* ===================================================================== *)

(** ** Schema inference and default values *)

Section SchemaDefaults.
Import JsonUtils.

Lemma inferType_getDefaultValue (type : PropertyType) :
  inferType (getDefaultValue type) = type.
Proof. destruct type; reflexivity. Qed.

Lemma has_false_not_In (k : string) (o : JsonObject) :
  JsObject.has k o = false -> ~ In k (JsObject.keys o).
Proof.
  unfold JsObject.has.
  induction o as [| [k' v'] r IH]; simpl; [tauto |].
  destruct (String.eqb k' k) eqn:E; [discriminate |].
  intros H [Heq | Hin].
  - subst k'. rewrite String.eqb_refl in E. discriminate.
  - exact (IH H Hin).
Qed.

Lemma not_In_has_false (k : string) (o : JsonObject) :
  ~ In k (JsObject.keys o) -> JsObject.has k o = false.
Proof.
  unfold JsObject.has.
  induction o as [| [k' v'] r IH]; simpl; [reflexivity |].
  intros H. destruct (String.eqb k' k) eqn:E.
  - apply String.eqb_eq in E. tauto.
  - apply IH. tauto.
Qed.

Lemma insertIndex_Permutation (k : string) (v : JsonValue) (o : JsonObject) :
  Permutation (JsObject.insertIndex k v o) ((k, v) :: o).
Proof.
  induction o as [| [k' v'] r IH]; simpl; [reflexivity |].
  destruct (_ && _).
  - rewrite IH. apply perm_swap.
  - reflexivity.
Qed.

(** Creating a property adds one entry and moves none of the others out. *)
Lemma set_new_Permutation (k : string) (v : JsonValue) (o : JsonObject) :
  JsObject.has k o = false ->
  Permutation (JsObject.set k v o) ((k, v) :: o).
Proof.
  intros H. unfold JsObject.set. rewrite H.
  destruct (JsObject.isArrayIndex k).
  - apply insertIndex_Permutation.
  - symmetry. apply Permutation_cons_append.
Qed.

(** An assignment to a key other than [__proto__] creates or updates an
    own property and leaves the prototype chain alone. *)
Lemma assign_ordinary (k : string) (v : JsonValue) (reaches : bool)
      (o : JsObject.Assigned) :
  String.eqb k "__proto__" = false ->
  JsObject.assign k v reaches o =
    {| JsObject.own := JsObject.set k v (JsObject.own o);
       JsObject.inheritsProto := JsObject.inheritsProto o |}.
Proof.
  intros Hk. unfold JsObject.assign. rewrite Hk. cbn [andb negb].
  now rewrite orb_true_r.
Qed.

Lemma fold_assign_ordinary (f : PropertySchema -> JsonValue) (g : PropertySchema -> bool)
      (props : list PropertySchema) (acc : JsObject.Assigned) :
  ~ In "__proto__" (map ps_name props) ->
  fold_left (fun obj p => JsObject.assign (ps_name p) (f p) (g p) obj) props acc =
    {| JsObject.own :=
         fold_left (fun obj p => JsObject.set (ps_name p) (f p) obj) props
                   (JsObject.own acc);
       JsObject.inheritsProto := JsObject.inheritsProto acc |}.
Proof.
  revert acc. induction props as [| p props IH]; intros acc Hno; cbn [fold_left].
  - destruct acc; reflexivity.
  - cbn [map In] in Hno.
    rewrite assign_ordinary.
    + rewrite IH by tauto. reflexivity.
    + apply String.eqb_neq. intros Heq. apply Hno. now left.
Qed.

(** Without a property named [__proto__] the flat skeleton is made of
    ordinary assignments. *)
Lemma createDefaultObject_ordinary (schema : ObjectSchema) :
  ~ In "__proto__" (map ps_name (properties schema)) ->
  createDefaultObject schema =
    fold_left (fun obj prop =>
                 JsObject.set (ps_name prop) (getDefaultValue (ps_type prop)) obj)
              (properties schema) [].
Proof.
  intros Hno. unfold createDefaultObject.
  now rewrite (fold_assign_ordinary (fun p => getDefaultValue (ps_type p))
                                    (fun _ => true)) by exact Hno.
Qed.

Lemma createDefaultObject_from (props : list PropertySchema) (acc : JsonObject) :
  NoDup (map ps_name props) ->
  (forall p, In p props -> ~ In (ps_name p) (JsObject.keys acc)) ->
  Permutation
    (fold_left (fun obj prop =>
                  JsObject.set (ps_name prop) (getDefaultValue (ps_type prop)) obj)
               props acc)
    (acc ++ map (fun p => (ps_name p, getDefaultValue (ps_type p))) props).
Proof.
  revert acc.
  induction props as [| p props IH]; intros acc Hnd Hfresh; simpl.
  - rewrite app_nil_r. reflexivity.
  - inversion Hnd as [| x l Hnotin Hnd']; subst.
    assert (Hp : JsObject.has (ps_name p) acc = false).
    { apply not_In_has_false, Hfresh. now left. }
    pose proof (set_new_Permutation (ps_name p) (getDefaultValue (ps_type p)) acc Hp)
      as Hset.
    rewrite IH.
    + rewrite Hset. simpl. apply Permutation_middle.
    + exact Hnd'.
    + intros q Hq Hin.
      unfold JsObject.keys in Hin.
      apply (Permutation_in _ (Permutation_map fst Hset)) in Hin.
      simpl in Hin. destruct Hin as [Heq | Hin].
      * apply Hnotin. rewrite Heq. now apply in_map.
      * apply (Hfresh q); [now right | exact Hin].
Qed.

Lemma typeTags_inferObjectSchema (obj : JsonObject) :
  typeTags (inferObjectSchema obj) = map (fun kv => (fst kv, inferType (snd kv))) obj.
Proof.
  unfold typeTags, inferObjectSchema. simpl.
  rewrite map_map. apply map_ext. intros [k v]. reflexivity.
Qed.

(** The schema inferred from an object names its keys, one property each. *)
Lemma inferObjectSchema_names (obj : JsonObject) :
  map ps_name (properties (inferObjectSchema obj)) = JsObject.keys obj.
Proof.
  unfold inferObjectSchema, JsObject.keys. simpl.
  rewrite map_map. apply map_ext. intros [k v]. reflexivity.
Qed.

(** C9, as stated, fails. A schema that names a property twice gives a
    skeleton with one property of that name, and so fewer type tags than
    the schema has. The schema inferred from an object with an own
    property [__proto__] loses that property in the skeleton, where the
    assignment defines none. *)
Lemma skeleton_of_repeated_name_differs :
  typeTags exampleRepeated = [("a", TString); ("a", TNumber)] /\
  typeTags (inferObjectSchema (createDefaultObject exampleRepeated)) = [("a", TNumber)] /\
  ~ Permutation (typeTags (inferObjectSchema (createDefaultObject exampleRepeated)))
                (typeTags exampleRepeated) /\
  typeTags (inferObjectSchema exampleProto) = [("__proto__", TNumber); ("a", TString)] /\
  typeTags (inferObjectSchema (createDefaultObject (inferObjectSchema exampleProto)))
    = [("a", TString)].
Proof.
  repeat split; try reflexivity.
  intros H. apply Permutation_length in H. discriminate H.
Qed.

(** C9 (amended). For a schema whose properties have distinct names, none
    of them [__proto__], the skeleton built from the default value of
    each property's type has, once a schema is inferred from it again,
    exactly the properties of the original schema, each with its original
    type tag (the properties are listed in the order in which the
    skeleton enumerates them). *)
Theorem default_skeleton_keeps_type_tags (schema : ObjectSchema) :
  NoDup (map ps_name (properties schema)) ->
  ~ In "__proto__" (map ps_name (properties schema)) ->
  Permutation (typeTags (inferObjectSchema (createDefaultObject schema)))
              (typeTags schema).
Proof.
  intros Hnd Hno.
  rewrite typeTags_inferObjectSchema.
  rewrite (createDefaultObject_ordinary schema Hno).
  rewrite (Permutation_map _ (createDefaultObject_from (properties schema) [] Hnd
                                (fun _ _ H => H))).
  simpl. unfold typeTags. rewrite map_map. simpl.
  erewrite map_ext; [reflexivity |].
  intros p. simpl. now rewrite inferType_getDefaultValue.
Qed.

Lemma default_skeleton_keeps_type_tags_witness :
  NoDup (map ps_name (properties exampleSchema)) /\
  ~ In "__proto__" (map ps_name (properties exampleSchema)) /\
  Permutation (typeTags (inferObjectSchema (createDefaultObject exampleSchema)))
              (typeTags exampleSchema).
Proof.
  assert (Hnd : NoDup (map ps_name (properties exampleSchema))).
  { simpl. repeat constructor; simpl; intuition discriminate. }
  assert (Hno : ~ In "__proto__" (map ps_name (properties exampleSchema))).
  { simpl. intuition discriminate. }
  split; [exact Hnd |]. split; [exact Hno |].
  apply (default_skeleton_keeps_type_tags exampleSchema Hnd Hno).
Defined.

(** In particular for the schema of any object without a key
    [__proto__]: its keys are distinct. *)
Lemma inferred_schema_keeps_type_tags (obj : JsonObject) :
  NoDup (JsObject.keys obj) ->
  ~ In "__proto__" (JsObject.keys obj) ->
  Permutation
    (typeTags (inferObjectSchema (createDefaultObject (inferObjectSchema obj))))
    (typeTags (inferObjectSchema obj)).
Proof.
  intros Hnd Hno. pose proof (inferObjectSchema_names obj) as Hnames.
  set (schema := inferObjectSchema obj) in *.
  rewrite typeTags_inferObjectSchema.
  assert (Hnd' : NoDup (map ps_name (properties schema))) by now rewrite Hnames.
  assert (Hno' : ~ In "__proto__" (map ps_name (properties schema))) by now rewrite Hnames.
  rewrite (createDefaultObject_ordinary schema Hno').
  rewrite (Permutation_map _ (createDefaultObject_from (properties schema) [] Hnd'
                                (fun _ _ H => H))).
  simpl. unfold typeTags. rewrite map_map.
  erewrite map_ext; [reflexivity |].
  intros p. simpl. now rewrite inferType_getDefaultValue.
Qed.

(** C10. [parseJson] answers on every input: either the parser returned a
    value, and the answer is a success carrying it, or the parser threw,
    and the answer is a failure without data whose message is the one of
    the thrown error (or a fixed text when there is none). *)
Theorem parseJson_total (JSON_parse : string -> Outcome JsonValue) (jsonString : string) :
  (exists d,
      JSON_parse jsonString = Returned d /\
      parseJson JSON_parse jsonString =
        {| success := true; data := Some d; error := None |})
  \/
  (exists e,
      JSON_parse jsonString = Threw e /\
      parseJson JSON_parse jsonString =
        {| success := false; data := None;
           error := Some match e with
                         | ThrownError message => message
                         | ThrownOther => "Invalid JSON"
                         end |}).
Proof.
  unfold parseJson.
  destruct (JSON_parse jsonString) as [d | [message |]].
  - left. exists d. split; reflexivity.
  - right. exists (ThrownError message). split; reflexivity.
  - right. exists ThrownOther. split; reflexivity.
Qed.

End SchemaDefaults.

(** ** The version history *)

Section VersionHistory.
Import App.

Variable JSON_stringify : JsonValue -> string.

Lemma mostRecent_short {A : Type} (n : nat) (l : list A) :
  (length l <= n)%nat -> mostRecent n l = l.
Proof.
  intros H. unfold mostRecent.
  replace (length l - n)%nat with 0%nat by lia. reflexivity.
Qed.

Lemma length_mostRecent {A : Type} (n : nat) (l : list A) :
  length (mostRecent n l) = Nat.min n (length l).
Proof. unfold mostRecent. rewrite length_skipn. lia. Qed.

(** Trimming after every append keeps what trimming once at the end
    keeps. *)
Lemma mostRecent_snoc {A : Type} (n : nat) (l : list A) (x : A) :
  (1 <= n)%nat ->
  mostRecent n (mostRecent n l ++ [x]) = mostRecent n (l ++ [x]).
Proof.
  intros Hn.
  destruct (Nat.le_gt_cases (length l) n) as [Hle | Hgt].
  - now rewrite (mostRecent_short n l Hle).
  - unfold mostRecent at 1 3.
    rewrite !length_app, length_mostRecent. simpl.
    unfold mostRecent.
    rewrite !skipn_app, skipn_skipn, length_skipn.
    replace (Nat.min n (length l) + 1 - n + (length l - n))%nat
      with (length l + 1 - n)%nat by lia.
    replace (Nat.min n (length l) + 1 - n - (length l - (length l - n)))%nat
      with 0%nat by lia.
    replace (length l + 1 - n - length l)%nat with 0%nat by lia.
    reflexivity.
Qed.

(** One edit made with the cursor on the last entry appends its snapshot,
    keeps the most recent [MAX_HISTORY_LENGTH] entries and leaves the
    cursor on the last one. *)
Lemma handleDocumentUpdate_at_end (newData : JsonValue) (now : Z) (st : AppState) :
  cursorAtEnd st ->
  let st' := handleDocumentUpdate JSON_stringify newData now st in
  versionHistory st' =
    mostRecent MAX_HISTORY_LENGTH
               (versionHistory st ++ [snapshotOf JSON_stringify (newData, now)])
  /\ cursorAtEnd st'.
Proof.
  intros Hend. unfold cursorAtEnd in *. simpl.
  set (kept := if (0 <=? currentVersionIndex st)%Z then _ else _).
  assert (Hkept : kept = versionHistory st).
  { subst kept. rewrite Hend.
    destruct (versionHistory st) as [| v h] eqn:Eh.
    - reflexivity.
    - replace (0 <=? Z.of_nat (length (v :: h)) - 1)%Z with true
        by (symmetry; apply Z.leb_le; simpl length; lia).
      replace (Z.to_nat (Z.of_nat (length (v :: h)) - 1 + 1)) with (length (v :: h))
        by lia.
      apply firstn_all. }
  rewrite Hkept. clear kept Hkept.
  set (updated := (versionHistory st ++ _)%list).
  assert (Htrim :
            (if (MAX_HISTORY_LENGTH <? length updated)%nat
             then skipn (length updated - MAX_HISTORY_LENGTH) updated
             else updated) = mostRecent MAX_HISTORY_LENGTH updated).
  { destruct (MAX_HISTORY_LENGTH <? length updated)%nat eqn:E.
    - reflexivity.
    - apply Nat.ltb_ge in E. now rewrite mostRecent_short. }
  rewrite Htrim. split; reflexivity.
Qed.

Lemma appendAll_snoc (edits : list (JsonValue * Z)) (e : JsonValue * Z) (st : AppState) :
  appendAll JSON_stringify (edits ++ [e]) st =
  handleDocumentUpdate JSON_stringify (fst e) (snd e) (appendAll JSON_stringify edits st).
Proof. unfold appendAll. now rewrite fold_left_app. Qed.

(** Any number of edits from the initial state: the history holds the
    most recent [MAX_HISTORY_LENGTH] snapshots, cursor on the last. *)
Lemma appendAll_initial (edits : list (JsonValue * Z)) :
  let st := appendAll JSON_stringify edits initialState in
  versionHistory st =
    mostRecent MAX_HISTORY_LENGTH (map (snapshotOf JSON_stringify) edits)
  /\ cursorAtEnd st.
Proof.
  induction edits as [| e edits IH] using rev_ind.
  - split; reflexivity.
  - destruct IH as [IHh IHc]. cbv zeta.
    rewrite appendAll_snoc.
    destruct (handleDocumentUpdate_at_end (fst e) (snd e) _ IHc) as [Hh Hc].
    cbv zeta in Hh, Hc. split; [| exact Hc].
    rewrite Hh, IHh, map_app. simpl map.
    replace (snapshotOf JSON_stringify (fst e, snd e))
      with (snapshotOf JSON_stringify e) by now destruct e.
    apply mostRecent_snoc. unfold MAX_HISTORY_LENGTH. lia.
Qed.

(** C5. Sixty edits made in sequence from the empty history leave fifty
    entries: the snapshots of the last fifty edits, the first ten being
    gone, and the cursor is on the last entry, at index 49. *)
Theorem sixty_edits_keep_last_fifty (edits : list (JsonValue * Z)) :
  length edits = 60%nat ->
  let st := appendAll JSON_stringify edits initialState in
  versionHistory st = skipn 10 (map (snapshotOf JSON_stringify) edits) /\
  length (versionHistory st) = 50%nat /\
  currentVersionIndex st = 49%Z.
Proof.
  intros Hlen st.
  destruct (appendAll_initial edits) as [Hh Hc]. fold st in Hh, Hc.
  assert (Hhist : versionHistory st = skipn 10 (map (snapshotOf JSON_stringify) edits)).
  { rewrite Hh. unfold mostRecent, MAX_HISTORY_LENGTH.
    rewrite length_map, Hlen. reflexivity. }
  assert (Hl : length (versionHistory st) = 50%nat).
  { rewrite Hhist, length_skipn, length_map, Hlen. reflexivity. }
  repeat split; [exact Hhist | exact Hl |].
  unfold cursorAtEnd in Hc. rewrite Hc, Hl. reflexivity.
Qed.

End VersionHistory.

Lemma sixty_edits_keep_last_fifty_witness :
  length App.exampleEdits = 60%nat /\
  let st := App.appendAll JsJSON.stringify App.exampleEdits App.initialState in
  App.versionHistory st = skipn 10 (map (App.snapshotOf JsJSON.stringify) App.exampleEdits) /\
  length (App.versionHistory st) = 50%nat /\
  App.currentVersionIndex st = 49%Z.
Proof.
  split.
  - reflexivity.
  - apply (sixty_edits_keep_last_fifty JsJSON.stringify App.exampleEdits). reflexivity.
Defined.

Section UndoRedo.
Import App.

Variable JSON_parse : string -> Outcome JsonValue.

Lemma at_index_in_range {A : Type} (l : list A) (i : Z) :
  (0 <= i < Z.of_nat (length l))%Z ->
  exists x, at_index l i = Some x /\ In x l.
Proof.
  intros [Hlo Hhi]. unfold at_index.
  replace (i <? 0)%Z with false by (symmetry; apply Z.ltb_ge; lia).
  destruct (nth_error l (Z.to_nat i)) as [x |] eqn:E.
  - exists x. split; [reflexivity | eapply nth_error_In; exact E].
  - apply nth_error_None in E. lia.
Qed.

(** Moving inside a well-formed history puts the snapshot found there on
    display. *)
Lemma moveTo_in_range (st : AppState) (newIndex : Z) :
  Forall (fun v => exists d, JSON_parse (content v) = Returned d) (versionHistory st) ->
  (0 <= newIndex < Z.of_nat (length (versionHistory st)))%Z ->
  exists version d,
    at_index (versionHistory st) newIndex = Some version /\
    JSON_parse (content version) = Returned d /\
    moveTo JSON_parse newIndex st = Returned (movedTo st newIndex version d).
Proof.
  intros Hall Hrange.
  destruct (at_index_in_range _ _ Hrange) as [version [Hat Hin]].
  rewrite Forall_forall in Hall.
  destruct (Hall version Hin) as [d Hd].
  exists version, d. repeat split; try assumption.
  unfold moveTo, JsonUtils.parseJson. rewrite Hat, Hd. reflexivity.
Qed.

(** C6. In a history whose cursor is on an entry and whose snapshots are
    texts of documents: undo changes nothing when the cursor is 0 and
    otherwise moves the cursor one entry back and displays the snapshot
    found there; redo changes nothing when the cursor is on the last
    entry and otherwise moves it one entry forward and displays the
    snapshot found there. *)
Theorem undo_redo_move_cursor (st : AppState) :
  history_ok JSON_parse st ->
  (currentVersionIndex st = 0%Z -> handleUndo JSON_parse st = Returned st)
  /\
  (currentVersionIndex st <> 0%Z ->
   exists version d,
     at_index (versionHistory st) (currentVersionIndex st - 1) = Some version /\
     JSON_parse (content version) = Returned d /\
     handleUndo JSON_parse st =
       Returned (movedTo st (currentVersionIndex st - 1) version d))
  /\
  (currentVersionIndex st = (Z.of_nat (length (versionHistory st)) - 1)%Z ->
   handleRedo JSON_parse st = Returned st)
  /\
  (currentVersionIndex st <> (Z.of_nat (length (versionHistory st)) - 1)%Z ->
   exists version d,
     at_index (versionHistory st) (currentVersionIndex st + 1) = Some version /\
     JSON_parse (content version) = Returned d /\
     handleRedo JSON_parse st =
       Returned (movedTo st (currentVersionIndex st + 1) version d)).
Proof.
  intros [Hrange Hall]. unfold handleUndo, handleRedo.
  repeat split.
  - intros H0. rewrite H0. reflexivity.
  - intros Hne.
    replace (0 <? currentVersionIndex st)%Z with true
      by (symmetry; apply Z.ltb_lt; lia).
    apply moveTo_in_range; [exact Hall | lia].
  - intros Hlast. rewrite Hlast, Z.ltb_irrefl. reflexivity.
  - intros Hne.
    replace (currentVersionIndex st <? Z.of_nat (length (versionHistory st)) - 1)%Z
      with true by (symmetry; apply Z.ltb_lt; lia).
    apply moveTo_in_range; [exact Hall | lia].
Qed.

(** Before any document is loaded there is nothing to undo or redo. *)
Lemma initialState_undo_redo :
  handleUndo JSON_parse initialState = Returned initialState /\
  handleRedo JSON_parse initialState = Returned initialState.
Proof. split; reflexivity. Qed.

(** Loading a file that parses starts a well-formed history. *)
Lemma history_ok_handleFileLoad (text : string) (now : Z) (st : AppState) (d : JsonValue) :
  JSON_parse text = Returned d ->
  history_ok JSON_parse (handleFileLoad JSON_parse text now st).
Proof.
  intros Hd. unfold handleFileLoad, JsonUtils.parseJson. rewrite Hd. simpl.
  split; simpl; [lia |].
  constructor; [| constructor]. exists d. exact Hd.
Qed.

(** An edit keeps the history well formed, provided the serializer
    writes texts that the parser reads. *)
Lemma history_ok_handleDocumentUpdate
      (JSON_stringify : JsonValue -> string) (newData : JsonValue) (now : Z)
      (st : AppState) :
  (exists d, JSON_parse (JSON_stringify newData) = Returned d) ->
  Forall (fun v => exists d, JSON_parse (content v) = Returned d) (versionHistory st) ->
  history_ok JSON_parse (handleDocumentUpdate JSON_stringify newData now st).
Proof.
  intros Hnew Hall. unfold history_ok, handleDocumentUpdate. simpl.
  set (kept := if (0 <=? currentVersionIndex st)%Z then _ else _).
  set (updated := (kept ++ _)%list).
  assert (Hupd : Forall (fun v => exists d, JSON_parse (content v) = Returned d) updated).
  { subst updated. apply Forall_app. split.
    - subst kept. destruct (0 <=? currentVersionIndex st)%Z; [| constructor].
      rewrite Forall_forall in *. intros v Hv. apply Hall.
      rewrite <- (firstn_skipn (Z.to_nat (currentVersionIndex st + 1)) (versionHistory st)).
      apply in_or_app. now left.
    - constructor; [exact Hnew | constructor]. }
  assert (Hlen : (1 <= length updated)%nat).
  { subst updated. rewrite length_app. simpl. lia. }
  destruct (MAX_HISTORY_LENGTH <? length updated)%nat eqn:E.
  - split.
    + rewrite length_skipn. apply Nat.ltb_lt in E.
      unfold MAX_HISTORY_LENGTH in *. lia.
    + rewrite Forall_forall in *. intros v Hv. apply Hupd.
      rewrite <- (firstn_skipn (length updated - MAX_HISTORY_LENGTH) updated).
      apply in_or_app. now right.
  - split; [lia | exact Hupd].
Qed.

End UndoRedo.

Lemma undo_redo_move_cursor_witness :
  App.history_ok JsJSON.parseScalar App.exampleState /\
  (exists version d,
      App.at_index (App.versionHistory App.exampleState) 0 = Some version /\
      JsJSON.parseScalar (content version) = Returned d /\
      App.handleUndo JsJSON.parseScalar App.exampleState =
        Returned (App.movedTo App.exampleState 0 version d)) /\
  (exists version d,
      App.at_index (App.versionHistory App.exampleState) 2 = Some version /\
      JsJSON.parseScalar (content version) = Returned d /\
      App.handleRedo JsJSON.parseScalar App.exampleState =
        Returned (App.movedTo App.exampleState 2 version d)).
Proof.
  assert (Hok : App.history_ok JsJSON.parseScalar App.exampleState).
  { split; [simpl; lia |].
    repeat constructor; eexists; reflexivity. }
  destruct (undo_redo_move_cursor JsJSON.parseScalar App.exampleState Hok)
    as [_ [Hundo [_ Hredo]]].
  split; [exact Hok |].
  split.
  - apply Hundo. simpl. discriminate.
  - apply Hredo. simpl. discriminate.
Defined.

(** ** Strings *)

Section Strings.
Import JsString.

Lemma append_assoc (a b c : string) : (a ++ b) ++ c = a ++ (b ++ c).
Proof. induction a as [| x a IH]; simpl; [reflexivity | now rewrite IH]. Qed.

Lemma append_empty_r (a : string) : a ++ "" = a.
Proof. induction a as [| x a IH]; simpl; [reflexivity | now rewrite IH]. Qed.

Lemma length_append (a b : string) :
  String.length (a ++ b) = (String.length a + String.length b)%nat.
Proof. induction a as [| x a IH]; simpl; [reflexivity | now rewrite IH]. Qed.

(** [span] stops where the prefix of accepted characters stops. *)
Lemma span_append (p : ascii -> bool) (a rest : string) :
  allChars p a = true ->
  match rest with String c _ => p c = false | EmptyString => True end ->
  span p (a ++ rest) = (a, rest).
Proof.
  intros Ha Hrest.
  induction a as [| x a IH]; simpl in *.
  - destruct rest as [| c r]; [reflexivity |]. simpl. now rewrite Hrest.
  - apply andb_true_iff in Ha as [Hx Ha].
    rewrite Hx, (IH Ha). reflexivity.
Qed.

Lemma span_length (p : ascii -> bool) (s : string) :
  String.length s = (String.length (fst (span p s)) + String.length (snd (span p s)))%nat.
Proof.
  induction s as [| c r IH]; simpl; [reflexivity |].
  destruct (p c); [| reflexivity].
  destruct (span p r) as [a b]. simpl in *. now rewrite IH.
Qed.

Lemma span_accepted (p : ascii -> bool) (s : string) :
  allChars p (fst (span p s)) = true.
Proof.
  induction s as [| c r IH]; simpl; [reflexivity |].
  destruct (p c) eqn:E; [| reflexivity].
  destruct (span p r) as [a b]. simpl in *. now rewrite E.
Qed.

End Strings.

(** ** From the evaluator's paths to the application's *)

Section PathConversion.
Import JsString QueryTool ForeignPath.

Lemma matchQuotedAt_shorter (s prop rest : string) :
  matchQuotedAt s = Some (prop, rest) ->
  (String.length rest < String.length s)%nat.
Proof.
  unfold matchQuotedAt.
  destruct s as [| c [| q r]];
    [discriminate | destruct c as [[] [] [] [] [] [] [] []]; discriminate |].
  destruct (Ascii.eqb c "["%char) eqn:Ec.
  2:{ destruct c as [[] [] [] [] [] [] [] []]; try discriminate Ec; discriminate. }
  apply Ascii.eqb_eq in Ec. subst c.
  destruct (Ascii.eqb q squote); [| discriminate].
  pose proof (span_length (fun c => negb (Ascii.eqb c squote)) r) as Hlen.
  destruct (span _ r) as [body after]. simpl in Hlen.
  destruct after as [| x [| y rest']]; try discriminate.
  destruct (Ascii.eqb y "]"%char) eqn:Ey.
  2:{ destruct y as [[] [] [] [] [] [] [] []]; try discriminate Ey; discriminate. }
  apply Ascii.eqb_eq in Ey. subst y.
  destruct (isEmpty body); [discriminate |].
  intros H. inversion H; subst. simpl in *. lia.
Qed.

(** Rounds beyond the length of the text change nothing. *)
Lemma replaceQuoted_rounds (n m : nat) (s : string) :
  (String.length s <= n)%nat -> (String.length s <= m)%nat ->
  replaceQuoted n s = replaceQuoted m s.
Proof.
  revert m s.
  induction n as [| n IH]; intros m s Hn Hm.
  - destruct s; [| simpl in Hn; lia]. destruct m; reflexivity.
  - destruct s as [| c r]; [destruct m; reflexivity |].
    destruct m as [| m]; [simpl in Hm; lia |].
    simpl in Hn, Hm. cbn [replaceQuoted].
    destruct (matchQuotedAt (String c r)) as [[prop rest] |] eqn:E.
    + apply matchQuotedAt_shorter in E. simpl in E.
      f_equal. apply IH; lia.
    + f_equal. apply IH; lia.
Qed.

Lemma convertBody_match (s prop rest : string) :
  matchQuotedAt s = Some (prop, rest) ->
  convertBody s = replacement prop ++ convertBody rest.
Proof.
  intros E. unfold convertBody.
  pose proof (matchQuotedAt_shorter _ _ _ E) as Hlen.
  destruct s as [| c r]; [discriminate |].
  cbn [String.length replaceQuoted]. rewrite E.
  f_equal. apply replaceQuoted_rounds; simpl in *; lia.
Qed.

Lemma convertBody_skip (c : ascii) (r : string) :
  matchQuotedAt (String c r) = None ->
  convertBody (String c r) = String c (convertBody r).
Proof.
  intros E. unfold convertBody.
  cbn [String.length replaceQuoted]. rewrite E. reflexivity.
Qed.

Lemma matchQuotedAt_not_bracket (c : ascii) (r : string) :
  Ascii.eqb c "["%char = false -> matchQuotedAt (String c r) = None.
Proof.
  intros H. unfold matchQuotedAt.
  destruct c as [[] [] [] [] [] [] [] []]; try reflexivity; discriminate.
Qed.

Lemma isDigit_not_bracket (c : ascii) :
  isDigit c = true -> Ascii.eqb c "["%char = false.
Proof.
  destruct c as [[] [] [] [] [] [] [] []]; try reflexivity; discriminate.
Qed.

Lemma isDigit_not_quote (c : ascii) :
  isDigit c = true -> Ascii.eqb c squote = false.
Proof.
  destruct c as [[] [] [] [] [] [] [] []]; try reflexivity; discriminate.
Qed.

(** A run of digits is copied. *)
Lemma convertBody_digits (digits rest : string) :
  allChars isDigit digits = true ->
  convertBody (digits ++ rest) = digits ++ convertBody rest.
Proof.
  intros H. induction digits as [| c d IH]; simpl in *; [reflexivity |].
  apply andb_true_iff in H as [Hc Hd].
  rewrite convertBody_skip by (apply matchQuotedAt_not_bracket, isDigit_not_bracket, Hc).
  now rewrite IH.
Qed.

(** A bare step is copied. *)
Lemma convertBody_bare (digits rest : string) :
  isNumeric digits = true ->
  convertBody (render (Bare digits) ++ rest) = canonical (Bare digits) ++ convertBody rest.
Proof.
  unfold isNumeric. intros H. apply andb_true_iff in H as [Hne Hd].
  simpl. rewrite !append_assoc.
  destruct digits as [| c d]; [discriminate |].
  simpl in Hd. apply andb_true_iff in Hd as [Hc Hd].
  rewrite convertBody_skip.
  2:{ simpl. now rewrite (isDigit_not_quote c Hc). }
  change (String c d ++ "]" ++ rest) with (String c (d ++ String "]" rest)).
  rewrite convertBody_skip by (apply matchQuotedAt_not_bracket, isDigit_not_bracket, Hc).
  rewrite convertBody_digits by exact Hd.
  rewrite convertBody_skip by reflexivity.
  reflexivity.
Qed.

(** A quoted step is replaced. *)
Lemma convertBody_quoted (body rest : string) :
  recognised (Quoted body) = true ->
  convertBody (render (Quoted body) ++ rest) = canonical (Quoted body) ++ convertBody rest.
Proof.
  simpl. intros H. apply andb_true_iff in H as [Hne Hq].
  rewrite (convertBody_match _ body rest).
  - unfold replacement, isNumeric. reflexivity.
  - unfold matchQuotedAt.
    replace (Ascii.eqb squote squote) with true by reflexivity.
    rewrite append_assoc.
    rewrite (span_append _ body (String squote "]" ++ rest)); [| exact Hq | reflexivity].
    simpl. destruct (isEmpty body); [discriminate | reflexivity].
Qed.

Lemma convertBody_steps (steps : list Step) :
  forallb recognised steps = true ->
  convertBody (fold_right append "" (map render steps)) = canonicalText steps.
Proof.
  unfold canonicalText.
  induction steps as [| st steps IH]; intros H; [reflexivity |].
  simpl in H. apply andb_true_iff in H as [Hst Hsteps].
  cbn [map fold_right].
  destruct st as [body | digits].
  - rewrite convertBody_quoted by exact Hst. now rewrite IH.
  - rewrite convertBody_bare by exact Hst. now rewrite IH.
Qed.

(** What the conversion yields on recognised steps: the application's
    notation, without its first dot when a bracket follows it. *)
Lemma convertJsonPathToAppPath_steps (steps : list Step) :
  forallb recognised steps = true ->
  convertJsonPathToAppPath (text steps) =
    if startsWith (canonicalText steps) ".["
    then dropFirst (canonicalText steps)
    else canonicalText steps.
Proof.
  intros H. unfold convertJsonPathToAppPath, text.
  change (startsWith ("$" ++ fold_right append "" (map render steps)) "$") with true.
  change (dropFirst ("$" ++ fold_right append "" (map render steps)))
    with (fold_right append "" (map render steps)).
  cbv iota.
  now rewrite (convertBody_steps steps H).
Qed.

(** C7, as stated, fails. A quoted body with a single quote in it is not
    converted: the path [$['it's']] of the property [it's] comes out as
    [['it's']], not as [.it's]. *)
Lemma quoted_body_with_quote_not_converted :
  convertJsonPathToAppPath (text [Quoted Examples.its])
    = String "[" (String squote (Examples.its ++ String squote "]")) /\
  convertJsonPathToAppPath (text [Quoted Examples.its])
    <> canonicalText [Quoted Examples.its].
Proof. split; [reflexivity | vm_compute; discriminate]. Qed.

(** The path of a book title, in full. *)
Example convert_store_book_title :
  text [Quoted "store"; Quoted "book"; Bare "0"; Quoted "title"]
    = String "$" (String "[" (String squote ("store" ++ String squote
        ("][" ++ String squote ("book" ++ String squote
           ("][0][" ++ String squote ("title" ++ String squote "]"))))))) /\
  convertJsonPathToAppPath
    (text [Quoted "store"; Quoted "book"; Bare "0"; Quoted "title"])
  = ".store.book[0].title".
Proof. split; reflexivity. Qed.

End PathConversion.

(** ** The segments of a highlight path *)

Section PathSegments.
Import JsString DocumentViewer.

Lemma matchSegmentAt_shape (s m rest : string) :
  matchSegmentAt s = Some (m, rest) ->
  (indexMatch m \/ nameMatch m) /\ (String.length rest < String.length s)%nat.
Proof.
  unfold matchSegmentAt.
  destruct s as [| c r]; [discriminate |].
  destruct (isOpenBracket c) eqn:Ec.
  - pose proof (span_length isDigit r) as Hlen.
    pose proof (span_accepted isDigit r) as Hacc.
    destruct (span isDigit r) as [digits after]. simpl in Hlen, Hacc.
    destruct after as [| x rest']; [discriminate |].
    destruct (Ascii.eqb x "]"%char) eqn:Ex.
    2:{ destruct x as [[] [] [] [] [] [] [] []]; try discriminate Ex; discriminate. }
    apply Ascii.eqb_eq in Ex. subst x.
    destruct (isEmpty digits) eqn:Ed; [discriminate |].
    intros H. inversion H; subst. split.
    + left. exists digits.
      unfold isOpenBracket in Ec. apply Ascii.eqb_eq in Ec. subst c. auto.
    + simpl in *. lia.
  - pose proof (span_length isNameChar (String c r)) as Hlen.
    pose proof (span_accepted isNameChar (String c r)) as Hacc.
    destruct (span isNameChar (String c r)) as [name rest']. simpl fst in *. simpl snd in *.
    destruct (isEmpty name) eqn:En; [discriminate |].
    intros H. inversion H; subst. split.
    + right. split; assumption.
    + destruct m; [discriminate |]. simpl in *. lia.
Qed.

(** Rounds beyond the length of the path find no further match. *)
Lemma matchSegments_rounds (n k : nat) (s : string) :
  (String.length s <= n)%nat -> (String.length s <= k)%nat ->
  matchSegments n s = matchSegments k s.
Proof.
  revert k s.
  induction n as [| n IH]; intros k s Hn Hk.
  - destruct s; [| simpl in Hn; lia]. destruct k; reflexivity.
  - destruct s as [| c r]; [destruct k; reflexivity |].
    destruct k as [| k]; [simpl in Hk; lia |].
    simpl in Hn, Hk. cbn [matchSegments].
    destruct (matchSegmentAt (String c r)) as [[m rest] |] eqn:E.
    + apply matchSegmentAt_shape in E as [_ E]. simpl in E.
      f_equal. apply IH; lia.
    + apply IH; lia.
Qed.

Lemma removeChars_digits (digits : string) :
  allChars isDigit digits = true -> removeChars isBracket digits = digits.
Proof.
  induction digits as [| c d IH]; simpl; [reflexivity |].
  intros H. apply andb_true_iff in H as [Hc Hd].
  replace (isBracket c) with false.
  - now rewrite IH.
  - destruct c as [[] [] [] [] [] [] [] []]; try reflexivity; discriminate.
Qed.

Lemma removeChars_append (p : ascii -> bool) (a b : string) :
  removeChars p (a ++ b) = removeChars p a ++ removeChars p b.
Proof.
  induction a as [| c a IH]; simpl; [reflexivity |].
  destruct (p c); now rewrite IH.
Qed.

Lemma toSegment_shape (m : string) :
  indexMatch m \/ nameMatch m -> segmentShape (toSegment m) = true.
Proof.
  intros [[digits [Hm [Hne Hd]]] | [Hne Hall]].
  - subst m. unfold toSegment. simpl.
    rewrite removeChars_append, removeChars_digits by exact Hd.
    simpl. rewrite append_empty_r.
    unfold segmentShape. simpl. now rewrite Hne, Hd.
  - destruct m as [| c r]; [discriminate |].
    simpl in Hall. apply andb_true_iff in Hall as [Hc Hr].
    unfold toSegment.
    replace (startsWith (String c r) "[") with false.
    + unfold segmentShape. simpl. now rewrite Hc, Hr.
    + simpl. destruct c as [[] [] [] [] [] [] [] []]; try reflexivity; discriminate.
Qed.

Lemma matchSegments_shape (rounds : nat) (s : string) :
  Forall (fun m => indexMatch m \/ nameMatch m) (matchSegments rounds s).
Proof.
  revert s. induction rounds as [| k IH]; intros s; simpl; [constructor |].
  destruct s as [| c r]; [constructor |].
  destruct (matchSegmentAt (String c r)) as [[m rest] |] eqn:E.
  - constructor; [| apply IH]. now apply matchSegmentAt_shape in E.
  - apply IH.
Qed.

(** C8, as stated, fails. No path text is reported as malformed: adjacent
    and trailing separators are passed over and a bracket body that is
    not a number is read as a property, although the grammar accepts none
    of these texts. *)
Lemma malformed_paths_yield_segments :
  PathGrammar.accepts "a..b" = false /\
  pathSegmentsOf "a..b" = [mkSegment property "a"; mkSegment property "b"] /\
  PathGrammar.accepts "a.b." = false /\
  pathSegmentsOf "a.b." = [mkSegment property "a"; mkSegment property "b"] /\
  PathGrammar.accepts "a[x]" = false /\
  pathSegmentsOf "a[x]" = [mkSegment property "a"; mkSegment property "x"] /\
  highlightRange Examples.nestedText (Some "a..b") = Some (3, 3)%Z.
Proof. repeat split; reflexivity. Qed.

(** Every index segment is a non-empty run of digits and every property
    segment a non-empty run without dot or bracket. *)
Lemma pathSegmentsOf_segmentShape (highlightPath : string) :
  Forall (fun seg => segmentShape seg = true) (pathSegmentsOf highlightPath).
Proof.
  unfold pathSegmentsOf. apply Forall_map.
  eapply Forall_impl; [| apply matchSegments_shape].
  intros m. apply toSegment_shape.
Qed.

(** On the texts of the grammar the segments are the tokens. *)
Example pathSegmentsOf_store_books :
  PathGrammar.accepts "store.books[3].title" = true /\
  pathSegmentsOf "store.books[3].title" =
    [ mkSegment property "store"; mkSegment property "books";
      mkSegment index "3"; mkSegment property "title" ].
Proof. split; reflexivity. Qed.

End PathSegments.

(** ** From a path to a range of lines *)

Section LineRanges.
Import DocumentViewer.

(** C3. In the text of [{"a": {"b": 1}}], printed with two spaces of
    indentation, the path [a] is mapped to the lines 2 to 4, from the
    line that opens the value of [a] to the line that closes it, and the
    path [a.b] to line 3 alone. *)
Theorem highlightRange_nested :
  JsonUtils.formatJson Examples.nested = Examples.nestedText /\
  highlightRange Examples.nestedText (Some "a") = Some (2, 4)%Z /\
  highlightRange Examples.nestedText (Some "a.b") = Some (3, 3)%Z.
Proof. repeat split; reflexivity. Qed.

(** C4 does not hold at the path [a.c], whose last property is absent
    from the value of [a]: instead of nothing, the lines 2 to 4 of [a] are
    decorated. The branch for a property with a value over several lines
    records the start for every segment, not for the last one only. *)
Theorem highlightRange_absent_property :
  highlightRange Examples.nestedText (Some "a.c") = Some (2, 4)%Z.
Proof. reflexivity. Qed.

(** After an index segment the scan does keep the start for the last
    segment only: in the text of [[{"price":150},{"price":50}]] the path
    [[1].cost] decorates nothing, and the path [[0]] of the match of the
    price query decorates the first element. *)
Example highlightRange_after_index :
  highlightRange (JsonUtils.formatJson Examples.prices) (Some "[1].cost") = None /\
  highlightRange (JsonUtils.formatJson Examples.prices) (Some "[1]") = Some (5, 7)%Z /\
  highlightRange (JsonUtils.formatJson Examples.prices) (Some "[0]") = Some (2, 4)%Z /\
  highlightRange (JsonUtils.formatJson Examples.prices) (Some "[0].price") = Some (3, 3)%Z.
Proof. repeat split; reflexivity. Qed.

(** A path none of whose segments is found decorates nothing. *)
Example highlightRange_unknown_property :
  highlightRange Examples.nestedText (Some "c") = None /\
  highlightRange Examples.nestedText (Some "c.a") = None /\
  highlightRange Examples.nestedText None = None /\
  highlightRange Examples.nestedText (Some "") = None.
Proof. repeat split; reflexivity. Qed.

End LineRanges.

(** ** Compiling and running the conditions of the visual builder *)

Section VisualQueries.
Import JsString QueryTool.

Lemma quoted_differs (value : string) : quoted value <> value.
Proof.
  intros H. apply (f_equal String.length) in H.
  unfold quoted, dquote in H. simpl in H.
  rewrite length_append in H. simpl in H. lia.
Qed.

(** A comparison operator is neither [contains] nor [=~]. *)
Lemma comparison_not_pattern (op : string) :
  In op comparisonOperators ->
  String.eqb op "contains" = false /\ String.eqb op "=~" = false.
Proof.
  unfold comparisonOperators. simpl.
  intros [H | [H | [H | [H | [H | [H | []]]]]]]; subst op; split; reflexivity.
Qed.

(** What the code does with a literal. A condition with one of the six
    comparison operators is written [@.<propertyPath> <operator>
    <literal>], where the literal stands unquoted exactly when the host's
    conversion [Number] does not give NaN for it, or it is [true],
    [false] or [null], and stands in double quotes otherwise; a condition
    with [contains] is written [@.<propertyPath> =~ /<literal>/i]. *)
Theorem filterExpressionOf_literal (c : Condition) :
  (In (operator c) comparisonOperators ->
   exists literal,
     filterExpressionOf c = "@." ++ property c ++ " " ++ operator c ++ " " ++ literal /\
     (parsesAsNumber (value c) || isKeywordLiteral (value c) = true -> literal = value c) /\
     (parsesAsNumber (value c) || isKeywordLiteral (value c) = false ->
      literal = dquote ++ value c ++ dquote) /\
     (literal = value c <-> parsesAsNumber (value c) || isKeywordLiteral (value c) = true))
  /\
  (operator c = "contains" ->
   filterExpressionOf c = "@." ++ property c ++ " =~ /" ++ value c ++ "/i").
Proof.
  split.
  - intros Hop. destruct (comparison_not_pattern _ Hop) as [Hc Hr].
    exists (formattedValue (operator c) (value c)).
    unfold filterExpressionOf, formattedValue. rewrite Hc, Hr. simpl.
    split; [reflexivity |].
    destruct (parsesAsNumber (value c)); simpl.
    + repeat split; auto; discriminate.
    + destruct (isKeywordLiteral (value c)); simpl.
      * repeat split; auto; discriminate.
      * repeat split; auto; try discriminate.
        intros H. now apply quoted_differs in H.
  - intros Hop. unfold filterExpressionOf. rewrite Hop. reflexivity.
Qed.

Lemma filterExpressionOf_literal_witness :
  In (operator Examples.priceOver100) comparisonOperators /\
  exists literal,
    filterExpressionOf Examples.priceOver100 =
      "@." ++ property Examples.priceOver100 ++ " "
           ++ operator Examples.priceOver100 ++ " " ++ literal /\
    literal = "100".
Proof.
  assert (Hop : In (operator Examples.priceOver100) comparisonOperators).
  { simpl. tauto. }
  split; [exact Hop |].
  destruct (filterExpressionOf_literal Examples.priceOver100) as [Hcmp _].
  destruct (Hcmp Hop) as [literal [Hexpr [Hplain _]]].
  exists literal. split; [exact Hexpr |].
  apply Hplain. reflexivity.
Defined.

(** C2. The code breaks the quoting rule on the condition that the
    builder adds: its literal is the empty text, which is no numeral and
    none of [true], [false] and [null], and yet it is emitted unquoted,
    since the host's conversion reads the empty text as 0. The expression
    compiled is [$[?(@.<propertyPath> == )]] and not the one with the
    literal in double quotes. *)
Theorem new_condition_literal_unquoted (now : string) (availableProperties : list string) :
  exists c,
    addCondition now availableProperties [] = [c] /\
    value c = "" /\
    isNumeral (value c) = false /\
    isKeywordLiteral (value c) = false /\
    filterExpressionOf c = "@." ++ property c ++ " == " /\
    filterExpressionOf c <> "@." ++ property c ++ " == " ++ quoted (value c) /\
    generateJSONPathFromConditions (addCondition now availableProperties []) AND =
      "$[?(@." ++ property c ++ " == )]".
Proof.
  eexists. split; [reflexivity |]. cbn [value property].
  set (path := match availableProperties with first :: _ => first | [] => "" end).
  split; [reflexivity |]. split; [reflexivity |]. split; [reflexivity |].
  assert (Hexpr : filterExpressionOf
                    {| id := now; property := path; operator := "=="; value := "" |}
                  = "@." ++ path ++ " == ") by reflexivity.
  split; [exact Hexpr |]. split.
  - rewrite Hexpr. intros H. apply (f_equal String.length) in H.
    cbn [append String.length] in H. rewrite !length_append in H.
    cbn [String.length quoted dquote append] in H. lia.
  - unfold addCondition, generateJSONPathFromConditions. cbn [Datatypes.app map join].
    fold path. rewrite Hexpr. cbn [append]. now rewrite !append_assoc.
Qed.

(** How the literals of some conditions come out. *)
Example formattedValue_samples :
  map (formattedValue "==") ["100"; "-1.5"; "1e3"; "true"; "null"; "abc"; "12px"; "True"]
  = ["100"; "-1.5"; "1e3"; "true"; "null";
     dquote ++ "abc" ++ dquote; dquote ++ "12px" ++ dquote; dquote ++ "True" ++ dquote].
Proof. reflexivity. Qed.

(** Several conditions are joined by the connective and wrapped. *)
Lemma generateJSONPathFromConditions_join
      (c : Condition) (more : list Condition) (logicOperator : LogicOperator) :
  generateJSONPathFromConditions (c :: more) logicOperator =
    "$[?(" ++ join (match logicOperator with AND => " && " | OR => " || " end)
                   (map filterExpressionOf (c :: more)) ++ ")]".
Proof. reflexivity. Qed.

Lemma restricted_agrees : FilterFragment.agrees FilterFragment.restricted.
Proof.
  intros path json found H. unfold FilterFragment.restricted. now rewrite H.
Qed.

(** C1. The condition [price > 100] under AND compiles to exactly
    [$[?(@.price > 100)]], and running that expression on
    [[{"price":150},{"price":50}]] gives exactly one match: the first
    element, at the path [[0]]. *)
Theorem price_query_one_match
        (JSONPath : string -> JsonValue -> Outcome (list (JsonValue * string))) :
  FilterFragment.agrees JSONPath ->
  generateJSONPathFromConditions [Examples.priceOver100] AND = "$[?(@.price > 100)]" /\
  executeVisualQuery JSONPath "" Examples.prices [Examples.priceOver100] AND =
    {| success := true;
       data := Some [Examples.expensive];
       error := None;
       count := Some 1%nat;
       items := Some [ {| item_value := Examples.expensive; item_path := "[0]" |} ] |}.
Proof.
  intros Hagree.
  assert (Hq : generateJSONPathFromConditions [Examples.priceOver100] AND
               = "$[?(@.price > 100)]") by reflexivity.
  split; [exact Hq |].
  unfold executeVisualQuery, executeQueryWithPath. rewrite Hq.
  rewrite (Hagree "$[?(@.price > 100)]" Examples.prices
                  [(Examples.expensive, "$[0]")]) by reflexivity.
  reflexivity.
Qed.

Lemma price_query_one_match_witness :
  FilterFragment.agrees FilterFragment.restricted /\
  generateJSONPathFromConditions [Examples.priceOver100] AND = "$[?(@.price > 100)]" /\
  executeVisualQuery FilterFragment.restricted "" Examples.prices
                     [Examples.priceOver100] AND =
    {| success := true;
       data := Some [Examples.expensive];
       error := None;
       count := Some 1%nat;
       items := Some [ {| item_value := Examples.expensive; item_path := "[0]" |} ] |}.
Proof.
  split; [exact restricted_agrees |].
  apply (price_query_one_match FilterFragment.restricted restricted_agrees).
Defined.

End VisualQueries.

(** ** Values, schemas and skeletons *)

Section DeepInduction.

Variable P : JsonValue -> Prop.
Hypothesis Hnull : P JNull.
Hypothesis Hbool : forall b, P (JBool b).
Hypothesis Hnumber : forall n, P (JNumber n).
Hypothesis Hstring : forall s, P (JString s).
Hypothesis Harray : forall items, Forall P items -> P (JArray items).
Hypothesis Hobject :
  forall members, Forall (fun kv => P (snd kv)) members -> P (JObject members).

(** Induction on a value with the hypothesis for every element and for
    every member. *)
Lemma JsonValue_deep_ind : forall v, P v.
Proof.
  fix IH 1. intros v. destruct v as [| b | n | s | items | members].
  - exact Hnull.
  - apply Hbool.
  - apply Hnumber.
  - apply Hstring.
  - apply Harray.
    revert items. fix go 1. intros [| x r].
    + constructor.
    + constructor; [apply IH | apply go].
  - apply Hobject.
    revert members. fix go 1. intros [| [k x] r].
    + constructor.
    + constructor; [apply IH | apply go].
Qed.

End DeepInduction.

Section SchemaShape.
Import JsonUtils.

(** X1. The default value of a type validates against that type and
    against no other. *)
Theorem validateType_getDefaultValue (type expectedType : PropertyType) :
  validateType (getDefaultValue type) expectedType = true <-> type = expectedType.
Proof.
  unfold validateType. rewrite inferType_getDefaultValue.
  destruct type, expectedType; split; intros H; try reflexivity; discriminate.
Qed.



End SchemaShape.

Section Skeletons.
Import JsonUtils.

Lemma precedes_all_has_false (k : string) (acc : JsonObject) :
  forallb (fun k' => JsObject.precedes k' k) (JsObject.keys acc) = true ->
  JsObject.has k acc = false.
Proof.
  intros H. apply not_In_has_false. intros Hin.
  rewrite forallb_forall in H. specialize (H k Hin).
  unfold JsObject.precedes in H. rewrite String.eqb_refl in H. discriminate.
Qed.

Lemma insertIndex_after_all (k : string) (v : JsonValue) (acc : JsonObject) :
  JsObject.isArrayIndex k = true ->
  forallb (fun k' => JsObject.precedes k' k) (JsObject.keys acc) = true ->
  JsObject.insertIndex k v acc = (acc ++ [(k, v)])%list.
Proof.
  intros Hk. induction acc as [| [k' v'] r IH]; simpl; [reflexivity |].
  intros H. apply andb_true_iff in H as [Hp Hr].
  unfold JsObject.precedes in Hp. rewrite Hk in Hp. simpl in Hp.
  apply andb_true_iff in Hp as [_ Hp]. rewrite Hp.
  now rewrite (IH Hr).
Qed.

(** A key that comes after all the keys of an object is added at the end. *)
Lemma set_after_all (k : string) (v : JsonValue) (acc : JsonObject) :
  forallb (fun k' => JsObject.precedes k' k) (JsObject.keys acc) = true ->
  JsObject.set k v acc = (acc ++ [(k, v)])%list.
Proof.
  intros H. unfold JsObject.set.
  rewrite (precedes_all_has_false k acc H).
  destruct (JsObject.isArrayIndex k) eqn:Hk; [| reflexivity].
  now apply insertIndex_after_all.
Qed.

Lemma enumerated_before (l r : list string) (k : string) :
  JsObject.enumerated (l ++ k :: r) = true ->
  forallb (fun k' => JsObject.precedes k' k) l = true.
Proof.
  induction l as [| a l IH]; simpl; [reflexivity |].
  intros H. apply andb_true_iff in H as [Ha Hl].
  rewrite forallb_app in Ha. apply andb_true_iff in Ha as [_ Ha].
  simpl in Ha. apply andb_true_iff in Ha as [Ha _].
  now rewrite Ha, (IH Hl).
Qed.

(** Assigning properties whose names continue the enumeration of an
    object appends them one after the other. *)
Lemma fold_set_enumerated (f : PropertySchema -> JsonValue)
      (props : list PropertySchema) (acc : JsonObject) :
  JsObject.enumerated (JsObject.keys acc ++ map ps_name props) = true ->
  fold_left (fun obj p => JsObject.set (ps_name p) (f p) obj) props acc =
    (acc ++ map (fun p => (ps_name p, f p)) props)%list.
Proof.
  revert acc. induction props as [| p props IH]; intros acc H; simpl.
  - now rewrite app_nil_r.
  - simpl in H.
    rewrite (set_after_all _ _ _ (enumerated_before _ _ _ H)).
    rewrite IH.
    + now rewrite <- app_assoc.
    + unfold JsObject.keys in *. rewrite map_app. simpl.
      now rewrite <- app_assoc.
Qed.

(** Assigning properties with distinct new names adds one entry each. *)
Lemma fold_set_Permutation (f : PropertySchema -> JsonValue)
      (props : list PropertySchema) (acc : JsonObject) :
  NoDup (map ps_name props) ->
  (forall p, In p props -> ~ In (ps_name p) (JsObject.keys acc)) ->
  Permutation
    (fold_left (fun obj p => JsObject.set (ps_name p) (f p) obj) props acc)
    (acc ++ map (fun p => (ps_name p, f p)) props).
Proof.
  revert acc.
  induction props as [| p props IH]; intros acc Hnd Hfresh; simpl.
  - rewrite app_nil_r. reflexivity.
  - inversion Hnd as [| x l Hnotin Hnd']; subst.
    assert (Hp : JsObject.has (ps_name p) acc = false).
    { apply not_In_has_false, Hfresh. now left. }
    pose proof (set_new_Permutation (ps_name p) (f p) acc Hp) as Hset.
    rewrite IH.
    + rewrite Hset. simpl. apply Permutation_middle.
    + exact Hnd'.
    + intros q Hq Hin.
      unfold JsObject.keys in Hin.
      apply (Permutation_in _ (Permutation_map fst Hset)) in Hin.
      simpl in Hin. destruct Hin as [Heq | Hin].
      * apply Hnotin. rewrite Heq. now apply in_map.
      * apply (Hfresh q); [now right | exact Hin].
Qed.

Lemma inferType_nestedDefaultValue (prop : PropertySchema) :
  inferType (fst (nestedDefaultValue prop)) = ps_type prop.
Proof.
  destruct prop as [name type required itemType [nested |]];
    destruct type; reflexivity.
Qed.

(** Without a property named [__proto__] at its top the skeleton with
    nesting is made of ordinary assignments. *)
Lemma createDefaultObjectWithNesting_ordinary (schema : ObjectSchema) :
  ~ In "__proto__" (map ps_name (properties schema)) ->
  createDefaultObjectWithNesting schema =
    fold_left (fun obj p => JsObject.set (ps_name p) (fst (nestedDefaultValue p)) obj)
              (properties schema) [].
Proof.
  intros Hno. unfold createDefaultObjectWithNesting.
  now rewrite (fold_assign_ordinary (fun p => fst (nestedDefaultValue p))
                                    (fun p => snd (nestedDefaultValue p))) by exact Hno.
Qed.

(** X3. For a schema whose properties have distinct names, none of them
    [__proto__], the skeleton with nesting has, once a schema is inferred
    from it again, the properties of the original schema, each with its
    original type tag. *)
Theorem nested_skeleton_keeps_type_tags (schema : ObjectSchema) :
  NoDup (map ps_name (properties schema)) ->
  ~ In "__proto__" (map ps_name (properties schema)) ->
  Permutation (typeTags (inferObjectSchema (createDefaultObjectWithNesting schema)))
              (typeTags schema).
Proof.
  intros Hnd Hno.
  rewrite typeTags_inferObjectSchema.
  rewrite (createDefaultObjectWithNesting_ordinary schema Hno).
  rewrite (Permutation_map _ (fold_set_Permutation (fun p => fst (nestedDefaultValue p))
                                (properties schema) [] Hnd (fun _ _ H => H))).
  simpl. unfold typeTags. rewrite map_map.
  erewrite map_ext; [reflexivity |].
  intros p. simpl. now rewrite inferType_nestedDefaultValue.
Qed.

Lemma nested_skeleton_keeps_type_tags_witness :
  NoDup (map ps_name (properties (inferObjectSchema exampleProduct))) /\
  ~ In "__proto__" (map ps_name (properties (inferObjectSchema exampleProduct))) /\
  Permutation
    (typeTags (inferObjectSchema
                 (createDefaultObjectWithNesting (inferObjectSchema exampleProduct))))
    (typeTags (inferObjectSchema exampleProduct)).
Proof.
  assert (Hnd : NoDup (map ps_name (properties (inferObjectSchema exampleProduct)))).
  { simpl. repeat constructor; simpl; intuition discriminate. }
  assert (Hno : ~ In "__proto__"
                     (map ps_name (properties (inferObjectSchema exampleProduct)))).
  { simpl. intuition discriminate. }
  split; [exact Hnd |]. split; [exact Hno |].
  apply (nested_skeleton_keeps_type_tags (inferObjectSchema exampleProduct) Hnd Hno).
Defined.

(** The names of the properties inferred from an object are its keys. *)
Lemma inferProperties_names (members : list (string * JsonValue)) :
  map ps_name (inferProperties (JObject members)) = map fst members.
Proof.
  cbn [inferProperties]. rewrite map_map. apply map_ext. intros [k x]. reflexivity.
Qed.

Lemma protoFree_names (members : list (string * JsonValue)) :
  protoFree (JObject members) = true -> ~ In "__proto__" (map fst members).
Proof.
  cbn [protoFree]. rewrite forallb_forall. intros H Hin.
  apply in_map_iff in Hin as [[k x] [Hk Hin]]. simpl in Hk. subst k.
  specialize (H _ Hin). simpl in H. discriminate H.
Qed.

Lemma nestedDefaultValue_inferred (members : list (string * JsonValue)) :
  Forall (fun kv =>
            wellEnumerated (snd kv) = true -> protoFree (snd kv) = true ->
            forall nested, snd kv = JObject nested ->
              JsObject.own
                (fold_left (fun obj p =>
                              JsObject.assign (ps_name p) (fst (nestedDefaultValue p))
                                              (snd (nestedDefaultValue p)) obj)
                           (inferProperties (snd kv)) JsObject.emptyObject) =
              map (fun e => (fst e, skeletonOf (snd e))) nested)
         members ->
  forallb (fun kv => wellEnumerated (snd kv)) members = true ->
  protoFree (JObject members) = true ->
  map (fun p => (ps_name p, fst (nestedDefaultValue p))) (inferProperties (JObject members)) =
  map (fun kv => (fst kv, skeletonOf (snd kv))) members.
Proof.
  intros IH Hall Hfree. cbn [inferProperties]. rewrite map_map.
  apply map_ext_in. intros [k x] Hin.
  rewrite Forall_forall in IH. specialize (IH (k, x) Hin). simpl in IH.
  rewrite forallb_forall in Hall. specialize (Hall (k, x) Hin). simpl in Hall.
  cbn [protoFree] in Hfree. rewrite forallb_forall in Hfree.
  specialize (Hfree (k, x) Hin). simpl in Hfree.
  apply andb_true_iff in Hfree as [_ Hfree].
  destruct x as [| b | n | s | [| first rest] | nested]; try reflexivity.
  cbn [fst snd inferType ps_name nestedDefaultValue skeletonOf].
  f_equal. f_equal. exact (IH Hall Hfree nested eq_refl).
Qed.

Lemma skeleton_of_inferred (v : JsonValue) :
  wellEnumerated v = true -> protoFree v = true ->
  forall members, v = JObject members ->
    JsObject.own
      (fold_left (fun obj p =>
                    JsObject.assign (ps_name p) (fst (nestedDefaultValue p))
                                    (snd (nestedDefaultValue p)) obj)
                 (inferProperties v) JsObject.emptyObject) =
    map (fun kv => (fst kv, skeletonOf (snd kv))) members.
Proof.
  induction v as [| b | n | s | items IH | members IH] using JsonValue_deep_ind;
    intros Hwf Hfree obj Hv; try discriminate.
  inversion Hv; subst obj. clear Hv.
  pose proof (protoFree_names members Hfree) as Hno.
  rewrite <- inferProperties_names in Hno.
  rewrite (fold_assign_ordinary (fun p => fst (nestedDefaultValue p))
                                (fun p => snd (nestedDefaultValue p))) by exact Hno.
  cbn [JsObject.own JsObject.emptyObject].
  cbn [wellEnumerated] in Hwf. apply andb_true_iff in Hwf as [Henum Hall].
  rewrite (fold_set_enumerated (fun p => fst (nestedDefaultValue p))).
  - simpl app. now apply nestedDefaultValue_inferred.
  - simpl app. rewrite inferProperties_names. exact Henum.
Qed.

(** X4. For an object whose keys, at every level, are in enumeration
    order (as in every parsed document) and none of whose objects has a
    key [__proto__], the skeleton with nesting built from its inferred
    schema is the skeleton of the object itself: the same keys in the
    same order, nested objects treated likewise, arrays emptied, every
    other value replaced by the default of its type. *)
Theorem createDefaultObjectWithNesting_inferred (obj : JsonObject) :
  wellEnumerated (JObject obj) = true ->
  protoFree (JObject obj) = true ->
  JObject (createDefaultObjectWithNesting (inferObjectSchema obj)) = skeletonOf (JObject obj).
Proof.
  intros Hwf Hfree. unfold createDefaultObjectWithNesting.
  change (properties (inferObjectSchema obj)) with (inferProperties (JObject obj)).
  now rewrite (skeleton_of_inferred (JObject obj) Hwf Hfree obj eq_refl).
Qed.

Lemma createDefaultObjectWithNesting_inferred_witness :
  wellEnumerated (JObject exampleProduct) = true /\
  protoFree (JObject exampleProduct) = true /\
  JObject (createDefaultObjectWithNesting (inferObjectSchema exampleProduct))
    = skeletonOf (JObject exampleProduct).
Proof.
  split; [reflexivity |]. split; [reflexivity |].
  apply (createDefaultObjectWithNesting_inferred exampleProduct); reflexivity.
Defined.

(** X5. For an object whose keys are in enumeration order, none of them
    [__proto__], the flat skeleton built from its inferred schema has the
    keys of the object in the same order, each with the default of the
    type of its value; the schema inferred from the skeleton then lists
    the same names and type tags in the same order as the schema of the
    object. *)
Theorem createDefaultObject_inferred (obj : JsonObject) :
  JsObject.enumerated (JsObject.keys obj) = true ->
  ~ In "__proto__" (JsObject.keys obj) ->
  createDefaultObject (inferObjectSchema obj) =
    map (fun kv => (fst kv, getDefaultValue (inferType (snd kv)))) obj
  /\ typeTags (inferObjectSchema (createDefaultObject (inferObjectSchema obj))) =
     typeTags (inferObjectSchema obj).
Proof.
  intros Henum Hno.
  assert (Hskel : createDefaultObject (inferObjectSchema obj) =
                  map (fun kv => (fst kv, getDefaultValue (inferType (snd kv)))) obj).
  { rewrite createDefaultObject_ordinary by now rewrite inferObjectSchema_names.
    rewrite (fold_set_enumerated (fun p => getDefaultValue (ps_type p))).
    - simpl. rewrite map_map. apply map_ext. intros [k x]. reflexivity.
    - simpl app. rewrite inferObjectSchema_names. exact Henum. }
  split; [exact Hskel |].
  rewrite Hskel, !typeTags_inferObjectSchema, map_map.
  apply map_ext. intros [k x]. simpl. now rewrite inferType_getDefaultValue.
Qed.

Lemma createDefaultObject_inferred_witness :
  JsObject.enumerated (JsObject.keys exampleProduct) = true /\
  ~ In "__proto__" (JsObject.keys exampleProduct) /\
  createDefaultObject (inferObjectSchema exampleProduct) =
    map (fun kv => (fst kv, getDefaultValue (inferType (snd kv)))) exampleProduct
  /\ typeTags (inferObjectSchema (createDefaultObject (inferObjectSchema exampleProduct))) =
     typeTags (inferObjectSchema exampleProduct).
Proof.
  assert (Hno : ~ In "__proto__" (JsObject.keys exampleProduct)).
  { simpl. intuition discriminate. }
  split; [reflexivity |]. split; [exact Hno |].
  apply (createDefaultObject_inferred exampleProduct); [reflexivity | exact Hno].
Defined.

End Skeletons.

(** ** Identifying labels *)

Section Identifiers.
Import JsonUtils.

Lemma get_In (k : string) (o : JsonObject) (v : JsonValue) :
  JsObject.get k o = Some v -> In (k, v) o.
Proof.
  induction o as [| [k' v'] r IH]; simpl; [discriminate |].
  destruct (String.eqb k' k) eqn:E.
  - apply String.eqb_eq in E. subst k'. intros H. inversion H. now left.
  - intros H. right. now apply IH.
Qed.

Lemma In_get (k : string) (o : JsonObject) (v : JsonValue) :
  NoDup (JsObject.keys o) -> In (k, v) o -> JsObject.get k o = Some v.
Proof.
  induction o as [| [k' v'] r IH]; simpl; [tauto |].
  intros Hnd [Heq | Hin].
  - inversion Heq; subst. now rewrite String.eqb_refl.
  - inversion Hnd as [| x l Hnotin Hnd']; subst.
    destruct (String.eqb k' k) eqn:E.
    + apply String.eqb_eq in E. subst k'.
      exfalso. apply Hnotin. change k with (fst (k, v)). now apply in_map.
    + now apply IH.
Qed.

Lemma firstPrimitive_Some (o : JsonObject) (k text : string) :
  firstPrimitive o = Some (k, text) ->
  exists v, In (k, v) o /\ primitiveText v = Some text.
Proof.
  induction o as [| [k' v'] r IH]; simpl; [discriminate |].
  destruct (primitiveText v') as [t |] eqn:E.
  - intros H. inversion H; subst. exists v'. split; [now left | exact E].
  - intros H. destruct (IH H) as [v [Hin Hv]]. exists v. split; [now right | exact Hv].
Qed.

Lemma firstPrimitive_None (o : JsonObject) :
  firstPrimitive o = None <-> Forall (fun kv => primitiveText (snd kv) = None) o.
Proof.
  induction o as [| [k v] r IH]; simpl.
  - split; [constructor | reflexivity].
  - destruct (primitiveText v) as [t |] eqn:E.
    + split; [discriminate |]. intros H. inversion H; subst. simpl in *. congruence.
    + rewrite IH. split.
      * intros H. now constructor.
      * intros H. now inversion H.
Qed.

Lemma firstIdentifier_Some (keys : list string) (o : JsonObject) (k text : string) :
  firstIdentifier keys o = Some (k, text) ->
  exists v, JsObject.get k o = Some v /\ primitiveText v = Some text.
Proof.
  induction keys as [| key rest IH]; simpl; [discriminate |].
  destruct (JsObject.get key o) as [v |] eqn:Eget; [| exact IH].
  destruct (primitiveText v) as [t |] eqn:Et; [| exact IH].
  intros H. inversion H; subst. now exists v.
Qed.

Lemma firstIdentifier_no_primitive (keys : list string) (o : JsonObject) :
  Forall (fun kv => primitiveText (snd kv) = None) o ->
  firstIdentifier keys o = None.
Proof.
  intros Hall. induction keys as [| key rest IH]; simpl; [reflexivity |].
  destruct (JsObject.get key o) as [v |] eqn:Eget; [| exact IH].
  apply get_In in Eget. rewrite Forall_forall in Hall.
  specialize (Hall (key, v) Eget). simpl in Hall. now rewrite Hall.
Qed.

Lemma firstIdentifier_app (l1 l2 : list string) (o : JsonObject) :
  firstIdentifier (l1 ++ l2) o =
    match firstIdentifier l1 o with
    | Some r => Some r
    | None => firstIdentifier l2 o
    end.
Proof.
  induction l1 as [| key rest IH]; simpl; [reflexivity |].
  destruct (JsObject.get key o) as [v |]; [| exact IH].
  destruct (primitiveText v); [reflexivity | exact IH].
Qed.

Lemma firstIdentifier_miss (l : list string) (o : JsonObject) (k : string) :
  firstIdentifier l o = None -> In k l -> firstIdentifier [k] o = None.
Proof.
  induction l as [| key rest IH]; simpl; [tauto |].
  destruct (JsObject.get key o) as [v |] eqn:Eget.
  - destruct (primitiveText v) eqn:Et; [discriminate |].
    intros H [Heq | Hin]; [subst key; now rewrite Eget, Et | now apply IH].
  - intros H [Heq | Hin]; [subst key; now rewrite Eget | now apply IH].
Qed.

(** A name that is listed a second time adds nothing. *)
Lemma firstIdentifier_repeated (l r : list string) (k : string) (o : JsonObject) :
  In k l -> firstIdentifier (l ++ k :: r) o = firstIdentifier (l ++ r) o.
Proof.
  intros Hin. rewrite !firstIdentifier_app.
  destruct (firstIdentifier l o) as [hit |] eqn:E; [reflexivity |].
  change (k :: r) with ([k] ++ r)%list. rewrite firstIdentifier_app.
  now rewrite (firstIdentifier_miss l o k E Hin).
Qed.

(** The two lists of common names find the same property. *)
Lemma firstIdentifier_same_lists (o : JsonObject) :
  firstIdentifier identifierKeys o = firstIdentifier identifierKeyNames o.
Proof.
  set (front := firstn 16 identifierKeys).
  set (back := skipn 18 identifierKeys).
  change identifierKeys with (front ++ "sku" :: "SKU" :: back)%list.
  change identifierKeyNames with (front ++ back)%list.
  rewrite firstIdentifier_repeated by (simpl; tauto).
  rewrite firstIdentifier_repeated by (simpl; tauto).
  reflexivity.
Qed.

(** X6. An object has no identifier exactly when none of its values is a
    string or a number. *)
Theorem getObjectIdentifier_None (obj : JsonObject) :
  getObjectIdentifier obj = None <->
  Forall (fun kv => primitiveText (snd kv) = None) obj.
Proof.
  unfold getObjectIdentifier, JsObject.entries. split.
  - destruct (firstIdentifier identifierKeys obj) as [[k t] |]; [discriminate |].
    destruct (firstPrimitive obj) as [[k t] |] eqn:E; [discriminate |].
    intros _. now apply firstPrimitive_None.
  - intros Hall.
    rewrite (firstIdentifier_no_primitive _ _ Hall).
    apply firstPrimitive_None in Hall. now rewrite Hall.
Qed.

(** X7. The key reported by [getIdentifierKeyName] is the key whose value
    [getObjectIdentifier] reports: on an object with distinct keys either
    both find nothing, or the one names a key of the object and the other
    gives the text of the string or number stored under that key. *)
Theorem identifier_key_and_text_agree (obj : JsonObject) :
  NoDup (JsObject.keys obj) ->
  match getIdentifierKeyName obj, getObjectIdentifier obj with
  | Some key, Some text =>
      exists value, JsObject.get key obj = Some value /\ primitiveText value = Some text
  | None, None => True
  | _, _ => False
  end.
Proof.
  intros Hnd. unfold getIdentifierKeyName, getObjectIdentifier, JsObject.entries.
  rewrite <- firstIdentifier_same_lists.
  destruct (firstIdentifier identifierKeys obj) as [[k t] |] eqn:E.
  - now apply firstIdentifier_Some in E.
  - destruct (firstPrimitive obj) as [[k t] |] eqn:Ep; simpl; [| exact I].
    apply firstPrimitive_Some in Ep as [v [Hin Hv]].
    exists v. split; [now apply In_get | exact Hv].
Qed.

Lemma identifier_key_and_text_agree_witness :
  NoDup (JsObject.keys exampleUnnamed) /\
  getIdentifierKeyName exampleUnnamed = Some "colour" /\
  getObjectIdentifier exampleUnnamed = Some "red" /\
  match getIdentifierKeyName exampleProduct, getObjectIdentifier exampleProduct with
  | Some key, Some text =>
      exists value,
        JsObject.get key exampleProduct = Some value /\ primitiveText value = Some text
  | None, None => True
  | _, _ => False
  end.
Proof.
  assert (Hnd : NoDup (JsObject.keys exampleProduct)).
  { simpl. repeat constructor; simpl; intuition discriminate. }
  split; [simpl; repeat constructor; simpl; intuition discriminate |].
  split; [reflexivity |]. split; [reflexivity |].
  exact (identifier_key_and_text_agree exampleProduct Hnd).
Defined.

End Identifiers.

(** ** Document statistics *)

Section Statistics.
Import App.

Lemma list_sum_le {A : Type} (f g : A -> nat) (l : list A) :
  Forall (fun x => f x <= g x)%nat l ->
  (list_sum (map f l) <= list_sum (map g l))%nat.
Proof. induction 1; simpl; lia. Qed.

Lemma list_sum_add {A : Type} (f g : A -> nat) (l : list A) :
  list_sum (map (fun x => f x + g x)%nat l) = (list_sum (map f l) + list_sum (map g l))%nat.
Proof. induction l; simpl; lia. Qed.

Lemma list_sum_succ {A : Type} (f : A -> nat) (l : list A) :
  list_sum (map (fun x => S (f x)) l) = (length l + list_sum (map f l))%nat.
Proof. induction l; simpl; lia. Qed.

(** X8. The counters shown in the header are consistent with each other
    on every document: objects and arrays together are at most as many as
    the nodes, and the properties are fewer than the nodes. *)
Theorem document_stats_consistent (data : JsonValue) :
  (countObjects data + countArrays data <= countNodes data)%nat /\
  (countProperties data < countNodes data)%nat.
Proof.
  induction data as [| b | n | s | items IH | members IH] using JsonValue_deep_ind;
    simpl; try lia.
  - assert (H1 := list_sum_le (fun x => countObjects x + countArrays x)%nat countNodes items).
    assert (H2 := list_sum_le (fun x => S (countProperties x)) countNodes items).
    rewrite list_sum_add in H1. rewrite list_sum_succ in H2.
    split.
    + assert (Hle : (list_sum (map countObjects items) + list_sum (map countArrays items)
                     <= list_sum (map countNodes items))%nat).
      { apply H1. eapply Forall_impl; [| exact IH]. intros x [Hx _]. exact Hx. }
      lia.
    + assert (Hle : (length items + list_sum (map countProperties items)
                     <= list_sum (map countNodes items))%nat).
      { apply H2. eapply Forall_impl; [| exact IH]. intros x [_ Hx]. exact Hx. }
      lia.
  - assert (H1 := list_sum_le (fun kv => countObjects (snd kv) + countArrays (snd kv))%nat
                              (fun kv => countNodes (snd kv)) members).
    assert (H2 := list_sum_le (fun kv => S (countProperties (snd kv)))
                              (fun kv => countNodes (snd kv)) members).
    rewrite list_sum_add in H1. rewrite list_sum_succ in H2.
    split.
    + assert (Hle : (list_sum (map (fun kv => countObjects (snd kv)) members)
                     + list_sum (map (fun kv => countArrays (snd kv)) members)
                     <= list_sum (map (fun kv => countNodes (snd kv)) members))%nat).
      { apply H1. eapply Forall_impl; [| exact IH]. intros x [Hx _]. exact Hx. }
      lia.
    + assert (Hle : (length members
                     + list_sum (map (fun kv => countProperties (snd kv)) members)
                     <= list_sum (map (fun kv => countNodes (snd kv)) members))%nat).
      { apply H2. eapply Forall_impl; [| exact IH]. intros x [_ Hx]. exact Hx. }
      lia.
Qed.

End Statistics.

(** ** Editing, undoing and redoing *)

Section HistoryOperations.
Import App.

Variable JSON_parse : string -> Outcome JsonValue.
Variable JSON_stringify : JsonValue -> string.

Lemma at_index_nat {A : Type} (l : list A) (i : nat) :
  at_index l (Z.of_nat i) = nth_error l i.
Proof.
  unfold at_index.
  replace (Z.of_nat i <? 0)%Z with false by (symmetry; apply Z.ltb_ge; lia).
  now rewrite Nat2Z.id.
Qed.

Lemma at_index_Some_range {A : Type} (l : list A) (i : Z) (x : A) :
  at_index l i = Some x ->
  (0 <= i < Z.of_nat (length l))%Z /\ nth_error l (Z.to_nat i) = Some x.
Proof.
  unfold at_index. destruct (i <? 0)%Z eqn:E; [discriminate |].
  apply Z.ltb_ge in E. intros H. split; [| exact H].
  assert (Hlt : (Z.to_nat i < length l)%nat).
  { apply nth_error_Some. congruence. }
  lia.
Qed.

(** The history after an edit: what the cursor had behind it is dropped,
    the snapshot is appended and the most recent entries are kept. *)
Lemma handleDocumentUpdate_history (newData : JsonValue) (now : Z) (st : AppState) :
  versionHistory (handleDocumentUpdate JSON_stringify newData now st) =
    mostRecent MAX_HISTORY_LENGTH
      ((if (0 <=? currentVersionIndex st)%Z
        then firstn (Z.to_nat (currentVersionIndex st + 1)) (versionHistory st)
        else []) ++ [snapshotOf JSON_stringify (newData, now)])
  /\ cursorAtEnd (handleDocumentUpdate JSON_stringify newData now st).
Proof.
  unfold cursorAtEnd. simpl.
  set (updated := ((if (0 <=? currentVersionIndex st)%Z then _ else _) ++ _)%list).
  split; [| reflexivity].
  destruct (MAX_HISTORY_LENGTH <? length updated)%nat eqn:E.
  - reflexivity.
  - apply Nat.ltb_ge in E. now rewrite mostRecent_short.
Qed.

Lemma nth_error_mostRecent {A : Type} (n : nat) (l : list A) (i : nat) :
  nth_error (mostRecent n l) i = nth_error l (length l - n + i).
Proof. unfold mostRecent. apply nth_error_skipn. Qed.

(** X9. After an edit, in whatever state it is made, the history holds at
    least one and at most [MAX_HISTORY_LENGTH] entries, the cursor is on
    the last of them, and that entry is the snapshot of the edit. *)
Theorem handleDocumentUpdate_bounded (newData : JsonValue) (now : Z) (st : AppState) :
  let st' := handleDocumentUpdate JSON_stringify newData now st in
  (1 <= length (versionHistory st') <= MAX_HISTORY_LENGTH)%nat /\
  currentVersionIndex st' = (Z.of_nat (length (versionHistory st')) - 1)%Z /\
  at_index (versionHistory st') (currentVersionIndex st') =
    Some (snapshotOf JSON_stringify (newData, now)).
Proof.
  intros st'.
  destruct (handleDocumentUpdate_history newData now st) as [Hh Hc].
  fold st' in Hh, Hc. unfold cursorAtEnd in Hc.
  set (kept := if (0 <=? currentVersionIndex st)%Z then _ else _) in Hh.
  assert (Hlen : length (versionHistory st')
                 = Nat.min MAX_HISTORY_LENGTH (length kept + 1)).
  { rewrite Hh, length_mostRecent, length_app. reflexivity. }
  unfold MAX_HISTORY_LENGTH in *.
  split; [lia |]. split; [exact Hc |].
  rewrite Hc.
  replace (Z.of_nat (length (versionHistory st')) - 1)%Z
    with (Z.of_nat (length (versionHistory st') - 1)) by lia.
  rewrite at_index_nat, Hh, nth_error_mostRecent, <- Hh, Hlen, length_app.
  simpl length.
  replace (length kept + 1 - 50 + (Nat.min 50 (length kept + 1) - 1))%nat
    with (length kept) by lia.
  rewrite nth_error_app2 by lia. now rewrite Nat.sub_diag.
Qed.

(** X10. After an edit there is nothing to redo: the entries that lay
    behind the cursor are gone and redo leaves the state as it is. *)
Theorem handleRedo_after_edit (newData : JsonValue) (now : Z) (st : AppState) :
  handleRedo JSON_parse (handleDocumentUpdate JSON_stringify newData now st) =
    Returned (handleDocumentUpdate JSON_stringify newData now st).
Proof.
  destruct (handleDocumentUpdate_history newData now st) as [_ Hc].
  unfold cursorAtEnd in Hc. unfold handleRedo.
  now rewrite Hc, Z.ltb_irrefl.
Qed.

(** X11. Undo after an edit goes back to the snapshot that was current
    when the edit was made, also when the edit pushed the oldest entry
    out of the history. *)
Theorem handleUndo_after_edit (newData : JsonValue) (now : Z) (st : AppState)
        (version : VersionHistoryItem) (d : JsonValue) :
  at_index (versionHistory st) (currentVersionIndex st) = Some version ->
  JSON_parse (content version) = Returned d ->
  let st' := handleDocumentUpdate JSON_stringify newData now st in
  handleUndo JSON_parse st' =
    Returned (movedTo st' (currentVersionIndex st' - 1) version d).
Proof.
  intros Hat Hparse st'.
  apply at_index_Some_range in Hat as [Hrange Hnth].
  destruct (handleDocumentUpdate_history newData now st) as [Hh Hc].
  fold st' in Hh, Hc. unfold cursorAtEnd in Hc.
  replace (0 <=? currentVersionIndex st)%Z with true in Hh
    by (symmetry; apply Z.leb_le; lia).
  set (i := Z.to_nat (currentVersionIndex st)) in *.
  replace (Z.to_nat (currentVersionIndex st + 1)) with (S i) in Hh by lia.
  assert (Hi : (i < length (versionHistory st))%nat) by lia.
  assert (Hkept : length (firstn (S i) (versionHistory st)) = S i).
  { apply firstn_length_le. lia. }
  assert (Hlen : length (versionHistory st') = Nat.min MAX_HISTORY_LENGTH (S i + 1)).
  { rewrite Hh, length_mostRecent, length_app, Hkept. reflexivity. }
  unfold MAX_HISTORY_LENGTH in *.
  assert (Hprev : at_index (versionHistory st') (currentVersionIndex st' - 1)
                  = Some version).
  { rewrite Hc.
    replace (Z.of_nat (length (versionHistory st')) - 1 - 1)%Z
      with (Z.of_nat (length (versionHistory st') - 2)) by lia.
    rewrite at_index_nat, Hh, nth_error_mostRecent, <- Hh, Hlen, length_app, Hkept.
    simpl length.
    replace (S i + 1 - 50 + (Nat.min 50 (S i + 1) - 2))%nat with i by lia.
    rewrite nth_error_app1 by lia.
    rewrite nth_error_firstn.
    replace (i <? S i)%nat with true by (symmetry; apply Nat.ltb_lt; lia).
    exact Hnth. }
  unfold handleUndo.
  replace (0 <? currentVersionIndex st')%Z with true
    by (symmetry; apply Z.ltb_lt; lia).
  unfold moveTo, JsonUtils.parseJson. rewrite Hprev, Hparse. reflexivity.
Qed.

End HistoryOperations.

Lemma handleUndo_after_edit_witness :
  App.at_index (App.versionHistory App.exampleState)
               (App.currentVersionIndex App.exampleState)
    = Some {| content := "1"; timestamp := 1001; label := "Edit" |} /\
  JsJSON.parseScalar "1" = Returned (JNumber 1) /\
  let st' := App.handleDocumentUpdate JsJSON.stringify (JNumber 7) 2000 App.exampleState in
  App.handleUndo JsJSON.parseScalar st' =
    Returned (App.movedTo st' (App.currentVersionIndex st' - 1)
                          {| content := "1"; timestamp := 1001; label := "Edit" |}
                          (JNumber 1)).
Proof.
  split; [reflexivity |]. split; [reflexivity |].
  apply (handleUndo_after_edit JsJSON.parseScalar JsJSON.stringify (JNumber 7) 2000
           App.exampleState {| content := "1"; timestamp := 1001; label := "Edit" |}
           (JNumber 1)); reflexivity.
Defined.

Section HistoryInvariant.
Import App.

Variable JSON_parse : string -> Outcome JsonValue.

Lemma history_ok_movedTo (st : AppState) (newIndex : Z)
      (version : VersionHistoryItem) (d : JsonValue) :
  history_ok JSON_parse st ->
  (0 <= newIndex < Z.of_nat (length (versionHistory st)))%Z ->
  history_ok JSON_parse (movedTo st newIndex version d).
Proof. intros [_ Hall] Hrange. split; assumption. Qed.

(** X12. On a well-formed history undo and redo always complete, keep
    the entries of the history as they are and leave a well-formed
    history behind. *)
Theorem undo_redo_keep_history (st : AppState) :
  history_ok JSON_parse st ->
  (exists st', handleUndo JSON_parse st = Returned st' /\
               versionHistory st' = versionHistory st /\
               history_ok JSON_parse st')
  /\
  (exists st', handleRedo JSON_parse st = Returned st' /\
               versionHistory st' = versionHistory st /\
               history_ok JSON_parse st').
Proof.
  intros Hok. pose proof Hok as [Hrange Hall].
  split.
  - unfold handleUndo. destruct (0 <? currentVersionIndex st)%Z eqn:E.
    + apply Z.ltb_lt in E.
      destruct (moveTo_in_range JSON_parse st (currentVersionIndex st - 1) Hall)
        as [version [d [_ [_ Hmove]]]]; [lia |].
      eexists. split; [exact Hmove |]. split; [reflexivity |].
      apply history_ok_movedTo; [exact Hok | lia].
    + exists st. split; [reflexivity |]. split; [reflexivity | exact Hok].
  - unfold handleRedo.
    destruct (currentVersionIndex st <? Z.of_nat (length (versionHistory st)) - 1)%Z eqn:E.
    + apply Z.ltb_lt in E.
      destruct (moveTo_in_range JSON_parse st (currentVersionIndex st + 1) Hall)
        as [version [d [_ [_ Hmove]]]]; [lia |].
      eexists. split; [exact Hmove |]. split; [reflexivity |].
      apply history_ok_movedTo; [exact Hok | lia].
    + exists st. split; [reflexivity |]. split; [reflexivity | exact Hok].
Qed.

(** X13. Redo undoes undo: when there is something to undo, undo followed
    by redo brings the cursor back and displays the snapshot under it; if
    that snapshot was the document on display, the state is the one
    before the undo. *)
Theorem handleRedo_after_undo (st : AppState) :
  history_ok JSON_parse st ->
  (0 < currentVersionIndex st)%Z ->
  exists st1 version d,
    handleUndo JSON_parse st = Returned st1 /\
    at_index (versionHistory st) (currentVersionIndex st) = Some version /\
    JSON_parse (content version) = Returned d /\
    handleRedo JSON_parse st1 = Returned (movedTo st (currentVersionIndex st) version d) /\
    (document st = displayed version d -> handleRedo JSON_parse st1 = Returned st).
Proof.
  intros [Hrange Hall] Hpos.
  destruct (moveTo_in_range JSON_parse st (currentVersionIndex st - 1) Hall)
    as [before [d0 [_ [_ Hundo]]]]; [lia |].
  destruct (moveTo_in_range JSON_parse st (currentVersionIndex st) Hall)
    as [version [d [Hat [Hparse Hmove]]]]; [lia |].
  exists (movedTo st (currentVersionIndex st - 1) before d0), version, d.
  assert (Hredo : handleRedo JSON_parse (movedTo st (currentVersionIndex st - 1) before d0)
                  = Returned (movedTo st (currentVersionIndex st) version d)).
  { unfold handleRedo. simpl versionHistory. simpl currentVersionIndex.
    replace (currentVersionIndex st - 1 <? Z.of_nat (length (versionHistory st)) - 1)%Z
      with true by (symmetry; apply Z.ltb_lt; lia).
    replace (currentVersionIndex st - 1 + 1)%Z with (currentVersionIndex st) by lia.
    unfold moveTo, JsonUtils.parseJson in *. simpl versionHistory.
    rewrite Hat, Hparse in *. reflexivity. }
  repeat split.
  - unfold handleUndo.
    replace (0 <? currentVersionIndex st)%Z with true by (symmetry; apply Z.ltb_lt; lia).
    exact Hundo.
  - exact Hat.
  - exact Hparse.
  - exact Hredo.
  - intros Hdoc. rewrite Hredo. f_equal.
    unfold movedTo. rewrite <- Hdoc. destruct st; reflexivity.
Qed.

(** Loading a file that parses starts the history afresh: it holds
    the loaded text as its only entry, whatever it held before, and there
    is nothing to undo or to redo. *)
Theorem handleFileLoad_fresh_history (text : string) (now : Z) (st : AppState)
        (d : JsonValue) :
  JSON_parse text = Returned d ->
  let st' := handleFileLoad JSON_parse text now st in
  versionHistory st' = [ {| content := text; timestamp := now; label := "File loaded" |} ] /\
  document st' = displayed {| content := text; timestamp := now; label := "File loaded" |} d /\
  handleUndo JSON_parse st' = Returned st' /\
  handleRedo JSON_parse st' = Returned st'.
Proof.
  intros Hd. unfold handleFileLoad, JsonUtils.parseJson. rewrite Hd.
  repeat split.
Qed.

(** X14. A file that does not parse leaves the history and the cursor
    untouched, whatever they are, and is reported with a message that is
    never empty. *)
Theorem handleFileLoad_failure (text : string) (now : Z) (st : AppState) (e : Thrown) :
  JSON_parse text = Threw e ->
  let st' := handleFileLoad JSON_parse text now st in
  versionHistory st' = versionHistory st /\
  currentVersionIndex st' = currentVersionIndex st /\
  isValid (document st') = false /\
  parsed (document st') = None /\
  exists message, doc_error (document st') = Some message /\ message <> "".
Proof.
  intros He. unfold handleFileLoad, JsonUtils.parseJson. rewrite He.
  destruct e as [[| c m] |]; simpl; repeat split;
    eexists; (split; [reflexivity | discriminate]).
Qed.

End HistoryInvariant.

Lemma undo_redo_keep_history_witness :
  App.history_ok JsJSON.parseScalar App.exampleState /\
  (exists st', App.handleUndo JsJSON.parseScalar App.exampleState = Returned st' /\
               App.versionHistory st' = App.versionHistory App.exampleState /\
               App.history_ok JsJSON.parseScalar st').
Proof.
  assert (Hok : App.history_ok JsJSON.parseScalar App.exampleState).
  { split; [simpl; lia |]. repeat constructor; eexists; reflexivity. }
  split; [exact Hok |].
  exact (proj1 (undo_redo_keep_history JsJSON.parseScalar App.exampleState Hok)).
Defined.

Lemma handleRedo_after_undo_witness :
  App.history_ok JsJSON.parseScalar App.exampleState /\
  (0 < App.currentVersionIndex App.exampleState)%Z /\
  exists st1 version d,
    App.handleUndo JsJSON.parseScalar App.exampleState = Returned st1 /\
    App.at_index (App.versionHistory App.exampleState)
                 (App.currentVersionIndex App.exampleState) = Some version /\
    JsJSON.parseScalar (content version) = Returned d /\
    App.handleRedo JsJSON.parseScalar st1 =
      Returned (App.movedTo App.exampleState (App.currentVersionIndex App.exampleState)
                            version d) /\
    (App.document App.exampleState = App.displayed version d ->
     App.handleRedo JsJSON.parseScalar st1 = Returned App.exampleState).
Proof.
  assert (Hok : App.history_ok JsJSON.parseScalar App.exampleState).
  { split; [simpl; lia |]. repeat constructor; eexists; reflexivity. }
  assert (Hpos : (0 < App.currentVersionIndex App.exampleState)%Z) by (simpl; lia).
  split; [exact Hok |]. split; [exact Hpos |].
  exact (handleRedo_after_undo JsJSON.parseScalar App.exampleState Hok Hpos).
Defined.

Lemma handleFileLoad_fresh_history_witness :
  JsJSON.parseScalar "42" = Returned (JNumber 42) /\
  let st' := App.handleFileLoad JsJSON.parseScalar "42" 5000 App.exampleState in
  App.versionHistory st' =
    [ {| content := "42"; timestamp := 5000; label := "File loaded" |} ] /\
  App.document st' =
    App.displayed {| content := "42"; timestamp := 5000; label := "File loaded" |}
                  (JNumber 42) /\
  App.handleUndo JsJSON.parseScalar st' = Returned st' /\
  App.handleRedo JsJSON.parseScalar st' = Returned st'.
Proof.
  split; [reflexivity |].
  apply (handleFileLoad_fresh_history JsJSON.parseScalar "42" 5000 App.exampleState
           (JNumber 42)).
  reflexivity.
Defined.

Lemma handleFileLoad_failure_witness :
  JsJSON.parseScalar "{oops" = Threw (ThrownError "Unexpected token") /\
  let st' := App.handleFileLoad JsJSON.parseScalar "{oops" 5000 App.exampleState in
  App.versionHistory st' = App.versionHistory App.exampleState /\
  App.currentVersionIndex st' = App.currentVersionIndex App.exampleState /\
  isValid (App.document st') = false /\
  parsed (App.document st') = None /\
  exists message, doc_error (App.document st') = Some message /\ message <> "".
Proof.
  split; [reflexivity |].
  apply (handleFileLoad_failure JsJSON.parseScalar "{oops" 5000 App.exampleState
           (ThrownError "Unexpected token")).
  reflexivity.
Defined.

Section RestoreSession.
Import App.

(** X15. Restoring a saved session whose cursor is on an entry keeps at
    most [MAX_HISTORY_LENGTH] entries, the most recent ones, and leaves
    the cursor on an entry: on the same snapshot as before when that
    snapshot is among the entries kept, on the oldest entry kept
    otherwise. *)
Theorem handleRestoreSession_cursor (saved : SavedSession) (st : AppState)
        (history : list VersionHistoryItem) (index : Z) :
  saved_versionHistory saved = Some history ->
  saved_currentVersionIndex saved = Some index ->
  (0 <= index < Z.of_nat (length history))%Z ->
  let st' := handleRestoreSession (Some saved) st in
  versionHistory st' = mostRecent MAX_HISTORY_LENGTH history /\
  (length (versionHistory st') <= MAX_HISTORY_LENGTH)%nat /\
  (0 <= currentVersionIndex st' < Z.of_nat (length (versionHistory st')))%Z /\
  ((Z.of_nat (length history) - Z.of_nat MAX_HISTORY_LENGTH <= index)%Z ->
   at_index (versionHistory st') (currentVersionIndex st') = at_index history index) /\
  ((index < Z.of_nat (length history) - Z.of_nat MAX_HISTORY_LENGTH)%Z ->
   currentVersionIndex st' = 0%Z).
Proof.
  intros Hh Hi Hrange. unfold handleRestoreSession. rewrite Hh, Hi. cbn zeta.
  cbn [versionHistory currentVersionIndex].
  unfold MAX_HISTORY_LENGTH in *.
  destruct (50 <? length history)%nat eqn:E.
  - apply Nat.ltb_lt in E.
    assert (Hlen : length (skipn (length history - 50) history) = 50%nat).
    { rewrite length_skipn. lia. }
    split; [reflexivity |]. rewrite Hlen.
    split; [lia |]. split; [lia |]. split.
    + intros Hkept.
      replace (Z.max 0 (index - (Z.of_nat (length history) - Z.of_nat 50)))%Z
        with (Z.of_nat (Z.to_nat index - (length history - 50))) by lia.
      rewrite at_index_nat, nth_error_skipn.
      replace (length history - 50 + (Z.to_nat index - (length history - 50)))%nat
        with (Z.to_nat index) by lia.
      unfold at_index.
      replace (index <? 0)%Z with false by (symmetry; apply Z.ltb_ge; lia).
      reflexivity.
    + intros Hgone. lia.
  - apply Nat.ltb_ge in E.
    split; [now rewrite mostRecent_short |].
    split; [lia |]. split; [lia |]. split; [reflexivity | lia].
Qed.

(** Whatever was saved, at most [MAX_HISTORY_LENGTH] entries are restored. *)
Lemma handleRestoreSession_bounded (savedSession : option SavedSession) (st : AppState) :
  (length (versionHistory st) <= MAX_HISTORY_LENGTH)%nat ->
  (length (versionHistory (handleRestoreSession savedSession st)) <= MAX_HISTORY_LENGTH)%nat.
Proof.
  intros Hst. destruct savedSession as [saved |]; [| exact Hst].
  unfold handleRestoreSession. cbn [versionHistory].
  destruct (MAX_HISTORY_LENGTH <? length _)%nat eqn:E.
  - rewrite length_skipn. unfold MAX_HISTORY_LENGTH in *. lia.
  - now apply Nat.ltb_ge in E.
Qed.

End RestoreSession.

Lemma handleRestoreSession_cursor_witness :
  exists history,
    App.saved_versionHistory App.exampleSession = Some history /\
    App.saved_currentVersionIndex App.exampleSession = Some 54%Z /\
    (0 <= 54 < Z.of_nat (length history))%Z /\
    let st' := App.handleRestoreSession (Some App.exampleSession) App.initialState in
    App.versionHistory st' = App.mostRecent App.MAX_HISTORY_LENGTH history /\
    (length (App.versionHistory st') <= App.MAX_HISTORY_LENGTH)%nat /\
    (0 <= App.currentVersionIndex st' < Z.of_nat (length (App.versionHistory st')))%Z /\
    ((Z.of_nat (length history) - Z.of_nat App.MAX_HISTORY_LENGTH <= 54)%Z ->
     App.at_index (App.versionHistory st') (App.currentVersionIndex st')
       = App.at_index history 54) /\
    ((54 < Z.of_nat (length history) - Z.of_nat App.MAX_HISTORY_LENGTH)%Z ->
     App.currentVersionIndex st' = 0%Z).
Proof.
  eexists. split; [reflexivity |]. split; [reflexivity |].
  split; [vm_compute; split; [discriminate | reflexivity] |].
  apply (handleRestoreSession_cursor App.exampleSession App.initialState _ 54%Z);
    [reflexivity | reflexivity |].
  vm_compute. split; [discriminate | reflexivity].
Defined.

(** ** Paths across the components *)

Section DecimalText.
Import JsString.

Lemma string_of_uint_digits (d : Decimal.uint) :
  allChars isDigit (NilEmpty.string_of_uint d) = true.
Proof. induction d; simpl; try reflexivity; exact IHd. Qed.

Lemma to_little_uint_nonnil (n : nat) (acc : Decimal.uint) :
  acc <> Decimal.Nil -> Nat.to_little_uint n acc <> Decimal.Nil.
Proof.
  revert acc. induction n as [| n IH]; intros acc Hacc; simpl; [exact Hacc |].
  apply IH. destruct acc; simpl; discriminate.
Qed.

Lemma ofNat_numeric (n : nat) :
  isEmpty (ofNat n) = false /\ allChars isDigit (ofNat n) = true.
Proof.
  unfold ofNat. split; [| apply string_of_uint_digits].
  assert (Hnn : Nat.to_uint n <> Decimal.Nil).
  { unfold Nat.to_uint. intros H. apply DecimalFacts.rev_nil_inv in H.
    revert H. apply to_little_uint_nonnil. discriminate. }
  destruct (Nat.to_uint n); try reflexivity. congruence.
Qed.

Lemma ofNat_inj (n m : nat) : ofNat n = ofNat m -> n = m.
Proof.
  unfold ofNat. intros H.
  apply DecimalNat.Unsigned.to_uint_inj.
  assert (Hs : Some (Nat.to_uint n) = Some (Nat.to_uint m)).
  { rewrite <- !NilEmpty.usu. now rewrite H. }
  now inversion Hs.
Qed.

End DecimalText.

Section SegmentsOfPaths.
Import JsString DocumentViewer.

Lemma pathSegmentsOf_dot (rest : string) :
  pathSegmentsOf (String "."%char rest) = pathSegmentsOf rest.
Proof. reflexivity. Qed.

Lemma pathSegmentsOf_name (name rest : string) :
  isEmpty name = false -> allChars isNameChar name = true -> endsName rest ->
  pathSegmentsOf (name ++ rest) = mkSegment property name :: pathSegmentsOf rest.
Proof.
  intros Hne Hall Hrest. unfold pathSegmentsOf.
  destruct name as [| c r]; [discriminate |].
  simpl in Hall. apply andb_true_iff in Hall as [Hc Hr].
  assert (Hopen : isOpenBracket c = false).
  { destruct c as [[] [] [] [] [] [] [] []]; try reflexivity; discriminate. }
  assert (Hmatch : matchSegmentAt (String c r ++ rest) = Some (String c r, rest)).
  { unfold matchSegmentAt. cbn [append]. rewrite Hopen.
    change (String c (r ++ rest)) with (String c r ++ rest).
    rewrite (span_append isNameChar (String c r) rest).
    - reflexivity.
    - simpl. now rewrite Hc, Hr.
    - exact Hrest. }
  cbn [append String.length matchSegments].
  change (String c (r ++ rest)) with (String c r ++ rest).
  rewrite Hmatch. cbn [map]. f_equal.
  - unfold toSegment. cbn [startsWith]. fold (isOpenBracket c).
    now rewrite Hopen.
  - f_equal. apply matchSegments_rounds; [| lia].
    rewrite length_append. lia.
Qed.

Lemma pathSegmentsOf_index (digits rest : string) :
  isEmpty digits = false -> allChars isDigit digits = true ->
  pathSegmentsOf (String "["%char (digits ++ String "]"%char rest)) =
    mkSegment index digits :: pathSegmentsOf rest.
Proof.
  intros Hne Hall. unfold pathSegmentsOf.
  assert (Hmatch : matchSegmentAt (String "["%char (digits ++ String "]"%char rest))
                   = Some (String "["%char (digits ++ "]"), rest)).
  { unfold matchSegmentAt. cbn [isOpenBracket Ascii.eqb Bool.eqb].
    rewrite (span_append isDigit digits (String "]"%char rest)); [| exact Hall | reflexivity].
    now rewrite Hne. }
  cbn [String.length matchSegments]. rewrite Hmatch. cbn [map]. f_equal.
  - unfold toSegment. cbn [startsWith Ascii.eqb Bool.eqb andb removeChars isBracket orb].
    rewrite removeChars_append, removeChars_digits by exact Hall.
    simpl. now rewrite append_empty_r.
  - f_equal. apply matchSegments_rounds; [| lia].
    rewrite length_append. simpl. lia.
Qed.


Lemma pathSegmentsOf_closing (rest : string) :
  pathSegmentsOf (String "]"%char rest) = pathSegmentsOf rest.
Proof. reflexivity. Qed.

(** An opening bracket that begins no index is passed over. *)
Lemma pathSegmentsOf_stray (rest : string) :
  beginsIndex rest = false ->
  pathSegmentsOf (String "["%char rest) = pathSegmentsOf rest.
Proof.
  unfold beginsIndex, pathSegmentsOf. intros H.
  assert (Hnone : matchSegmentAt (String "["%char rest) = None).
  { unfold matchSegmentAt. cbn [isOpenBracket Ascii.eqb Bool.eqb].
    destruct (span isDigit rest) as [digits after].
    destruct after as [| x after']; [reflexivity |].
    destruct (Ascii.eqb x "]"%char) eqn:Ex.
    - apply Ascii.eqb_eq in Ex. subst x.
      destruct (isEmpty digits); [reflexivity | discriminate H].
    - destruct x as [[] [] [] [] [] [] [] []]; try reflexivity; discriminate Ex. }
  cbn [String.length matchSegments]. now rewrite Hnone.
Qed.

(** After a body that is not a number no closing bracket follows the
    digits it may begin with. *)
Lemma body_begins_no_index (body rest : string) :
  allChars isNameChar body = true -> allChars isDigit body = false ->
  startsWith (snd (span isDigit (body ++ String "]"%char rest))) "]" = false.
Proof.
  induction body as [| c r IH]; cbn [allChars append span]; [discriminate |].
  intros Hname Hdigits. apply andb_true_iff in Hname as [Hc Hr].
  destruct (isDigit c) eqn:Ec.
  - cbn [andb] in Hdigits. specialize (IH Hr Hdigits).
    destruct (span isDigit (r ++ String "]"%char rest)) as [digits after]. exact IH.
  - cbn [snd startsWith].
    destruct c as [[] [] [] [] [] [] [] []]; try reflexivity; discriminate Hc.
Qed.

(** C8 (amended). Parsing a path text reports no error: every text
    yields a list of segments, read from left to right. A dot, a closing
    bracket and an opening bracket that begins no number in brackets are
    passed over, so empty identifiers and trailing or adjacent separators
    go unnoticed; a number in brackets is read as an Index segment; a run
    of other characters is read as a Property segment, also when it
    stands in brackets and is not a number. Every Index segment is a
    non-empty run of digits and every Property segment a non-empty run
    without dot or bracket. *)
Theorem pathSegmentsOf_reads_every_text (rest : string) :
  pathSegmentsOf "" = [] /\
  pathSegmentsOf (String "."%char rest) = pathSegmentsOf rest /\
  pathSegmentsOf (String "]"%char rest) = pathSegmentsOf rest /\
  (beginsIndex rest = false ->
   pathSegmentsOf (String "["%char rest) = pathSegmentsOf rest) /\
  (forall digits,
      isEmpty digits = false -> allChars isDigit digits = true ->
      pathSegmentsOf (String "["%char (digits ++ String "]"%char rest)) =
        mkSegment index digits :: pathSegmentsOf rest) /\
  (forall name,
      isEmpty name = false -> allChars isNameChar name = true -> endsName rest ->
      pathSegmentsOf (name ++ rest) = mkSegment property name :: pathSegmentsOf rest) /\
  (forall body,
      isEmpty body = false -> allChars isNameChar body = true ->
      allChars isDigit body = false ->
      pathSegmentsOf (String "["%char (body ++ String "]"%char rest)) =
        mkSegment property body :: pathSegmentsOf rest) /\
  Forall (fun seg => segmentShape seg = true) (pathSegmentsOf rest).
Proof.
  split; [reflexivity |].
  split; [apply pathSegmentsOf_dot |].
  split; [apply pathSegmentsOf_closing |].
  split; [apply pathSegmentsOf_stray |].
  split; [intros digits; apply pathSegmentsOf_index |].
  split; [intros name; apply pathSegmentsOf_name |].
  split; [| apply pathSegmentsOf_segmentShape].
  intros body Hne Hname Hdigits.
  rewrite pathSegmentsOf_stray.
  - rewrite (pathSegmentsOf_name body (String "]"%char rest) Hne Hname) by reflexivity.
    now rewrite pathSegmentsOf_closing.
  - unfold beginsIndex.
    pose proof (body_begins_no_index body rest Hname Hdigits) as H.
    destruct (span isDigit (body ++ String "]"%char rest)) as [digits after].
    cbn [snd] in H. rewrite H. apply andb_false_r.
Qed.

End SegmentsOfPaths.

Lemma pathSegmentsOf_reads_every_text_witness :
  DocumentViewer.beginsIndex "x]" = false /\
  DocumentViewer.pathSegmentsOf "[x]" = DocumentViewer.pathSegmentsOf "x]" /\
  DocumentViewer.pathSegmentsOf "[7].b" =
    DocumentViewer.mkSegment DocumentViewer.index "7" :: DocumentViewer.pathSegmentsOf ".b" /\
  DocumentViewer.endsName "..b" /\
  DocumentViewer.pathSegmentsOf "a..b" =
    DocumentViewer.mkSegment DocumentViewer.property "a" :: DocumentViewer.pathSegmentsOf "..b" /\
  DocumentViewer.pathSegmentsOf "[x1].b" =
    DocumentViewer.mkSegment DocumentViewer.property "x1" :: DocumentViewer.pathSegmentsOf ".b".
Proof.
  split; [reflexivity |].
  split; [apply (proj1 (proj2 (proj2 (proj2 (pathSegmentsOf_reads_every_text "x]")))));
          reflexivity |].
  split; [apply (proj1 (proj2 (proj2 (proj2 (proj2 (pathSegmentsOf_reads_every_text ".b"))))) "7");
          reflexivity |].
  split; [reflexivity |].
  split; [apply (proj1 (proj2 (proj2 (proj2 (proj2 (proj2
                   (pathSegmentsOf_reads_every_text "..b")))))) "a"); reflexivity |].
  apply (proj1 (proj2 (proj2 (proj2 (proj2 (proj2 (proj2
           (pathSegmentsOf_reads_every_text ".b"))))))) "x1"); reflexivity.
Defined.

Section EditorPaths.
Import JsString DocumentViewer Editors.

Lemma append_nonempty (a b : string) : isEmpty a = false -> isEmpty (a ++ b) = false.
Proof. destruct a; [discriminate | reflexivity]. Qed.

Lemma pathOf_from (steps : list Step) (path : string) :
  isEmpty path = false ->
  fold_left (fun path st =>
               match st with
               | Key name => propPath path name
               | Item i => itemPath path i
               end) steps path
  = path ++ tailText steps.
Proof.
  revert path. induction steps as [| st steps IH]; intros path Hne; cbn [fold_left].
  - unfold tailText. simpl. now rewrite append_empty_r.
  - change (tailText (st :: steps)) with (suffixOf st ++ tailText steps).
    destruct st as [name | i]; unfold propPath, itemPath, suffixOf; rewrite Hne.
    + rewrite IH by now apply append_nonempty.
      now rewrite !append_assoc.
    + rewrite IH by now apply append_nonempty.
      now rewrite !append_assoc.
Qed.

Lemma tailText_endsName (steps : list Step) : endsName (tailText steps).
Proof. destruct steps as [| [name | i] rest]; simpl; [exact I | reflexivity | reflexivity]. Qed.

Lemma pathSegmentsOf_tailText (steps : list Step) :
  forallb plain steps = true ->
  pathSegmentsOf (tailText steps) = map segmentOf steps.
Proof.
  induction steps as [| st steps IH]; intros H; [reflexivity |].
  simpl in H. apply andb_true_iff in H as [Hst Hsteps].
  change (tailText (st :: steps)) with (suffixOf st ++ tailText steps).
  destruct st as [name | i]; cbn [suffixOf map segmentOf].
  - simpl in Hst. apply andb_true_iff in Hst as [Hne Hall].
    apply negb_true_iff in Hne.
    cbn [append]. rewrite pathSegmentsOf_dot.
    rewrite pathSegmentsOf_name; [| exact Hne | exact Hall | apply tailText_endsName].
    now rewrite IH.
  - destruct (ofNat_numeric i) as [Hne Hall].
    cbn [append]. rewrite append_assoc. cbn [append].
    rewrite pathSegmentsOf_index by assumption.
    now rewrite IH.
Qed.

Lemma pathOf_cons (st : Step) (steps : list Step) :
  plain st = true ->
  pathOf (st :: steps) =
    match st with
    | Key name => name
    | Item i => "[" ++ ofNat i ++ "]"
    end ++ tailText steps.
Proof.
  intros Hst. unfold pathOf. cbn [fold_left].
  destruct st as [name | i].
  - simpl in Hst. apply andb_true_iff in Hst as [Hne _]. apply negb_true_iff in Hne.
    unfold propPath. cbn [isEmpty]. now apply pathOf_from.
  - unfold itemPath. cbn [isEmpty]. now apply pathOf_from.
Qed.

(** X16. The paths that the editors hand to the viewer are read back by
    its tokenizer as the steps they were built from: for keys that are
    not empty and hold no dot or bracket, the segments of the path of a
    node are its keys and indices, in order. *)
Theorem pathSegmentsOf_pathOf (steps : list Step) :
  forallb plain steps = true ->
  pathSegmentsOf (pathOf steps) = map segmentOf steps.
Proof.
  destruct steps as [| st steps]; intros H; [reflexivity |].
  simpl in H. apply andb_true_iff in H as [Hst Hsteps].
  rewrite (pathOf_cons st steps Hst).
  destruct st as [name | i]; cbn [map segmentOf].
  - simpl in Hst. apply andb_true_iff in Hst as [Hne Hall].
    apply negb_true_iff in Hne.
    rewrite pathSegmentsOf_name; [| exact Hne | exact Hall | apply tailText_endsName].
    now rewrite pathSegmentsOf_tailText.
  - destruct (ofNat_numeric i) as [Hne Hall].
    cbn [append]. rewrite append_assoc. cbn [append].
    rewrite pathSegmentsOf_index by assumption.
    now rewrite pathSegmentsOf_tailText.
Qed.

Lemma pathSegmentsOf_pathOf_witness :
  forallb plain [Key "store"; Key "books"; Item 3; Key "title"] = true /\
  pathOf [Key "store"; Key "books"; Item 3; Key "title"] = "store.books[3].title" /\
  pathSegmentsOf (pathOf [Key "store"; Key "books"; Item 3; Key "title"]) =
    map segmentOf [Key "store"; Key "books"; Item 3; Key "title"].
Proof.
  split; [reflexivity |]. split; [reflexivity |].
  apply (pathSegmentsOf_pathOf [Key "store"; Key "books"; Item 3; Key "title"]).
  reflexivity.
Defined.





(** The test is one on texts: a sibling whose key begins with the key of
    a node is taken for its descendant. *)
Example isParentOfHighlighted_sibling :
  isParentOfHighlighted (Some (pathOf [Key "ab"])) (pathOf [Key "a"]) = true.
Proof. reflexivity. Qed.

End EditorPaths.

Section QueryPathsToSegments.
Import JsString DocumentViewer QueryTool ForeignPath.

Lemma plain_recognised (st : Step) : plain st = true -> recognised st = true.
Proof.
  destruct st as [body | digits]; simpl; [| tauto].
  intros H. apply andb_true_iff in H as [H _]. exact H.
Qed.

Lemma canonicalText_endsName (steps : list Step) : endsName (canonicalText steps).
Proof.
  destruct steps as [| [body | digits] rest]; unfold canonicalText; simpl; [exact I | |].
  - destruct (isNumeric body); reflexivity.
  - reflexivity.
Qed.

Lemma pathSegmentsOf_canonicalText (steps : list Step) :
  forallb plain steps = true ->
  pathSegmentsOf (canonicalText steps) = map segmentOf steps.
Proof.
  induction steps as [| st steps IH]; intros H; [reflexivity |].
  simpl in H. apply andb_true_iff in H as [Hst Hsteps].
  change (canonicalText (st :: steps)) with (canonical st ++ canonicalText steps).
  cbn [map]. rewrite <- (IH Hsteps).
  destruct st as [body | digits]; cbn [canonical segmentOf].
  - simpl in Hst. apply andb_true_iff in Hst as [Hst Hname].
    apply andb_true_iff in Hst as [Hne _]. apply negb_true_iff in Hne.
    destruct (isNumeric body) eqn:Enum.
    + unfold isNumeric in Enum. apply andb_true_iff in Enum as [_ Hdigits].
      cbn [append]. rewrite append_assoc. cbn [append].
      now apply pathSegmentsOf_index.
    + cbn [append]. rewrite pathSegmentsOf_dot.
      apply pathSegmentsOf_name; [exact Hne | exact Hname | apply canonicalText_endsName].
  - unfold plain, isNumeric in Hst. apply andb_true_iff in Hst as [Hne Hdigits].
    apply negb_true_iff in Hne.
    cbn [append]. rewrite append_assoc. cbn [append].
    now apply pathSegmentsOf_index.
Qed.

Lemma canonicalText_no_dot_bracket (steps : list Step) :
  forallb plain steps = true -> startsWith (canonicalText steps) ".[" = false.
Proof.
  destruct steps as [| [body | digits] rest]; intros H; [reflexivity | |].
  - simpl in H. apply andb_true_iff in H as [H _].
    apply andb_true_iff in H as [H Hname]. apply andb_true_iff in H as [Hne _].
    unfold canonicalText. cbn [map fold_right canonical].
    destruct (isNumeric body); [reflexivity |].
    destruct body as [| c r]; [discriminate |].
    simpl in Hname. apply andb_true_iff in Hname as [Hc _].
    cbn [append startsWith Ascii.eqb Bool.eqb andb].
    destruct c as [[] [] [] [] [] [] [] []]; try reflexivity; discriminate.
  - reflexivity.
Qed.

(** C7 (amended). When every quoted body is non-empty and holds no
    single quote, dot or bracket, the conversion turns each quoted body
    that is entirely numeric into an index [[n]] and every other quoted
    body into a property [.name], bare indices being kept, without the
    dot of a first property; read back, the converted path has an Index
    segment for each numeric body and a Property segment for every other
    body, in order. *)
Theorem convertJsonPathToAppPath_canonical (steps : list Step) :
  forallb plain steps = true ->
  convertJsonPathToAppPath (text steps) = canonicalText steps /\
  pathSegmentsOf (convertJsonPathToAppPath (text steps)) = map segmentOf steps.
Proof.
  intros H.
  assert (Hrec : forallb recognised steps = true).
  { rewrite forallb_forall in *. intros st Hin. apply plain_recognised. now apply H. }
  assert (Htext : convertJsonPathToAppPath (text steps) = canonicalText steps).
  { rewrite convertJsonPathToAppPath_steps by exact Hrec.
    now rewrite (canonicalText_no_dot_bracket steps H). }
  split; [exact Htext |].
  rewrite Htext. now apply pathSegmentsOf_canonicalText.
Qed.

Lemma convertJsonPathToAppPath_canonical_witness :
  forallb plain [Quoted "store"; Quoted "book"; Bare "0"; Quoted "title"] = true /\
  convertJsonPathToAppPath
    (text [Quoted "store"; Quoted "book"; Bare "0"; Quoted "title"])
  = ".store.book[0].title" /\
  pathSegmentsOf
    (convertJsonPathToAppPath
       (text [Quoted "store"; Quoted "book"; Bare "0"; Quoted "title"]))
  = [ mkSegment DocumentViewer.property "store"; mkSegment DocumentViewer.property "book";
      mkSegment DocumentViewer.index "0"; mkSegment DocumentViewer.property "title" ].
Proof.
  split; [reflexivity |].
  apply (convertJsonPathToAppPath_canonical
           [Quoted "store"; Quoted "book"; Bare "0"; Quoted "title"]).
  reflexivity.
Defined.

(** A quoted body with a dot in it is converted, but read back as two
    properties. *)
Example dotted_body_read_as_two :
  convertJsonPathToAppPath (text [Quoted "a.b"]) = ".a.b" /\
  pathSegmentsOf ".a.b" =
    [mkSegment DocumentViewer.property "a"; mkSegment DocumentViewer.property "b"] /\
  segmentOf (Quoted "a.b") = mkSegment DocumentViewer.property "a.b".
Proof. repeat split; reflexivity. Qed.

(** X18. A path of the evaluator, once converted, is read by the viewer's
    tokenizer as the steps of the match: for quoted bodies that are not
    empty and hold no quote, dot or bracket, the segments are the bodies
    in order, a property for each name and an index for each number. *)
Theorem pathSegmentsOf_converted (steps : list Step) :
  forallb plain steps = true ->
  pathSegmentsOf (convertJsonPathToAppPath (text steps)) = map segmentOf steps.
Proof.
  intros H.
  rewrite convertJsonPathToAppPath_steps.
  - rewrite (canonicalText_no_dot_bracket steps H).
    now apply pathSegmentsOf_canonicalText.
  - rewrite forallb_forall in *. intros st Hin. apply plain_recognised. now apply H.
Qed.

Lemma pathSegmentsOf_converted_witness :
  forallb plain [Quoted "store"; Quoted "book"; Bare "0"; Quoted "title"] = true /\
  pathSegmentsOf
    (convertJsonPathToAppPath
       (text [Quoted "store"; Quoted "book"; Bare "0"; Quoted "title"]))
  = [ mkSegment DocumentViewer.property "store"; mkSegment DocumentViewer.property "book";
      mkSegment DocumentViewer.index "0"; mkSegment DocumentViewer.property "title" ].
Proof.
  split; [reflexivity |].
  apply (pathSegmentsOf_converted [Quoted "store"; Quoted "book"; Bare "0"; Quoted "title"]).
  reflexivity.
Defined.

End QueryPathsToSegments.

(** ** Running queries *)

Section RunningQueries.
Import JsString QueryTool.

Variable JSONPath : string -> JsonValue -> Outcome (list (JsonValue * string)).

Lemma trim_not_blank (c : ascii) (r : string) :
  isWhiteSpace c = false -> isEmpty (trim (String c r)) = false.
Proof.
  intros Hc. unfold trim. cbn [trimStart]. rewrite Hc. cbn [trimEnd]. now rewrite Hc.
Qed.

(** The compiled expression begins with [$]. *)
Lemma generateJSONPathFromConditions_head
      (conditions : list Condition) (logicOperator : LogicOperator) :
  exists r, generateJSONPathFromConditions conditions logicOperator = String "$"%char r.
Proof. destruct conditions; eexists; reflexivity. Qed.

(** X19. A visual query is always run on the expression compiled from its
    conditions, whatever text the query box holds: it is never turned
    down as an empty query, and when the evaluator returns matches the
    result lists them in the evaluator's order, each with its converted
    path, and counts them. *)
Theorem executeVisualQuery_runs_compiled
        (query1 query2 : string) (json : JsonValue)
        (conditions : list Condition) (logicOperator : LogicOperator) :
  executeVisualQuery JSONPath query1 json conditions logicOperator =
  executeVisualQuery JSONPath query2 json conditions logicOperator
  /\
  forall found,
    JSONPath (generateJSONPathFromConditions conditions logicOperator) json = Returned found ->
    executeVisualQuery JSONPath query1 json conditions logicOperator = successOf found.
Proof.
  destruct (generateJSONPathFromConditions_head conditions logicOperator) as [r Hr].
  unfold executeVisualQuery, executeQueryWithPath. rewrite Hr.
  rewrite (trim_not_blank "$"%char r) by reflexivity.
  split; [reflexivity |].
  intros found Hfound. rewrite Hfound. unfold successOf.
  now rewrite map_map, length_map.
Qed.

(** X20. A query ends in one of two ways. Either it succeeds, without an
    error, with as many items as it counts and with the values of the
    items as its data; or it fails, without data, items or count, and
    with a message that is not empty. *)
Theorem executeQueryWithPath_outcome
        (query : string) (json : JsonValue) (queryPath : option string) :
  let result := executeQueryWithPath JSONPath query json queryPath in
  (success result = true /\ error result = None /\
   exists found, items result = Some found /\
                 count result = Some (length found) /\
                 data result = Some (map item_value found))
  \/
  (success result = false /\ data result = None /\ items result = None /\
   count result = None /\
   exists message, error result = Some message /\ message <> "").
Proof.
  unfold executeQueryWithPath.
  destruct (isEmpty (trim match queryPath with
                          | Some (String _ _ as q) => q
                          | _ => query
                          end)).
  - right. repeat split. eexists. split; [reflexivity | discriminate].
  - destruct (JSONPath _ json) as [found | [[| c m] |]].
    + left. split; [reflexivity |]. split; [reflexivity |].
      eexists. split; [reflexivity |]. split; [| reflexivity].
      cbn [count]. now rewrite length_map.
    + right. repeat split. eexists. split; [reflexivity | discriminate].
    + right. repeat split. eexists. split; [reflexivity | discriminate].
    + right. repeat split. eexists. split; [reflexivity | discriminate].
Qed.

End RunningQueries.

Lemma executeVisualQuery_runs_compiled_witness :
  FilterFragment.restricted
    (QueryTool.generateJSONPathFromConditions [Examples.priceOver100] QueryTool.AND)
    Examples.prices = Returned [(Examples.expensive, "$[0]")] /\
  QueryTool.executeVisualQuery FilterFragment.restricted "$.store" Examples.prices
                               [Examples.priceOver100] QueryTool.AND =
    QueryTool.successOf [(Examples.expensive, "$[0]")].
Proof.
  split; [reflexivity |].
  apply (executeVisualQuery_runs_compiled FilterFragment.restricted "$.store" ""
           Examples.prices [Examples.priceOver100] QueryTool.AND).
  reflexivity.
Defined.

(** ** The range of lines, in general *)

Section ScanInvariants.
Import JsString DocumentViewer.

Variable pathSegments : list PathSegment.

Ltac split_ifs :=
  repeat match goal with
         | |- context [if ?c then _ else _] => destruct c
         | |- context [match nth_error ?l ?k with _ => _ end] => destruct (nth_error l k)
         end.

Lemma onOpening_scanning (i : nat) (line : string) (st : Scan) :
  scanning (Z.of_nat i) st ->
  scanning (Z.of_nat i + 1) (onOpening pathSegments i line st).
Proof.
  intros [Hs [He Ht]]. unfold onOpening, scanning.
  destruct st as [s e k c d t a b]. cbn [startLine endLine inTargetStructure
    currentSegmentIndex arrayIndexCounter objectDepth targetDepth trackingArrayDepth] in *.
  split_ifs; cbn [startLine endLine inTargetStructure]; repeat split;
    try assumption; try lia; try (intros _; lia);
    try (destruct Hs as [Hs | Hs]; [left; exact Hs | right; lia]).
Qed.

Lemma onProperty_scanning (i : nat) (line : string) (st : Scan) :
  scanning (Z.of_nat i + 1) st ->
  let '(st', leave) := onProperty pathSegments i line st in
  if leave then decided (Z.of_nat i + 1) st' else scanning (Z.of_nat i + 1) st'.
Proof.
  intros [Hs [He Ht]]. unfold onProperty, scanning, decided.
  destruct st as [s e k c d t a b]. cbn [startLine endLine inTargetStructure
    currentSegmentIndex arrayIndexCounter objectDepth targetDepth trackingArrayDepth] in *.
  destruct (nth_error pathSegments k) as [[[] name] |];
    split_ifs; cbn [startLine endLine inTargetStructure]; repeat split;
    try assumption; try lia; try (intros _; lia).
Qed.

Lemma onClosing_scanning (i : nat) (line : string) (st : Scan) :
  scanning (Z.of_nat i + 1) st ->
  let '(st', leave) := onClosing i line st in
  if leave then decided (Z.of_nat i + 1) st' else scanning (Z.of_nat i + 1) st'.
Proof.
  intros [Hs [He Ht]]. unfold onClosing, scanning, decided.
  destruct st as [s e k c d t a b]. cbn [startLine endLine inTargetStructure
    currentSegmentIndex arrayIndexCounter objectDepth targetDepth trackingArrayDepth] in *.
  destruct (closes (trim line)); [| repeat split; assumption].
  destruct (b && (d =? t)%Z) eqn:E; cbn [startLine endLine inTargetStructure].
  - apply andb_true_iff in E as [Hb _]. specialize (Ht Hb).
    destruct Hs as [Hs | Hs]; [contradiction |]. repeat split; lia.
  - repeat split; assumption.
Qed.

Lemma scanLine_scanning (i : nat) (line : string) (st : Scan) :
  scanning (Z.of_nat i) st ->
  let '(st', leave) := scanLine pathSegments i line st in
  if leave then decided (Z.of_nat i + 1) st' else scanning (Z.of_nat i + 1) st'.
Proof.
  intros H. unfold scanLine.
  pose proof (onProperty_scanning i line _ (onOpening_scanning i line st H)) as Hp.
  destruct (onProperty pathSegments i line (onOpening pathSegments i line st))
    as [st1 leave].
  destruct leave; [exact Hp |].
  exact (onClosing_scanning i line st1 Hp).
Qed.

Lemma scanLines_scanning (lines : list string) (i : nat) (st : Scan) :
  scanning (Z.of_nat i) st ->
  let st' := scanLines pathSegments i lines st in
  decided (Z.of_nat (i + length lines)) st' \/ scanning (Z.of_nat (i + length lines)) st'.
Proof.
  revert i st. induction lines as [| line rest IH]; intros i st H; cbn [scanLines length].
  - right. now rewrite Nat.add_0_r.
  - pose proof (scanLine_scanning i line st H) as Hl.
    destruct (scanLine pathSegments i line st) as [st1 leave].
    destruct leave.
    + left. destruct Hl as [H1 H2]. split; [exact H1 | lia].
    + replace (i + S (length rest))%nat with (S i + length rest)%nat by lia.
      apply IH. now replace (Z.of_nat (S i)) with (Z.of_nat i + 1)%Z by lia.
Qed.





End ScanInvariants.

Section RangesInGeneral.
Import JsString DocumentViewer.

(** X21. Whatever the text and the path, a range that is decorated lies
    inside the text and is not inverted: its first line is at least 1,
    its last line at most the number of lines, and the first does not
    come after the last. *)
Theorem highlightRange_within (rawJson : string) (highlightPath : option string)
        (first last : Z) :
  highlightRange rawJson highlightPath = Some (first, last) ->
  (1 <= first <= last)%Z /\ (last <= Z.of_nat (length (splitLines rawJson)))%Z.
Proof.
  unfold highlightRange.
  destruct highlightPath as [[| c r] |]; try discriminate.
  set (path := String c r).
  assert (Hstart : scanning (Z.of_nat 0) scanStart).
  { unfold scanning, scanStart. simpl. repeat split; [now left | discriminate]. }
  pose proof (scanLines_scanning (pathSegmentsOf path) (splitLines rawJson) 0 scanStart Hstart)
    as Hscan.
  cbv zeta in Hscan. cbn [Nat.add] in Hscan.
  cbv zeta.
  set (st := scanLines (pathSegmentsOf path) 0 (splitLines rawJson) scanStart) in *.
  destruct (startLine st =? -1)%Z eqn:Es; [discriminate |].
  apply Z.eqb_neq in Es. cbn [negb andb].
  destruct (endLine st =? -1)%Z eqn:Ee.
  - apply Z.eqb_eq in Ee.
    rewrite (proj2 (Z.eqb_neq _ _) Es). cbn [negb].
    intros H. inversion H; subst.
    destruct Hscan as [[H1 H2] | [Hs _]]; [lia |].
    destruct Hs as [Hs | Hs]; [contradiction | lia].
  - apply Z.eqb_neq in Ee. rewrite (proj2 (Z.eqb_neq _ _) Ee). cbn [negb].
    intros H. inversion H; subst.
    destruct Hscan as [[H1 H2] | [_ [He _]]]; [lia | contradiction].
Qed.

Lemma highlightRange_within_witness :
  highlightRange Examples.nestedText (Some "a") = Some (2, 4)%Z /\
  (1 <= 2 <= 4)%Z /\ (4 <= Z.of_nat (length (splitLines Examples.nestedText)))%Z.
Proof.
  split; [reflexivity |].
  apply (highlightRange_within Examples.nestedText (Some "a") 2 4). reflexivity.
Defined.



End RangesInGeneral.

(** ** The graph of a document *)

Section GraphShape.
Import JsString GraphUtils.

Variable maxDepth : Z.

Lemma processValue_unfold (value : JsonValue) (key : NodeKey) (parentId : option string)
      (depth xOffset yOffset : Z) (g : Graph) :
  processValue maxDepth value key parentId depth xOffset yOffset g =
  if (maxDepth <? depth)%Z then ({| lastY := yOffset; width := 0 |}, g)
  else
    let g1 := entered value key parentId xOffset yOffset g in
    let nodeId := nodeName (nodeIdCounter g) in
    match value with
    | JObject members =>
        let '(childY, maxWidth, g2) :=
          forEach (fun entry (_ : nat) childY g =>
                     processValue maxDepth (snd entry) (Name (fst entry)) (Some nodeId)
                                  (depth + 1) (xOffset + xSpacing) childY g)
                  members 0 (yOffset + ySpacing)%Z 1%Z g1 in
        ({| lastY := childY - ySpacing; width := maxWidth |}, g2)
    | JArray items =>
        let '(childY, maxWidth, g2) :=
          forEach (fun item index childY g =>
                     processValue maxDepth item (Position index) (Some nodeId)
                                  (depth + 1) (xOffset + xSpacing) childY g)
                  items 0 (yOffset + ySpacing)%Z 1%Z g1 in
        ({| lastY := childY - ySpacing; width := maxWidth |}, g2)
    | _ => ({| lastY := yOffset; width := 1 |}, g1)
    end.
Proof.
  destruct value; destruct parentId; reflexivity.
Qed.


Lemma links_weaken (lo lo' : nat) (e : Edge) :
  (lo' <= lo)%nat -> links lo e -> links lo' e.
Proof.
  intros Hle [i [j [Hij H]]]. exists i, j. split; [lia | exact H].
Qed.

Lemma StronglySorted_app (l1 l2 : list Z) (y : Z) :
  StronglySorted Z.lt l1 -> StronglySorted Z.lt l2 ->
  Forall (fun a => (a < y)%Z) l1 -> Forall (fun b => (y <= b)%Z) l2 ->
  StronglySorted Z.lt (l1 ++ l2).
Proof.
  intros H1 H2 Hlow Hhigh. induction H1 as [| a l1 Hs IH Ha]; cbn [app].
  - exact H2.
  - inversion Hlow as [| ? ? Hay Hrest]; subst.
    constructor; [apply IH; exact Hrest |].
    apply Forall_app. split; [exact Ha |].
    eapply Forall_impl; [| exact Hhigh]. cbv beta. intros b Hb. lia.
Qed.

Lemma grown_refl (lo : nat) (y0 y1 : Z) (g : Graph) : grown lo y0 y1 g g.
Proof.
  exists [], []. rewrite !app_nil_r, Nat.add_0_r.
  repeat split; try reflexivity; constructor.
Qed.

Lemma grown_trans (lo : nat) (y0 y1 y2 y3 : Z) (g g1 g2 : Graph) :
  (y0 <= y2)%Z -> (y1 < y2)%Z -> (y1 <= y3)%Z ->
  grown lo y0 y1 g g1 -> grown lo y2 y3 g1 g2 -> grown lo y0 y3 g g2.
Proof.
  intros H02 H12 H13
         [ns [es [Hn [He [Hc [Hid [Ht [Hl [Hb Hs]]]]]]]]]
         [ns' [es' [Hn' [He' [Hc' [Hid' [Ht' [Hl' [Hb' Hs']]]]]]]]].
  exists (ns ++ ns')%list, (es ++ es')%list.
  rewrite Hc in Hid', Ht'.
  split; [now rewrite Hn', Hn, app_assoc |].
  split; [now rewrite He', He, app_assoc |].
  split; [rewrite Hc', Hc, length_app; lia |].
  split; [now rewrite map_app, length_app, seq_app, map_app, Hid, Hid' |].
  split; [now rewrite map_app, length_app, seq_app, map_app, Ht, Ht' |].
  split; [apply Forall_app; split; assumption |].
  split.
  - apply Forall_app. split.
    + eapply Forall_impl; [| exact Hb]. cbv beta. intros n Hn0. lia.
    + eapply Forall_impl; [| exact Hb']. cbv beta. intros n Hn0. lia.
  - rewrite map_app. apply (StronglySorted_app _ _ y2); try assumption.
    + apply Forall_map. eapply Forall_impl; [| exact Hb]. cbv beta. intros n Hn0. lia.
    + apply Forall_map. eapply Forall_impl; [| exact Hb']. cbv beta. intros n Hn0. lia.
Qed.

Lemma grown_weaken (lo lo' : nat) (y0 y1 : Z) (g g' : Graph) :
  (lo' <= lo)%nat -> grown lo y0 y1 g g' -> grown lo' y0 y1 g g'.
Proof.
  intros Hle [ns [es [Hn [He [Hc [Hid [Ht [Hl Hr]]]]]]]].
  exists ns, es. repeat split; try assumption; try apply Hr.
  eapply Forall_impl; [| exact Hl]. intros e. now apply links_weaken.
Qed.

Lemma entered_grown (value : JsonValue) (key : NodeKey) (i : nat)
      (xOffset yOffset : Z) (g : Graph) :
  (i < nodeIdCounter g)%nat ->
  grown i yOffset yOffset g (entered value key (Some (nodeName i)) xOffset yOffset g).
Proof.
  intros Hi. unfold entered, getNodeId, pushNode, pushEdge. cbn [nodeIdCounter nodes edges].
  eexists [_], [_]. cbn [nodes edges nodeIdCounter length seq map].
  repeat split; try reflexivity.
  - lia.
  - constructor; [| constructor]. exists i, (nodeIdCounter g).
    cbn [edge_source edge_target edge_id]. repeat split; try reflexivity; lia.
  - constructor; [| constructor]. cbn [node_y]. lia.
  - cbn [node_y]. repeat constructor.
Qed.

Lemma forEach_grown {A : Type} (visit : A -> nat -> Z -> Graph -> Layout * Graph)
      (lo : nat) (entries : list A) :
  Forall (fun a => forall index y g,
              (lo < nodeIdCounter g)%nat ->
              (y <= lastY (fst (visit a index y g)))%Z /\
              grown lo y (lastY (fst (visit a index y g))) g (snd (visit a index y g)))
         entries ->
  forall index childY maxWidth g,
    (lo < nodeIdCounter g)%nat ->
    let '(childY', _, g') := forEach visit entries index childY maxWidth g in
    (childY <= childY')%Z /\ grown lo childY (childY' - ySpacing) g g'.
Proof.
  induction 1 as [| a rest Ha Hrest IH]; intros index childY maxWidth g Hlo; cbn [forEach].
  - split; [lia | apply grown_refl].
  - specialize (Ha index childY g Hlo).
    destruct (visit a index childY g) as [result g1]. cbn [fst snd] in Ha.
    destruct Ha as [Hy Hg].
    assert (Hlo1 : (lo < nodeIdCounter g1)%nat).
    { destruct Hg as [ns [es [_ [_ [Hc _]]]]]. lia. }
    specialize (IH (S index) (lastY result + ySpacing)%Z
                   (Z.max maxWidth (width result + 1)) g1 Hlo1).
    destruct (forEach visit rest (S index) (lastY result + ySpacing)
                      (Z.max maxWidth (width result + 1)) g1) as [[childY' w] g2].
    destruct IH as [Hy' Hg']. unfold ySpacing in *.
    split; [lia |].
    apply (grown_trans lo childY (lastY result) (lastY result + 120) _ g g1 g2);
      try lia; assumption.
Qed.

Lemma entered_counter (value : JsonValue) (key : NodeKey) (parentId : option string)
      (xOffset yOffset : Z) (g : Graph) :
  nodeIdCounter (entered value key parentId xOffset yOffset g) = S (nodeIdCounter g).
Proof.
  destruct parentId; reflexivity.
Qed.

Lemma processValue_grown (value : JsonValue) :
  forall key i depth xOffset yOffset g,
    (i < nodeIdCounter g)%nat ->
    let r := processValue maxDepth value key (Some (nodeName i)) depth xOffset yOffset g in
    (yOffset <= lastY (fst r))%Z /\ grown i yOffset (lastY (fst r)) g (snd r).
Proof.
  induction value as [| b | n | s | items IH | members IH] using JsonValue_deep_ind;
    intros key i depth xOffset yOffset g Hi; cbv zeta;
    rewrite processValue_unfold;
    (destruct (maxDepth <? depth)%Z;
     [cbn [fst snd lastY]; split; [lia | apply grown_refl] |]);
    cbv zeta; try (cbn [fst snd lastY]; split; [lia | now apply entered_grown]).
  - pose proof (entered_grown (JArray items) key i xOffset yOffset g Hi) as Hent.
    pose proof (entered_counter (JArray items) key (Some (nodeName i)) xOffset yOffset g)
      as Hc.
    set (g1 := entered (JArray items) key (Some (nodeName i)) xOffset yOffset g) in *.
    match goal with
    | |- context [forEach ?visit items 0 ?y0 ?w g1] =>
        pose proof (forEach_grown visit (nodeIdCounter g) items) as Hloop;
        specialize (Hloop (Forall_impl _ (fun item H index cy g' Hlo =>
                                            H (Position index) (nodeIdCounter g) (depth + 1)%Z
                                              (xOffset + xSpacing)%Z cy g' Hlo) IH)
                          0%nat y0 w g1);
        destruct (forEach visit items 0 y0 w g1) as [[childY maxWidth] g2]
    end.
    destruct Hloop as [Hy Hg]; [lia |]. cbn [fst snd lastY]. unfold ySpacing in *.
    split; [lia |].
    apply (grown_trans i yOffset yOffset (yOffset + 120) _ g g1 g2); try lia;
      [exact Hent | apply (grown_weaken (nodeIdCounter g)); [lia | exact Hg]].
  - pose proof (entered_grown (JObject members) key i xOffset yOffset g Hi) as Hent.
    pose proof (entered_counter (JObject members) key (Some (nodeName i)) xOffset yOffset g)
      as Hc.
    set (g1 := entered (JObject members) key (Some (nodeName i)) xOffset yOffset g) in *.
    match goal with
    | |- context [forEach ?visit members 0 ?y0 ?w g1] =>
        pose proof (forEach_grown visit (nodeIdCounter g) members) as Hloop;
        specialize (Hloop (Forall_impl _ (fun entry H (index : nat) cy g' Hlo =>
                                            H (Name (fst entry)) (nodeIdCounter g) (depth + 1)%Z
                                              (xOffset + xSpacing)%Z cy g' Hlo) IH)
                          0%nat y0 w g1);
        destruct (forEach visit members 0 y0 w g1) as [[childY maxWidth] g2]
    end.
    destruct Hloop as [Hy Hg]; [lia |]. cbn [fst snd lastY]. unfold ySpacing in *.
    split; [lia |].
    apply (grown_trans i yOffset yOffset (yOffset + 120) _ g g1 g2); try lia;
      [exact Hent | apply (grown_weaken (nodeIdCounter g)); [lia | exact Hg]].
Qed.


(** The graph of [jsonToGraph] is empty, or it is a first node in the
    top row followed by a run of [processValue] below it. *)
Lemma jsonToGraph_shape (data : JsonValue) :
  let G := jsonToGraph maxDepth data in
  (fst G = [] /\ snd G = []) \/
  exists (root : GraphNode) (rest : list GraphNode) (y1 : Z),
    fst G = root :: rest /\ node_id root = nodeName 0 /\ node_y root = 0%Z /\
    map node_id rest = map nodeName (seq 1 (length rest)) /\
    map edge_target (snd G) = map nodeName (seq 1 (length rest)) /\
    Forall (links 0) (snd G) /\
    rows 120 y1 rest.
Proof.
  assert (Hloop : forall (A : Type) (visit : A -> nat -> Z -> Graph -> Layout * Graph)
                         (entries : list A) (g1 : Graph) (root : GraphNode),
             nodes g1 = [root] -> edges g1 = [] -> nodeIdCounter g1 = 1%nat ->
             node_id root = nodeName 0 -> node_y root = 0%Z ->
             Forall (fun a => forall index y g,
                         (0 < nodeIdCounter g)%nat ->
                         (y <= lastY (fst (visit a index y g)))%Z /\
                         grown 0 y (lastY (fst (visit a index y g))) g
                               (snd (visit a index y g))) entries ->
             let '(_, _, g2) := forEach visit entries 0 (0 + ySpacing)%Z 1%Z g1 in
             exists (root' : GraphNode) (rest : list GraphNode) (y1 : Z),
               nodes g2 = root' :: rest /\ node_id root' = nodeName 0 /\
               node_y root' = 0%Z /\
               map node_id rest = map nodeName (seq 1 (length rest)) /\
               map edge_target (edges g2) = map nodeName (seq 1 (length rest)) /\
               Forall (links 0) (edges g2) /\ rows 120 y1 rest).
  { intros A visit entries g1 root Hn1 He1 Hc1 Hid Hy Hall.
    pose proof (forEach_grown visit 0 entries Hall 0%nat (0 + ySpacing)%Z 1%Z g1) as H.
    destruct (forEach visit entries 0 (0 + ySpacing)%Z 1%Z g1) as [[childY w] g2].
    destruct H as [_ [ns [es [Hn [He [_ [Hids [Ht [Hl Hr]]]]]]]]]; [lia |].
    rewrite Hn1, He1, Hc1 in *. cbn [Datatypes.app] in *.
    exists root, ns, (childY - ySpacing)%Z. rewrite Hn, He.
    repeat split; try assumption; apply Hr. }
  unfold jsonToGraph.
  destruct data as [| b | n | s | items | members];
    match goal with
    | |- context [if ?c then _ else _] =>
        let v := eval vm_compute in c in change c with v
    end; cbv iota;
    try (right; unfold getNodeId, pushNode;
         cbn [fst snd nodes edges nodeIdCounter Datatypes.app];
         eexists _, [], 0%Z; repeat split; constructor);
    rewrite processValue_unfold;
    (destruct (maxDepth <? 0)%Z; [left; split; reflexivity |]);
    cbv zeta; right.
  - unfold entered, getNodeId, pushNode.
    cbn [fst snd nodes edges nodeIdCounter Datatypes.app].
    eexists _, [], 0%Z; repeat split; constructor.
  - match goal with
    | |- context [forEach ?visit items 0 ?y0 ?w ?g1] =>
        pose proof (Hloop _ visit items g1 _ eq_refl eq_refl eq_refl eq_refl eq_refl) as H;
        destruct (forEach visit items 0 y0 w g1) as [[childY maxWidth] g2]
    end.
    cbn [fst snd]. apply H.
    apply Forall_forall. intros item _ index y g Hlo.
    apply (processValue_grown item (Position index) 0 _ _ y g Hlo).
  - match goal with
    | |- context [forEach ?visit members 0 ?y0 ?w ?g1] =>
        pose proof (Hloop _ visit members g1 _ eq_refl eq_refl eq_refl eq_refl eq_refl) as H;
        destruct (forEach visit members 0 y0 w g1) as [[childY maxWidth] g2]
    end.
    cbn [fst snd]. apply H.
    apply Forall_forall. intros entry _ index y g Hlo.
    apply (processValue_grown (snd entry) (Name (fst entry)) 0 _ _ y g Hlo).
Qed.


Lemma nodeName_inj (i j : nat) : nodeName i = nodeName j -> i = j.
Proof.
  unfold nodeName. intros H. apply ofNat_inj.
  now inversion H.
Qed.

(** X23. The nodes carry the names node-0, node-1, and so on in the
    order in which they were made, so that no two nodes share a name. *)
Theorem jsonToGraph_node_ids (data : JsonValue) :
  let ns := fst (jsonToGraph maxDepth data) in
  map node_id ns = map nodeName (seq 0 (length ns)) /\ NoDup (map node_id ns).
Proof.
  cbv zeta.
  assert (H : map node_id (fst (jsonToGraph maxDepth data)) =
              map nodeName (seq 0 (length (fst (jsonToGraph maxDepth data))))).
  { destruct (jsonToGraph_shape data)
      as [[Hn _] | [root [rest [y1 [Hn [Hid [_ [Hids _]]]]]]]]; rewrite Hn.
    - reflexivity.
    - cbn [map length seq]. now rewrite Hid, Hids. }
  split; [exact H |]. rewrite H.
  apply NoDup_map_NoDup_ForallPairs; [| apply seq_NoDup].
  intros i j _ _. apply nodeName_inj.
Qed.

(** X24. The edges make the nodes a tree in the order of their making:
    every node but the first is the target of exactly one edge, the
    edges come in the order of their targets, each edge starts at a node
    made before its target, and its id is the two names joined by a
    dash. *)
Theorem jsonToGraph_edges_tree (data : JsonValue) :
  let G := jsonToGraph maxDepth data in
  map edge_target (snd G) = map nodeName (seq 1 (length (fst G) - 1)) /\
  Forall (links 0) (snd G).
Proof.
  cbv zeta.
  destruct (jsonToGraph_shape data)
    as [[Hn He] | [root [rest [y1 [Hn [_ [_ [_ [Ht [Hl _]]]]]]]]]]; rewrite Hn.
  - rewrite He. split; [reflexivity | constructor].
  - cbn [length]. rewrite Nat.sub_succ, Nat.sub_0_r. split; assumption.
Qed.

(** X25. Every node is drawn strictly below all nodes made before it. *)
Theorem jsonToGraph_rows_descend (data : JsonValue) :
  StronglySorted Z.lt (map node_y (fst (jsonToGraph maxDepth data))).
Proof.
  destruct (jsonToGraph_shape data)
    as [[Hn _] | [root [rest [y1 [Hn [_ [Hy [_ [_ [_ [Hb Hs]]]]]]]]]]]; rewrite Hn.
  - constructor.
  - cbn [map]. constructor; [exact Hs |].
    apply Forall_map. eapply Forall_impl; [| exact Hb]. cbv beta. intros n Hn0. lia.
Qed.

Lemma forEach_nodes {A : Type} (visit : A -> nat -> Z -> Graph -> Layout * Graph)
      (size : A -> nat) (entries : list A) :
  Forall (fun a => forall index y g,
              length (nodes (snd (visit a index y g))) = (length (nodes g) + size a)%nat)
         entries ->
  forall index childY maxWidth g,
    length (nodes (snd (forEach visit entries index childY maxWidth g))) =
    (length (nodes g) + list_sum (map size entries))%nat.
Proof.
  induction 1 as [| a rest Ha Hrest IH]; intros index childY maxWidth g;
    cbn [forEach].
  - simpl. lia.
  - change (list_sum (map size (a :: rest)))
      with (size a + list_sum (map size rest))%nat.
    specialize (Ha index childY g).
    destruct (visit a index childY g) as [result g1]. cbn [snd] in Ha.
    rewrite IH, Ha. lia.
Qed.

Lemma entered_nodes (value : JsonValue) (key : NodeKey) (parentId : option string)
      (xOffset yOffset : Z) (g : Graph) :
  length (nodes (entered value key parentId xOffset yOffset g)) = S (length (nodes g)).
Proof.
  destruct parentId; unfold entered, getNodeId, pushNode, pushEdge;
    cbn [nodes]; rewrite length_app; cbn [length]; lia.
Qed.

Lemma processValue_nodes (value : JsonValue) :
  forall key parentId depth xOffset yOffset g,
    (depth + Z.of_nat (nesting value) <= maxDepth)%Z ->
    length (nodes (snd (processValue maxDepth value key parentId depth xOffset yOffset g))) =
    (length (nodes g) + App.countNodes value)%nat.
Proof.
  induction value as [| b | n | s | items IH | members IH] using JsonValue_deep_ind;
    intros key parentId depth xOffset yOffset g Hd;
    rewrite processValue_unfold;
    (destruct (maxDepth <? depth)%Z eqn:Ecut; [apply Z.ltb_lt in Ecut; lia |]);
    cbv zeta; try (cbn [snd App.countNodes]; rewrite entered_nodes; lia).
  - match goal with
    | |- context [forEach ?visit items 0 ?y0 ?w ?g1] =>
        pose proof (forEach_nodes visit App.countNodes items) as H;
        specialize (fun Hall => H Hall 0%nat y0 w g1);
        destruct (forEach visit items 0 y0 w g1) as [[childY maxWidth] g2]
    end.
    cbn [snd] in *. rewrite H, entered_nodes; [cbn [App.countNodes]; lia |].
    cbn [nesting] in Hd.
    assert (Hmax := proj1 (list_max_le (map (fun item => S (nesting item)) items) _)
                          (Nat.le_refl _)).
    rewrite Forall_map in Hmax. rewrite Forall_forall in IH, Hmax.
    apply Forall_forall. intros item Hin index y g'.
    apply IH; [exact Hin |]. specialize (Hmax item Hin). cbv beta in Hmax. lia.
  - match goal with
    | |- context [forEach ?visit members 0 ?y0 ?w ?g1] =>
        pose proof (forEach_nodes visit (fun kv => App.countNodes (snd kv)) members) as H;
        specialize (fun Hall => H Hall 0%nat y0 w g1);
        destruct (forEach visit members 0 y0 w g1) as [[childY maxWidth] g2]
    end.
    cbn [snd] in *. rewrite H, entered_nodes; [cbn [App.countNodes]; lia |].
    cbn [nesting] in Hd.
    assert (Hmax := proj1 (list_max_le (map (fun entry => S (nesting (snd entry))) members) _)
                          (Nat.le_refl _)).
    rewrite Forall_map in Hmax. rewrite Forall_forall in IH, Hmax.
    apply Forall_forall. intros entry Hin index y g'.
    apply IH; [exact Hin |]. specialize (Hmax entry Hin). cbv beta in Hmax. lia.
Qed.

(** X26. When no value lies deeper than the limit, the graph has one
    node for each value that the statistics of the document count. *)
Theorem jsonToGraph_counts_nodes (data : JsonValue) :
  (Z.of_nat (nesting data) <= maxDepth)%Z ->
  length (fst (jsonToGraph maxDepth data)) = App.countNodes data.
Proof.
  intros Hd. unfold jsonToGraph.
  destruct data as [| b | n | s | items | members];
    match goal with
    | |- context [if ?c then _ else _] =>
        let v := eval vm_compute in c in change c with v
    end; cbv iota; try reflexivity.
  - pose proof (processValue_nodes JNull (Name "root") None 0 0 0
                  {| nodeIdCounter := 0; nodes := []; edges := [] |} Hd) as H.
    destruct (processValue maxDepth JNull _ _ _ _ _ _) as [r g]. exact H.
  - pose proof (processValue_nodes (JArray items) (Name "root") None 0 0 0
                  {| nodeIdCounter := 0; nodes := []; edges := [] |} Hd) as H.
    destruct (processValue maxDepth (JArray items) _ _ _ _ _ _) as [r g]. exact H.
  - pose proof (processValue_nodes (JObject members) (Name "root") None 0 0 0
                  {| nodeIdCounter := 0; nodes := []; edges := [] |} Hd) as H.
    destruct (processValue maxDepth (JObject members) _ _ _ _ _ _) as [r g]. exact H.
Qed.

(** X27. Below a negative limit nothing of an object, an array or null
    is drawn, while a string, a number or a boolean is still drawn as
    one node. *)
Theorem jsonToGraph_negative_limit (data : JsonValue) :
  (maxDepth < 0)%Z ->
  length (fst (jsonToGraph maxDepth data)) =
  match data with
  | JNull | JArray _ | JObject _ => 0%nat
  | _ => 1%nat
  end /\
  snd (jsonToGraph maxDepth data) = [].
Proof.
  intros Hneg. apply Z.ltb_lt in Hneg. unfold jsonToGraph.
  destruct data as [| b | n | s | items | members];
    match goal with
    | |- context [if ?c then _ else _] =>
        let v := eval vm_compute in c in change c with v
    end; cbv iota; try (split; reflexivity);
    rewrite processValue_unfold, Hneg; split; reflexivity.
Qed.

End GraphShape.

Lemma jsonToGraph_counts_nodes_witness :
  (Z.of_nat (GraphUtils.nesting GraphUtils.exampleGraphData) <= 2)%Z /\
  length (fst (GraphUtils.jsonToGraph 2 GraphUtils.exampleGraphData)) =
  App.countNodes GraphUtils.exampleGraphData.
Proof.
  assert (H : (Z.of_nat (GraphUtils.nesting GraphUtils.exampleGraphData) <= 2)%Z)
    by (vm_compute; discriminate).
  split; [exact H |].
  exact (jsonToGraph_counts_nodes 2 GraphUtils.exampleGraphData H).
Defined.

Lemma jsonToGraph_negative_limit_witness :
  (-1 < 0)%Z /\
  length (fst (GraphUtils.jsonToGraph (-1) (JString "x"))) = 1%nat /\
  snd (GraphUtils.jsonToGraph (-1) (JString "x")) = [].
Proof.
  split; [lia |].
  apply (jsonToGraph_negative_limit (-1) (JString "x")). lia.
Defined.

(** ** The handlers of the array editor *)

Section ArrayHandlers.
Import Editors.

Lemma setAt_app {A : Type} (before rest : list A) (k : nat) (v : A) :
  setAt (length before + k) v (before ++ rest)%list = (before ++ setAt k v rest)%list.
Proof.
  induction before as [| z before IH]; [reflexivity |].
  cbn [length Nat.add Datatypes.app setAt]. now rewrite IH.
Qed.

Lemma swapped_neighbours (before : JsonArray) (x y : JsonValue) (after : JsonArray) :
  swapped (length before) (S (length before)) (before ++ x :: y :: after)%list =
  Changed (before ++ y :: x :: after)%list.
Proof.
  unfold swapped.
  rewrite !nth_error_app2 by lia.
  replace (length before - length before)%nat with 0%nat by lia.
  replace (S (length before) - length before)%nat with 1%nat by lia.
  cbn [nth_error]. f_equal.
  replace (S (length before)) with (length before + 1)%nat by lia.
  rewrite <- (Nat.add_0_r (length before)) at 2.
  now rewrite !setAt_app.
Qed.

Lemma neighbours_split (i : nat) (data : JsonArray) :
  (S i < length data)%nat ->
  exists before x y after,
    data = (before ++ x :: y :: after)%list /\ length before = i.
Proof.
  intros Hi.
  exists (firstn i data).
  destruct (skipn i data) as [| x [| y after]] eqn:E.
  - apply (f_equal (@length _)) in E. rewrite length_skipn in E. cbn in E. lia.
  - apply (f_equal (@length _)) in E. rewrite length_skipn in E. cbn in E. lia.
  - exists x, y, after. split.
    + rewrite <- E. symmetry. apply firstn_skipn.
    + rewrite length_firstn. lia.
Qed.

(** X28. For two neighbours inside the array, moving the first down and
    moving the second up are the same update; it exchanges the two items
    and nothing else, and doing it once more gives the array back. *)
Theorem moves_exchange_neighbours (i : nat) (data : JsonArray) :
  (S i < length data)%nat ->
  exists moved,
    handleMoveDown i data = Changed moved /\
    handleMoveUp (S i) data = Changed moved /\
    handleMoveDown i moved = Changed data /\
    Permutation data moved /\
    nth_error moved i = nth_error data (S i) /\
    nth_error moved (S i) = nth_error data i /\
    (forall k, k <> i -> k <> S i -> nth_error moved k = nth_error data k).
Proof.
  intros Hi.
  destruct (neighbours_split i data Hi) as [before [x [y [after [Hdata Hlen]]]]].
  subst data i. exists (before ++ y :: x :: after)%list.
  assert (Hlt : forall l : JsonArray,
             length l = length (before ++ x :: y :: after)%list ->
             (Z.of_nat (length before) <? Z.of_nat (length l) - 1)%Z = true).
  { intros l Hl. apply Z.ltb_lt. rewrite Hl. lia. }
  unfold handleMoveDown, handleMoveUp.
  rewrite (Hlt _ eq_refl), Hlt by (rewrite !length_app; reflexivity).
  cbn [Nat.ltb Nat.leb]. rewrite Nat.add_1_r.
  replace (S (length before) - 1)%nat with (length before) by lia.
  rewrite !swapped_neighbours.
  repeat split.
  - apply Permutation_app_head. constructor.
  - rewrite !nth_error_app2 by lia.
    replace (length before - length before)%nat with 0%nat by lia.
    replace (S (length before) - length before)%nat with 1%nat by lia.
    reflexivity.
  - rewrite !nth_error_app2 by lia.
    replace (length before - length before)%nat with 0%nat by lia.
    replace (S (length before) - length before)%nat with 1%nat by lia.
    reflexivity.
  - intros k Hk1 Hk2.
    destruct (Nat.lt_ge_cases k (length before)) as [Hlow | Hhigh].
    + now rewrite !nth_error_app1.
    + rewrite !nth_error_app2 by lia.
      destruct (k - length before)%nat as [| [| m]] eqn:E; try lia. reflexivity.
Qed.

Lemma filterIndexed_from {A : Type} (index : nat) (a : list A) :
  forall i,
    filterIndexed (fun k => negb (k =? index)%nat) i a =
    if (index <? i)%nat then a
    else (firstn (index - i) a ++ skipn (S (index - i)) a)%list.
Proof.
  induction a as [| x r IH]; intros i; cbn [filterIndexed].
  - destruct (index <? i)%nat; [reflexivity |]. now rewrite firstn_nil, skipn_nil.
  - rewrite IH.
    destruct (Nat.ltb_spec index i) as [Hlt | Hge].
    + replace (i =? index)%nat with false by (symmetry; apply Nat.eqb_neq; lia).
      cbn [negb]. now replace (index <? S i)%nat with true by (symmetry; apply Nat.ltb_lt; lia).
    + destruct (Nat.eqb_spec i index) as [Heq | Hne].
      * subst. cbn [negb].
        replace (index <? S index)%nat with true by (symmetry; apply Nat.ltb_lt; lia).
        now rewrite Nat.sub_diag.
      * cbn [negb].
        replace (index <? S i)%nat with false by (symmetry; apply Nat.ltb_ge; lia).
        replace (index - i)%nat with (S (index - S i)) by lia. reflexivity.
Qed.

(** X29. Deleting the item at an index passes on the items before it
    followed by the items after it; at an index outside the array the
    new array is equal to the old one. *)
Theorem handleDeleteItem_splices (index : nat) (data : JsonArray) :
  handleDeleteItem index data =
  Changed (firstn index data ++ skipn (S index) data)%list /\
  ((length data <= index)%nat -> handleDeleteItem index data = Changed data).
Proof.
  unfold handleDeleteItem. rewrite filterIndexed_from. cbn [Nat.ltb Nat.leb].
  rewrite Nat.sub_0_r. split; [reflexivity |].
  intros Hout. rewrite firstn_all2 by lia. rewrite skipn_all2 by lia.
  now rewrite app_nil_r.
Qed.

(** X30. Deleting the item that was just added at the end gives the
    array back. *)
Theorem handleDeleteItem_after_handleSaveNewItem (newItem : JsonObject) (data : JsonArray) :
  exists added,
    handleSaveNewItem newItem data = Changed added /\
    handleDeleteItem (length data) added = Changed data.
Proof.
  eexists. split; [reflexivity |].
  unfold handleDeleteItem. rewrite filterIndexed_from. cbn [Nat.ltb Nat.leb].
  rewrite Nat.sub_0_r.
  rewrite firstn_app, Nat.sub_diag, firstn_all, firstn_O, app_nil_r.
  rewrite skipn_all2 by (rewrite length_app; cbn [length]; lia).
  now rewrite app_nil_r.
Qed.

End ArrayHandlers.

Lemma moves_exchange_neighbours_witness :
  (1 < length [JNumber 1; JNumber 2; JNumber 3])%nat /\
  exists moved,
    Editors.handleMoveDown 0 [JNumber 1; JNumber 2; JNumber 3] = Editors.Changed moved /\
    Editors.handleMoveUp 1 [JNumber 1; JNumber 2; JNumber 3] = Editors.Changed moved /\
    Editors.handleMoveDown 0 moved = Editors.Changed [JNumber 1; JNumber 2; JNumber 3] /\
    Permutation [JNumber 1; JNumber 2; JNumber 3] moved /\
    nth_error moved 0 = nth_error [JNumber 1; JNumber 2; JNumber 3] 1 /\
    nth_error moved 1 = nth_error [JNumber 1; JNumber 2; JNumber 3] 0 /\
    (forall k, k <> 0%nat -> k <> 1%nat ->
               nth_error moved k = nth_error [JNumber 1; JNumber 2; JNumber 3] k).
Proof.
  assert (H : (1 < length [JNumber 1; JNumber 2; JNumber 3])%nat) by (simpl; lia).
  split; [exact H |].
  exact (moves_exchange_neighbours 0 [JNumber 1; JNumber 2; JNumber 3] H).
Defined.

Lemma handleDeleteItem_splices_witness :
  (length [JNumber 1] <= 3)%nat /\
  Editors.handleDeleteItem 3 [JNumber 1] = Editors.Changed [JNumber 1].
Proof.
  split; [simpl; lia |].
  apply (proj2 (handleDeleteItem_splices 3 [JNumber 1])). simpl; lia.
Defined.
